(** * reCAPTCHA solver (app/services/solvers/recaptcha.py)

    A shallow embedding of the classes [OCR], [Actions] and [Solver] of
    [recaptcha.py].  The browser driver, the HTTP client, the detection model
    and the upsampling model are external: they are an interface ([Env]) of
    calls that return a value or raise, over an abstract world.  The Python
    objects' own fields ([ocr._class], [actions.start], [recaptcha.blocks]),
    the cache of weight files and a log of the observable calls are explicit
    state, threaded through a state-and-exception monad. *)

From Stdlib Require Import ZArith QArith Qround Ascii String List Lia Permutation.
From stdpp Require Import base gmap strings list.

Set Default Proof Using "Type".
Open Scope string_scope.
Open Scope list_scope.
Open Scope nat_scope.

(** ** Python values and helpers *)

(** The exceptions the module can meet.  All of them derive from Python's
    [Exception], so every [except Exception] of the source catches each one.
    [LibraryError] stands for whatever selenium, requests, cv2, torch or
    realesrgan raise. *)
Inductive exn : Type :=
| ValueError
| IndexError
| KeyError
| TypeError
| AttributeError
| ZeroDivisionError
| UnboundLocalError
| LibraryError (code : nat).

(** Result of running a piece of the program: a value, a raised exception, or
    [OutOfFuel] when the loop budget of the model ran out (the Python loop is
    still running).  [OutOfFuel] is not an exception: no handler catches it. *)
Inductive res (A : Type) : Type :=
| Ok (a : A)
| Raise (e : exn)
| OutOfFuel.
Arguments Ok {A} a.
Arguments Raise {A} e.
Arguments OutOfFuel {A}.

#[global] Instance res_ret : MRet res := fun A a => Ok a.
#[global] Instance res_bind : MBind res := fun A B f r =>
  match r with
  | Ok a => f a
  | Raise e => Raise e
  | OutOfFuel => OutOfFuel
  end.

Fixpoint res_map_m {A B} (f : A -> res B) (l : list A) : res (list B) :=
  match l with
  | [] => Ok []
  | x :: l' => y ← f x; ys ← res_map_m f l'; Ok (y :: ys)
  end.

(** [sub in s] on strings. *)
Fixpoint py_contains (sub s : string) : bool :=
  String.prefix sub s ||
  match s with
  | EmptyString => false
  | String _ s' => py_contains sub s'
  end.

(** [s.split(sep)] for a one-character separator. *)
Fixpoint py_split (sep : ascii) (s : string) : list string :=
  match s with
  | EmptyString => [EmptyString]
  | String c s' =>
      if Ascii.eqb c sep then EmptyString :: py_split sep s'
      else match py_split sep s' with
           | h :: t => String c h :: t
           | [] => [String c EmptyString]
           end
  end.

(** [int(c)] for a one-character string.  The strings here are 8-bit, so
    [c] is an ASCII character; Python's [int] also reads the decimal digits
    of other scripts, which are outside this model. *)
Definition py_digit (c : ascii) : option nat :=
  let n := nat_of_ascii c in
  if (48 <=? n) && (n <=? 57) then Some (n - 48) else None.

(** [l[i]] for [i >= 0]. *)
Definition py_index {A} (l : list A) (i : nat) : res A :=
  match l !! i with
  | Some a => Ok a
  | None => Raise IndexError
  end.

(** [range(start, stop)] on integers. *)
Definition py_range (start stop : Z) : list Z :=
  map (fun i => (start + Z.of_nat i)%Z) (seq 0 (Z.to_nat (stop - start))).

(** [range(0, stop, step)] on naturals; a zero step raises [ValueError]. *)
Fixpoint range_from (n start step : nat) : list nat :=
  match n with
  | 0 => []
  | S n' => start :: range_from n' (start + step) step
  end.

Definition py_ceil_div (a b : nat) : nat := (a + b - 1) / b.

Definition py_range_step (stop step : nat) : res (list nat) :=
  if step =? 0 then Raise ValueError
  else Ok (range_from (py_ceil_div stop step) 0 step).

(** [itertools.product(xs, ys)]. *)
Definition py_product {A B} (xs : list A) (ys : list B) : list (A * B) :=
  flat_map (fun x => map (fun y => (x, y)) ys) xs.

(** ** Page elements, images, detections *)

(** The XPath expressions of the source; an element is known by the
    expression [web.visible] found it with. *)
Inductive xpath : Type :=
| XDescription      (* (//div[contains(@class, "imageselect-desc")])[last()]/strong *)
| XTile33Image      (* (//img[contains(@class, "rc-image-tile-33")])[position()=1] *)
| XTileImage        (* (//img[contains(@class, "rc-image-tile")])[position()=1] *)
| XTable            (* //*[@id="rc-imageselect-target"]/table *)
| XTile (position : nat)
                    (* (//td[contains(@class, "imageselect-tile")])[position()=p] *)
| XTileSettled (position : nat)
                    (* ...[position()=p][not(contains(@class, "dynamic"))] *)
| XTileInner (position : nat)
                    (* ...[position()=p]/div/div/img *)
| XReloadButton     (* //*[@id="recaptcha-reload-button"] *)
| XVerifyButton     (* (//div[@class="primary-controls"])[position()=1]/div[2]/button *)
| XCheckboxFrame    (* //iframe[@title="reCAPTCHA"] *)
| XAnchor           (* //*[@id="recaptcha-anchor"] *)
| XChallengeFrame   (* //iframe[contains(@title, "recaptcha challenge")] *)
| XBubbleParent     (* (//div[contains(@class, "captcha-bubble")])[position()=1]/.. *)
| XErrorArea        (* (//div[@aria-live="polite"])[position()=1] *)
| XErrorChild (i : nat)
                    (* the i-th descendant that find_elements returns for XErrorArea *).

#[global] Instance xpath_eq_dec : EqDecision xpath.
Proof. solve_decision. Defined.

(** A decoded image: a numpy array of shape [(nrows, ncols, 3)].  Slices are
    views with an offset, as in numpy. *)
Definition pixel : Type := Z * Z * Z.

Record image : Type := Image {
  nrows : nat;
  ncols : nat;
  px : nat -> nat -> pixel
}.

(** [image[r0:r1, c0:c1, :]] for non-negative bounds: numpy clips both bounds
    to the array. *)
Definition slice (im : image) (r0 r1 c0 c1 : nat) : image :=
  {| nrows := (r1 `min` nrows im) - (r0 `min` nrows im);
     ncols := (c1 `min` ncols im) - (c0 `min` ncols im);
     px := fun i j => px im (r0 + i) (c0 + j) |}.

(** One row of the model's result table ([pandas().xyxy[0]]); the columns the
    source reads. *)
Record detection : Type := Detection {
  xmin : Q;
  ymin : Q;
  xmax : Q;
  ymax : Q;
  name : string
}.

(** The keys of a row as a dict ([to_dict(orient="records")]). *)
Definition detection_keys : list string :=
  ["xmin"; "ymin"; "xmax"; "ymax"; "confidence"; "class"; "name"].

(** An entry of the list [find_object] returns: the names found in one tile
    (3x3 challenge) or one row of the result table (4x4 challenge). *)
Inductive found : Type :=
| Names (l : list string)
| Row (d : detection).

(** What [find_object] is called with: a list of tiles, or one image. *)
Inductive yolo_input : Type :=
| ImageList (l : list image)
| OneImage (im : image).

(** A streamed HTTP response of a weight download. *)
Record response : Type := Response {
  content_length : option Z;   (* int(headers.get('Content-Length')) *)
  raw : list Byte.byte;        (* the bytes the stream delivers *)
  raw_error : option exn       (* the stream breaks after them *)
}.

(** What the program does that the outside can see. *)
Inductive event : Type :=
| EvSleep                      (* Actions.sleep *)
| EvClick (x : xpath)          (* element.click() *)
| EvGet (url : string)         (* requests.get(url, stream=True) *)
| EvEnhance                    (* upsampler.enhance(image) *)
| EvYolo                       (* self.yolo(...) *)
| EvFindElements (x : xpath)   (* element.find_elements(By.XPATH, all descendants) *)
| EvPrint (msg : string)       (* print(...) *)
| EvOpen (path : string)       (* open(path, 'wb') *).

(** The positions of the tiles clicked in a log, in order. *)
Definition tile_clicks (evs : list event) : list nat :=
  omap (fun ev => match ev with EvClick (XTile p) => Some p | _ => None end) evs.

#[global] Instance event_eq_dec : EqDecision event.
Proof. solve_decision. Defined.

(** *** The order of the steps of one iteration

    The observable steps of an iteration of the loop of [solve]: fetching an
    image, calling the model, clicking a tile, and polling the challenge
    (the verify button, the error check, the reload button). *)
Inductive phase : Type :=
| Start      (* nothing fetched yet *)
| Fetched    (* an image was fetched and not yet given to the model *)
| Detected   (* the model has run on the last fetched image *)
| Polled     (* the challenge was confirmed, checked or reloaded *).

#[global] Instance phase_eq_dec : EqDecision phase.
Proof. solve_decision. Defined.

Definition is_fetch (ev : event) : bool :=
  match ev with EvGet _ => true | _ => false end.

Definition is_tile_click (ev : event) : bool :=
  match ev with EvClick (XTile _) => true | _ => false end.

Definition is_poll (ev : event) : bool :=
  match ev with
  | EvClick XVerifyButton | EvClick XReloadButton | EvFindElements _ => true
  | _ => false
  end.

(** One step of the order: [None] when the event is out of order. *)
Definition order_step (p : phase) (ev : event) : option phase :=
  match ev with
  | EvGet _ =>
      match p with Polled => None | _ => Some Fetched end
  | EvYolo =>
      match p with Fetched | Detected => Some Detected | _ => None end
  | EvClick (XTile _) =>
      match p with Detected => Some Detected | _ => None end
  | EvClick XVerifyButton | EvClick XReloadButton | EvFindElements _ =>
      match p with Start => None | _ => Some Polled end
  | _ => Some p
  end.

Fixpoint order_run (p : phase) (evs : list event) : option phase :=
  match evs with
  | [] => Some p
  | ev :: evs' =>
      match order_step p ev with
      | Some q => order_run q evs'
      | None => None
      end
  end.

(** An image was fetched and the challenge not polled since. *)
Definition working (q : phase) : Prop := q = Fetched \/ q = Detected.

(** The phase in which [result] may be used to click: the model has run, or
    [result] selects nothing. *)
Definition may_click (result : list bool) (q : phase) : Prop :=
  q = Detected \/ (q = Fetched /\ forall i, result !! i <> Some true).

(** ** The external interface *)

(** Calls into the browser driver and the libraries.  Each takes the world
    and returns a value or an exception, and the next world. *)
Class Env (W : Type) : Type := {
  (* web.visible(xpath): the element once it is visible *)
  o_visible : xpath -> W -> (exn + unit) * W;
  (* element.get_attribute(attr); an absent attribute (None) makes the
     source's next operation on it raise, which is the exception here *)
  o_get_attribute : xpath -> string -> W -> (exn + string) * W;
  (* element.text *)
  o_text : xpath -> W -> (exn + string) * W;
  (* element.location['x'], element.location['y'] *)
  o_location : xpath -> W -> (exn + Z) * W;
  (* element.click() *)
  o_click : xpath -> W -> (exn + unit) * W;
  (* element.find_elements(By.XPATH, all descendants): how many it found *)
  o_find_elements : xpath -> W -> (exn + nat) * W;
  (* web.driver.find_element(By.XPATH, '//*[@id="recaptcha-token"]')
       .get_attribute('value') *)
  o_token : W -> (exn + string) * W;
  (* WDW(web.driver, 5).until(lambda _: token != <token now>) *)
  o_until_token_differs : string -> W -> (exn + unit) * W;
  (* web.driver.switch_to.default_content() *)
  o_switch_default : W -> (exn + unit) * W;
  (* web.driver.switch_to.frame(element) *)
  o_switch_frame : xpath -> W -> (exn + unit) * W;
  (* time = uniform(min, max); web.driver.implicitly_wait(time); sleep(time) *)
  o_wait : W -> (exn + unit) * W;
  (* HumanCurve(start, end, upBoundary=0, downBoundary=0,
                targetPoints=target).points *)
  o_human_curve : Z * Z -> Z * Z -> nat -> W -> (exn + list (Z * Z)) * W;
  (* webdriver.ActionChains(web.driver).move_by_offset(dx, dy).perform() *)
  o_move_perform : Z * Z -> W -> (exn + unit) * W;
  (* random.randint(a, b) *)
  o_randint : Z -> Z -> W -> Z * W;
  (* random.shuffle(list) *)
  o_shuffle : list nat -> W -> list nat * W;
  (* imdecode(asarray(bytearray(get(url, stream=True).raw.read())),
              IMREAD_COLOR): the decoded array, or the exception of the
     request.  For a payload that does not decode imdecode gives None
     without raising; images here are arrays, so that outcome is outside
     this model *)
  o_fetch_image : string -> W -> (exn + image) * W;
  (* self.upsampler.enhance(image)[0] *)
  o_enhance : image -> W -> (exn + image) * W;
  (* self.yolo(input).pandas().xyxy[0] *)
  o_yolo : yolo_input -> W -> (exn + list detection) * W;
  (* loads(open('assets/classes.json').read()).items() *)
  o_classes_json : W -> (exn + list (string * list string)) * W;
  (* get(url, stream=True) for a weight file *)
  o_http_get : string -> W -> (exn + response) * W;
  (* whether open(path, 'wb') succeeds *)
  o_open_wb : string -> W -> (exn + unit) * W;
  (* os.path.abspath *)
  abspath : string -> string;
  (* GREEN and RESET of app/utils/colors.py *)
  GREEN : string;
  RESET : string
}.

(** ** Program state and the monad *)

Section Model.
Context {W : Type} `{!Env W}.

Record pystate : Type := PyState {
  world : W;
  files : gmap string (list Byte.byte);   (* the files on disk *)
  trace : list event;                     (* observable calls so far *)
  ocr_class : string;                     (* ocr._class *)
  actions_start : option (option xpath);  (* actions.start; None: not set *)
  solver_blocks : nat                     (* recaptcha.blocks *)
}.

Definition M (A : Type) : Type := pystate -> res A * pystate.

Definition ret {A} (a : A) : M A := fun s => (Ok a, s).

Definition bind {A B} (m : M A) (f : A -> M B) : M B :=
  fun s =>
    match m s with
    | (Ok a, s') => f a s'
    | (Raise e, s') => (Raise e, s')
    | (OutOfFuel, s') => (OutOfFuel, s')
    end.

Definition raise {A} (e : exn) : M A := fun s => (Raise e, s).

Definition out_of_fuel {A} : M A := fun s => (OutOfFuel, s).

(** [try: m  except Exception: h]. *)
Definition try_except {A} (m : M A) (h : exn -> M A) : M A :=
  fun s =>
    match m s with
    | (Raise e, s') => h e s'
    | other => other
    end.

Definition lift {A} (r : res A) : M A := fun s => (r, s).

#[global] Instance M_ret : MRet M := @ret.
#[global] Instance M_bind : MBind M := fun A B f m => bind m f.

Fixpoint map_m {A B} (f : A -> M B) (l : list A) : M (list B) :=
  match l with
  | [] => ret []
  | x :: l' => y ← f x; ys ← map_m f l'; ret (y :: ys)
  end.

(** [for x in l: acc = body(acc, x)]. *)
Fixpoint for_each {A B} (body : B -> A -> M B) (acc : B) (l : list A) : M B :=
  match l with
  | [] => ret acc
  | x :: l' => acc' ← body acc x; for_each body acc' l'
  end.

(** *** State access *)

Definition log (evs : list event) (s : pystate) : pystate :=
  PyState (world s) (files s) (trace s ++ evs) (ocr_class s)
          (actions_start s) (solver_blocks s).

Definition with_world (w : W) (s : pystate) : pystate :=
  PyState w (files s) (trace s) (ocr_class s) (actions_start s) (solver_blocks s).

Definition with_files (f : gmap string (list Byte.byte)) (s : pystate) : pystate :=
  PyState (world s) f (trace s) (ocr_class s) (actions_start s) (solver_blocks s).

Definition with_class (c : string) (s : pystate) : pystate :=
  PyState (world s) (files s) (trace s) c (actions_start s) (solver_blocks s).

Definition with_start (st : option (option xpath)) (s : pystate) : pystate :=
  PyState (world s) (files s) (trace s) (ocr_class s) st (solver_blocks s).

Definition with_blocks (b : nat) (s : pystate) : pystate :=
  PyState (world s) (files s) (trace s) (ocr_class s) (actions_start s) b.

(** A call that may raise: the events are logged when the call is made. *)
Definition call {A} (evs : list event) (o : W -> (exn + A) * W) : M A :=
  fun s =>
    let '(r, w) := o (world s) in
    (match r with inl e => Raise e | inr a => Ok a end, with_world w (log evs s)).

(** A call that cannot raise. *)
Definition draw {A} (o : W -> A * W) : M A :=
  fun s => let '(a, w) := o (world s) in (Ok a, with_world w s).

(** [self._class], taken to exist: in [select_blocks] every read follows a
    [set_class].  On an [OCR] whose [set_class] never ran Python raises
    [AttributeError]; the state does not tell that case from the empty
    class. *)
Definition get_class : M string := fun s => (Ok (ocr_class s), s).
Definition set_class_field (c : string) : M unit := fun s => (Ok tt, with_class c s).
Definition set_start (st : option xpath) : M unit :=
  fun s => (Ok tt, with_start (Some st) s).
Definition set_blocks (b : nat) : M unit := fun s => (Ok tt, with_blocks b s).

(** [self.start]: [AttributeError] while the attribute was never assigned
    (class [Actions] has no [__init__]). *)
Definition get_start : M (option xpath) :=
  fun s =>
    match actions_start s with
    | Some st => (Ok st, s)
    | None => (Raise AttributeError, s)
    end.

(** *** The driver and the libraries as computations *)

Definition visible (x : xpath) : M xpath := _ ← call [] (o_visible x); ret x.
Definition get_attribute (x : xpath) (a : string) : M string :=
  call [] (o_get_attribute x a).
Definition text (x : xpath) : M string := call [] (o_text x).
Definition location (x : xpath) : M Z := call [] (o_location x).
Definition click (x : xpath) : M unit := call [EvClick x] (o_click x).
Definition find_elements (x : xpath) : M nat :=
  call [EvFindElements x] (o_find_elements x).
Definition token : M string := call [] o_token.
Definition until_token_differs (t : string) : M unit :=
  call [] (o_until_token_differs t).
Definition switch_default : M unit := call [] o_switch_default.
Definition switch_frame (x : xpath) : M unit := call [] (o_switch_frame x).
Definition randint (a b : Z) : M Z := draw (o_randint a b).
Definition shuffle (l : list nat) : M (list nat) := draw (o_shuffle l).
Definition fetch_image (url : string) : M image :=
  call [EvGet url] (o_fetch_image url).
Definition enhance (im : image) : M image := call [EvEnhance] (o_enhance im).
Definition yolo (x : yolo_input) : M (list detection) := call [EvYolo] (o_yolo x).
Definition classes_json : M (list (string * list string)) := call [] o_classes_json.
Definition http_get (url : string) : M response := call [EvGet url] (o_http_get url).
Definition print (msg : string) : M unit := fun s => (Ok tt, log [EvPrint msg] s).

(** [os.path.exists(path)]. *)
Definition exists_ (path : string) : M bool :=
  fun s => (Ok (bool_decide (is_Some (files s !! path))), s).

(** Writing a file's contents. *)
Definition put_file (path : string) (data : list Byte.byte) : M unit :=
  fun s => (Ok tt, with_files (<[path := data]> (files s)) s).

(** [open(path, 'wb')]: the file is created or truncated. *)
Definition open_wb (path : string) : M unit :=
  call [EvOpen path] (o_open_wb path);;
  put_file path [].

(** [copyfileobj(raw, output)]: what the stream delivers is written; a
    broken stream raises after that. *)
Definition copyfileobj (r : response) (path : string) : M unit :=
  put_file path (raw r);;
  match raw_error r with
  | Some e => raise e
  | None => ret tt
  end.

(** ** class OCR *)

(** [OCR.__init__] *)
Definition repository_url : string :=
  "https://github.com/maximedrn/" +:+
  "opensea-automatic-bulk-upload-and-sale/releases/download/".
Definition model_urls : list string :=
  ["RealESRGAN/RealESRGAN_x4plus.pth"; "Yolov5x6/yolov5x6.pt"].
Definition model_path : list string :=
  ["realesrgan/RealESRGAN_x4plus.pth"; "yolov5/yolov5x6.pt"].
Definition models : list string := ["RealESRGAN"; "Yolov5x6"].

(** [load_models] leaves [self.specific_classes = []]; nothing changes it. *)
Definition specific_classes : list string := [].

(** [zip(a, b, c)] *)
Fixpoint zip3 {A B C} (a : list A) (b : list B) (c : list C) : list (A * B * C) :=
  match a, b, c with
  | x :: a', y :: b', z :: c' => (x, y, z) :: zip3 a' b' c'
  | _, _, _ => []
  end.

(** The body of the loop of [download_models]. *)
Definition download_model (entry : string * string * string) : M unit :=
  let '(url, path, model) := entry in
  present ← exists_ (abspath path);
  if negb present then
    print ("Downloading " +:+ model +:+ " pre-trained file.");;
    request ← http_get (repository_url +:+ url);
    match content_length request with
    | None => raise TypeError
    | Some _ =>
        open_wb (abspath path);;
        copyfileobj request (abspath path);;
        print (GREEN +:+ "Done." +:+ RESET +:+ " Saved in " +:+ path)
    end
  else ret tt.

Definition download_models_of (urls paths names : list string) : M unit :=
  for_each (fun _ entry => download_model entry) tt (zip3 urls paths names).

Definition download_models : M unit :=
  download_models_of model_urls model_path models.

Definition set_class : M string :=
  items ← classes_json;
  keys ← for_each (fun acc item =>
            el ← visible XDescription;
            t ← text el;
            ret (if bool_decide (t ∈ item.2) then acc ++ [item.1] else acc))
          [] items;
  let c := match keys with k :: _ => k | [] => "" end in
  set_class_field c;;
  ret c.

Definition image_from_url (url : string) : M image :=
  image ← fetch_image url;
  try_except (enhance image) (fun _ => ret image).

(** [self.image_from_url(web.visible(x).get_attribute('src'))] *)
Definition image_of (x : xpath) : M image :=
  el ← visible x;
  src ← get_attribute el "src";
  image_from_url src.

(** The index ranges of the list comprehension of [divide_blocks], for an
    image of shape [(width, height, 3)]: a tile is
    [image[row:row+step_row, column:column+step_column, :]] for [row] in
    [range(0, width, step_column)] and [column] in
    [range(0, height, step_row)].  The inner range is built once per row. *)
Definition tile_boxes (width height blocks : nat) : res (list (nat * nat * nat * nat)) :=
  if blocks =? 0 then Raise ZeroDivisionError
  else
    let step_row := py_ceil_div width blocks in
    let step_column := py_ceil_div height blocks in
    match py_range_step width step_column with
    | Ok [] => Ok []
    | Ok rows =>
        match py_range_step height step_row with
        | Ok columns =>
            Ok (flat_map (fun row =>
                  map (fun column =>
                         (row, row + step_row, column, column + step_column))
                      columns) rows)
        | Raise e => Raise e
        | OutOfFuel => OutOfFuel
        end
    | Raise e => Raise e
    | OutOfFuel => OutOfFuel
    end.

Definition slice_box (im : image) (b : nat * nat * nat * nat) : image :=
  let '(r0, r1, c0, c1) := b in slice im r0 r1 c0 c1.

(** The list comprehension of [divide_blocks] on a decoded image. *)
Definition split_image (im : image) (blocks : nat) : res (list image) :=
  boxes ← tile_boxes (nrows im) (ncols im) blocks;
  Ok (map (slice_box im) boxes).

(** [image.shape[:2]] *)
Definition shape (im : image) : nat * nat := (nrows im, ncols im).

(** The shapes of the tiles of an image. *)
Definition tile_shapes (im : image) (blocks : nat) : res (list (nat * nat)) :=
  tiles ← split_image im blocks;
  Ok (map shape tiles).

(** Whether the pixel at row [r] and column [c] lies in one of the boxes. *)
Definition covered (boxes : list (nat * nat * nat * nat)) (r c : nat) : bool :=
  existsb (fun '(r0, r1, c0, c1) =>
             (r0 <=? r) && (r <? r1) && (c0 <=? c) && (c <? c1)) boxes.

Definition divide_blocks (blocks : nat) : M (list image) :=
  image ← image_of XTile33Image;
  lift (split_image image blocks).

(** [eval(f'self.{self._class.lower()}')]: [OCR] defines no such attribute. *)
Definition specific_model (x : yolo_input) : M (list detection) :=
  raise AttributeError.

(** [for image in image_list]; iterating one array yields its rows. *)
Definition py_iter (x : yolo_input) : list yolo_input :=
  match x with
  | ImageList l => map OneImage l
  | OneImage im =>
      map (fun r => OneImage (slice im r (r + 1) 0 (ncols im))) (seq 0 (nrows im))
  end.

Definition find_object (image_list : yolo_input) (blocks : nat) : M (list found) :=
  c ← get_class;
  if (blocks =? 3) && (0 <? String.length c) then
    if negb (bool_decide (c ∈ specific_classes)) then
      map_m (fun image => rows ← yolo image; ret (Names (map name rows)))
            (py_iter image_list)
    else
      map_m (fun image => rows ← specific_model image; ret (Names (map name rows)))
            (py_iter image_list)
  else if (blocks =? 4) && (0 <? String.length c) then
    if negb (bool_decide (c ∈ specific_classes)) then
      rows ← yolo image_list; ret (map Row rows)
    else
      rows ← specific_model image_list; ret (map Row rows)
  else ret [].

(** [_class in result]: membership in a list of names, or among the keys of
    a row. *)
Definition py_in (_class : string) (result : found) : bool :=
  match result with
  | Names l => bool_decide (_class ∈ l)
  | Row _ => bool_decide (_class ∈ detection_keys)
  end.

Definition check_blocks (result_list : list found) (_class : string) : list bool :=
  map (py_in _class) result_list.

(** *** [object_coordinates]: from boxes to the cells of the grid *)

(** The dictionary literal of [object_coordinates]. *)
Definition index_table : gmap (Z * Z) Z :=
  list_to_map
    [((1, 1), 1); ((1, 2), 2); ((1, 3), 3); ((1, 4), 4);
     ((2, 1), 5); ((2, 2), 6); ((2, 3), 7); ((2, 4), 8);
     ((3, 1), 9); ((3, 2), 10); ((3, 3), 11); ((3, 4), 12);
     ((4, 1), 13); ((4, 2), 14); ((4, 3), 15); ((4, 4), 16)]%Z.

(** [v if v != 0 else 1] *)
Definition or_one (v : Z) : Z := if (v =? 0)%Z then 1%Z else v.

(** [table[(y if y != 0 else 1, x if x != 0 else 1)]] for a pair [(x, y)]. *)
Definition table_index (cell : Z * Z) : res Z :=
  match index_table !! (or_one cell.2, or_one cell.1) with
  | Some i => Ok i
  | None => Raise KeyError
  end.

Definition box : Type := Q * Q * Q * Q.

(** [[xmin + 25, ymin + 25, xmax - 25, ymax - 25]], in exact rationals
    where the source has doubles: rounding is monotone, so bounds carry over
    to the source; which side of an integer a scaled coordinate falls on
    does not when it lies within rounding distance of it. *)
Definition inner_box (d : detection) : box :=
  (xmin d + 25, ymin d + 25, xmax d - 25, ymax d - 25)%Q.

(** [[... for result in results if result['name'] == self._class]];
    subscripting a list of names with ['name'] is a [TypeError]. *)
Fixpoint target_boxes (c : string) (results : list found) : res (list box) :=
  match results with
  | [] => Ok []
  | Names _ :: _ => Raise TypeError
  | Row d :: rest =>
      bs ← target_boxes c rest;
      Ok (if bool_decide (name d = c) then inner_box d :: bs else bs)
  end.

(** [ceil(coordinate / image.shape[0] * chunk_number)] *)
Definition scale (height : nat) (chunk_number : Z) (coordinate : Q) : res Z :=
  if height =? 0 then Raise ZeroDivisionError
  else Ok (Qceiling (coordinate / inject_Z (Z.of_nat height) * inject_Z chunk_number)).

(** The pairs one box adds to [_result]. *)
Definition box_cells (height : nat) (chunk_number : Z) (b : box) : res (list (Z * Z)) :=
  let '(x0, y0, x1, y1) := b in
  c0 ← scale height chunk_number x0;
  c1 ← scale height chunk_number y0;
  c2 ← scale height chunk_number x1;
  c3 ← scale height chunk_number y1;
  Ok (py_product (py_range c0 (c2 + 1)) (py_range c1 (c3 + 1))).

Fixpoint collect_cells (height : nat) (chunk_number : Z) (boxes : list box)
    (_result : list (Z * Z)) : res (list (Z * Z)) :=
  match boxes with
  | [] => Ok _result
  | b :: rest =>
      cells ← box_cells height chunk_number b;
      collect_cells height chunk_number rest (_result ++ cells)
  end.

(** The returned comprehension; the inner list is built once per [number],
    over [set(_result)] (its order does not matter to the membership test). *)
Definition grid_answer (chunk_number : Z) (_result : list (Z * Z)) : res (list bool) :=
  res_map_m
    (fun number =>
       indices ← res_map_m table_index (remove_dups _result);
       Ok (bool_decide ((Z.of_nat number + 1)%Z ∈ indices)))
    (seq 0 (Z.to_nat (chunk_number ^ 2))).

Definition cells_to_click (height : nat) (chunk_number : Z) (c : string)
    (results : list found) : res (list bool) :=
  boxes ← target_boxes c results;
  _result ← collect_cells height chunk_number boxes [];
  grid_answer chunk_number _result.

Definition object_coordinates (chunk_number : Z) : M (list bool) :=
  image ← image_of XTileImage;
  results ← find_object (OneImage image) 4;
  c ← get_class;
  lift (cells_to_click (nrows image) chunk_number c results).

(** The inner box of [d] lies in the square whose side is the image
    height: what holds for a box inside a square image. *)
Definition inner_box_within (height : nat) (d : detection) : Prop :=
  (0 <= xmin d + 25 /\ 0 <= ymin d + 25 /\
   xmax d - 25 <= inject_Z (Z.of_nat height) /\
   ymax d - 25 <= inject_Z (Z.of_nat height))%Q.

(** ** class Actions *)

Definition sleep : M unit := call [EvSleep] o_wait.

(** The body of the [try] of [human_click].  Its first statement assigns
    three targets from [(pair) if self.start is None else (pair), end]: the
    conditional binds tighter than the comma, so the right-hand side is the
    two-element tuple [(pair, end)] and the unpacking raises [ValueError]
    once the right-hand side is evaluated. *)
Definition unpack3 (rhs : (Z * Z) * xpath) : M (Z * Z * xpath) := raise ValueError.

Definition human_click_move (end_ : xpath) (target : nat) : M unit :=
  st ← get_start;
  pair ← match st with
         | None => x ← randint 30 60; y ← randint 30 60; ret (x, y)
         | Some e => x ← location e; y ← location e; ret (x, y)
         end;
  '(start_x, start_y, start') ← unpack3 (pair, end_);
  set_start (Some start');;
  ex ← location end_;
  ey ← location end_;
  points ← call [] (o_human_curve (start_x, start_y) (ex, ey) target);
  match last points with
  | None => raise UnboundLocalError    (* no point: [action] is not bound *)
  | Some (curve_x, curve_y) =>
      let '(prev_x, prev_y) := List.last (removelast points) (start_x, start_y) in
      call [] (o_move_perform ((curve_x - prev_x)%Z, (curve_y - prev_y)%Z))
  end.

Definition human_click_target (end_ : xpath) (target : nat) : M unit :=
  try_except (human_click_move end_ target) (fun _ => ret tt);;
  sleep;;
  click end_.

Definition human_click (end_ : xpath) : M unit := human_click_target end_ 25.

Definition reload : M unit :=
  sleep;;
  t ← token;
  button ← visible XReloadButton;
  human_click button;;
  until_token_differs t.

Definition confirm : M unit :=
  sleep;;
  button ← visible XVerifyButton;
  human_click button.

(** ** class Solver *)

Definition open_challenge : M unit :=
  frame ← visible XCheckboxFrame;
  switch_frame frame;;
  anchor ← visible XAnchor;
  human_click anchor;;
  switch_default;;
  challenge ← visible XChallengeFrame;
  switch_frame challenge.

Definition challenge_opened : M bool :=
  switch_default;;
  bubble ← visible XBubbleParent;
  style ← get_attribute bubble "style";
  if py_contains "visible" style then
    challenge ← visible XChallengeFrame;
    switch_frame challenge;;
    ret true
  else ret false.

(** The [for child in ...] loop of [check_error], with its [break]. *)
Fixpoint check_children (children : list nat) : M unit :=
  match children with
  | [] => ret tt
  | i :: rest =>
      style ← get_attribute (XErrorChild i) "style";
      if negb (py_contains "none" style) then reload
      else check_children rest
  end.

Definition check_error : M unit :=
  area ← visible XErrorArea;
  n ← find_elements area;
  check_children (seq 0 n).

(** [int(class_attribute.split('-')[3][0])] *)
Definition grid_size (cls : string) : res nat :=
  part ← py_index (py_split "-" cls) 3;
  match part with
  | EmptyString => Raise IndexError
  | String ch _ =>
      match py_digit ch with
      | Some n => Ok n
      | None => Raise ValueError
      end
  end.

(** The first [for] loop of [select_blocks]; [clicked] holds the positions
    of the clicked tiles. *)
Definition click_selected (result : list bool) (_range : list nat) : M (list nat) :=
  for_each (fun clicked block =>
              hit ← lift (py_index result block);
              if hit : bool then
                element_ ← visible (XTile (block + 1));
                human_click element_;;
                ret (clicked ++ [block + 1])
              else ret clicked)
           [] _range.

(** One pass of the inner [for] of the [while] loop: the tile at position
    [p] is popped; [clicked] are the tiles appended so far. *)
Definition recheck (clicked : list nat) (p : nat) : M (list nat) :=
  _class ← set_class;
  visible (XTileSettled p);;
  img ← visible (XTileInner p);
  cls ← get_attribute img "class";
  if negb (py_contains "11" cls) then ret clicked
  else
    image ← image_of (XTileInner p);
    results ← find_object (ImageList [image]) 3;
    hit ← lift (py_index (check_blocks results _class) 0);
    if hit : bool then
      el ← visible (XTile p);
      human_click el;;
      ret (clicked ++ [p])
    else ret clicked.

Definition get_blocks : M nat := fun s => (Ok (solver_blocks s), s).

(** [while len(clicked) > 0 and self.blocks == 3] *)
Fixpoint recheck_loop (fuel : nat) (clicked : list nat) : M unit :=
  blocks ← get_blocks;
  if (0 <? length clicked) && (blocks =? 3) then
    match fuel with
    | 0 => out_of_fuel
    | S fuel' =>
        clicked' ← for_each recheck [] clicked;
        recheck_loop fuel' clicked'
    end
  else ret tt.

(** The selection [result] of [select_blocks]. *)
Definition selection (blocks : nat) (_class : string) : M (list bool) :=
  if blocks =? 3 then
    tiles ← divide_blocks 3;
    results ← find_object (ImageList tiles) 3;
    ret (check_blocks results _class)
  else object_coordinates 4.

Definition select_blocks (fuel : nat) : M bool :=
  table ← visible XTable;
  cls ← get_attribute table "class";
  blocks ← lift (grid_size cls);
  set_blocks blocks;;
  _class ← set_class;
  result ← selection blocks _class;
  _range ← shuffle (seq 0 (blocks ^ 2));
  clicked ← click_selected result _range;
  if length clicked =? 0 then ret false
  else recheck_loop fuel clicked;; ret true.

(** The [try] body of the loop of [solve]; [true] is its [break]. *)
Definition solve_body (fuel : nat) : M bool :=
  opened ← challenge_opened;
  if negb opened then ret true
  else
    set_start None;;
    sleep;;
    select_blocks fuel;;
    c ← get_class;
    (if negb (bool_decide (c = "")) then confirm;; check_error else reload);;
    ret false.

(** How one pass through [while True] ends. *)
Inductive loop_ctl : Type :=
| Continue (failed : nat)   (* next iteration, with the counter *)
| Return (b : bool)         (* solve returns b *).

(** One pass through the [while True] of [solve], handler included. *)
Definition solve_step (fuel : nat) (failed : nat) : M loop_ctl :=
  try_except
    (stop ← solve_body fuel;
     ret (if stop : bool then Return true else Continue failed))
    (fun _ =>
       if failed <? 2 then
         try_except
           (opened ← challenge_opened;
            ret (if opened : bool then Continue (failed + 1) else Return true))
           (fun _ => ret (Return true))
       else ret (Return false)).

Fixpoint solve_loop (fuel : nat) (failed : nat) : M bool :=
  match fuel with
  | 0 => out_of_fuel
  | S fuel' =>
      ctl ← solve_step fuel' failed;
      match ctl with
      | Continue failed' => solve_loop fuel' failed'
      | Return b => ret b
      end
  end.

(** [solve(web)]: [get_webdriver(web)] binds the driver, which is the
    environment here. *)
Definition solve (fuel : nat) : M bool :=
  open_challenge;;
  solve_loop fuel 0.

(** *** Observers of a run of the loop *)

(** Whether the [try] body raises from [s]. *)
Definition body_raises (fuel : nat) (s : pystate) : bool :=
  match solve_body fuel s with
  | (Raise _, _) => true
  | _ => false
  end.

(** The retried exceptions in the run of [solve_loop fuel failed] from [s]:
    the passes whose body raised and whose handler continued the loop. *)
Fixpoint retries (fuel failed : nat) (s : pystate) : nat :=
  match fuel with
  | 0 => 0
  | S fuel' =>
      match solve_step fuel' failed s with
      | (Ok (Continue failed'), s') =>
          (if body_raises fuel' s then 1 else 0) + retries fuel' failed' s'
      | _ => 0
      end
  end.

(** The value of [failed] when that run stops (or the budget ends). *)
Fixpoint final_counter (fuel failed : nat) (s : pystate) : nat :=
  match fuel with
  | 0 => failed
  | S fuel' =>
      match solve_step fuel' failed s with
      | (Ok (Continue failed'), s') => final_counter fuel' failed' s'
      | _ => failed
      end
  end.

(** What a piece of [download_models] working through [entries] may do
    from [s]: it only adds to the log; it changes no file that exists in
    [s]; each request is for an entry whose path [s] lacks; each file it
    opens is one [s] lacks. *)
Definition cache_safe (entries : list (string * string * string))
    (s s' : pystate) : Prop :=
  exists evs,
    trace s' = trace s ++ evs /\
    (forall path, is_Some (files s !! path) -> files s' !! path = files s !! path) /\
    (forall u, EvGet u ∈ evs ->
       exists url path model,
         (url, path, model) ∈ entries /\
         u = repository_url +:+ url /\ files s !! abspath path = None) /\
    (forall path, EvOpen path ∈ evs -> files s !! path = None).

(** The events logged since the log was [t0] are in order and lead to
    phase [p]. *)
Definition at_phase (t0 : list event) (p : phase) (s : pystate) : Prop :=
  exists evs, trace s = t0 ++ evs /\ order_run Start evs = Some p.

(** Run from a phase in [P], the computation keeps the events in order,
    and a value [a] it returns comes with a phase in [Q a]. *)
Definition ordered {A} (t0 : list event) (P : phase -> Prop) (m : M A)
    (Q : A -> phase -> Prop) : Prop :=
  forall s p, at_phase t0 p s -> P p ->
    exists q, at_phase t0 q (m s).2 /\ forall a, (m s).1 = Ok a -> Q a q.

(** A computation that logs exactly [evs], whatever its outcome. *)
Definition emits {A} (evs : list event) (m : M A) : Prop :=
  forall s, trace (m s).2 = trace s ++ evs.

(** A computation that needs no loop budget. *)
Definition total {A} (m : M A) : Prop := forall s, (m s).1 <> OutOfFuel.

(** *** Further observers, for the properties of the rest of the module *)

(** Whether the character occurs in the string. *)
Fixpoint has_char (c : ascii) (s : string) : bool :=
  match s with
  | EmptyString => false
  | String c' s' => Ascii.eqb c' c || has_char c s'
  end.

(** The filter of the comprehension of [set_class], one item at a time. *)
Definition class_filter (acc : list string) (item : string * list string)
    : M (list string) :=
  el ← visible XDescription;
  t ← text el;
  ret (if bool_decide (t ∈ item.2) then acc ++ [item.1] else acc).

(** The tiles the first loop of [select_blocks] clicks: the positions of the
    cells of the shuffled range whose entry in [result] is [True]. *)
Definition selected_tiles (result : list bool) (_range : list nat) : list nat :=
  map (fun block => block + 1)
      (filter (fun block => result !! block = Some true) _range).

(** What [human_click] logs for each of these tiles when it returns. *)
Definition click_events (clicked : list nat) : list event :=
  flat_map (fun p => [EvSleep; EvClick (XTile p)]) clicked.

(** The model calls of the selection: one per entry on a 3x3 grid, else one,
    and none when the class is empty. *)
Definition model_calls (blocks : nat) (_class : string) (result : list bool) : nat :=
  if blocks =? 3 then length result
  else if bool_decide (_class = "") then 0 else 1.

(** What [reload] logs when it returns, and what [confirm] followed by the
    listing of the error area logs. *)
Definition reload_events : list event :=
  [EvSleep; EvSleep; EvClick XReloadButton].
Definition verify_events : list event :=
  [EvSleep; EvSleep; EvClick XVerifyButton; EvFindElements XErrorArea].

(** How a completed iteration polls the challenge, by the class read after
    [select_blocks]: the verify button and the error check, with a reload
    when an error is displayed, or the reload alone. *)
Definition poll_events (c : string) (poll : list event) : Prop :=
  (c <> "" /\ (poll = verify_events \/ poll = verify_events ++ reload_events)) \/
  (c = "" /\ poll = reload_events).

(** The log of an iteration that completes without leaving the loop: the
    wait, the fetch of the challenge image and its enhancement, the model
    calls, the clicks of the first loop, the re-examination, the poll. *)
Definition iteration_events (blocks : nat) (_class : string) (result : list bool)
    (_range : list nat) (url : string) (rest poll : list event) : list event :=
  [EvSleep] ++ [EvGet url; EvEnhance]
  ++ replicate (model_calls blocks _class result) EvYolo
  ++ click_events (selected_tiles result _range) ++ rest ++ poll.

(** The computation leaves a field of the state as it found it. *)
Definition keeps {A B} (field : pystate -> B) (m : M A) : Prop :=
  forall s, field (m s).2 = field s.

(** A field that neither the driver nor the log holds. *)
Definition framed {B} (field : pystate -> B) : Prop :=
  forall w evs s, field (with_world w (log evs s)) = field s.

(** The pairs one list [coordinate] of four scaled integers adds to
    [_result]:
    [product(range(coordinate[0], coordinate[2] + 1),
             range(coordinate[1], coordinate[3] + 1))]. *)
Definition coordinate_cells (coordinate : Z * Z * Z * Z) : list (Z * Z) :=
  let '(c0, c1, c2, c3) := coordinate in
  py_product (py_range c0 (c2 + 1)) (py_range c1 (c3 + 1)).

(** The clicks on an element in a log. *)
Definition clicks_on (x : xpath) (evs : list event) : nat :=
  length (filter (fun ev => ev = EvClick x) evs).

(** At most [v] clicks on the verify button and [r] on the reload button. *)
Definition polls (v r : nat) (evs : list event) : Prop :=
  clicks_on XVerifyButton evs <= v /\ clicks_on XReloadButton evs <= r.

(** Every event of the log passes the test. *)
Definition only (ok : event -> bool) (evs : list event) : Prop :=
  forallb ok evs = true.

(** What finding the objects does besides reading the page: image
    downloads and calls of the two networks. *)
Definition detect_event (ev : event) : bool :=
  match ev with
  | EvGet _ | EvEnhance | EvYolo => true
  | _ => false
  end.

(** What choosing the tiles does besides reading the page: waits, clicks
    on tiles, image downloads, and calls of the two networks. *)
Definition select_event (ev : event) : bool :=
  match ev with
  | EvSleep | EvGet _ | EvEnhance | EvYolo => true
  | EvClick (XTile _) => true
  | _ => false
  end.

(** What solving a challenge does besides reading the page: the above,
    clicks on the checkbox, on the verify and on the reload button, and the
    listing of the error area. *)
Definition solver_event (ev : event) : bool :=
  match ev with
  | EvSleep | EvGet _ | EvEnhance | EvYolo => true
  | EvClick (XTile _) | EvClick XAnchor
  | EvClick XVerifyButton | EvClick XReloadButton => true
  | EvFindElements XErrorArea => true
  | _ => false
  end.

(** Anything but a click on the verify or on the reload button. *)
Definition no_poll_click (ev : event) : bool :=
  match ev with
  | EvClick XVerifyButton | EvClick XReloadButton => false
  | _ => true
  end.

(** From any state, and whatever its outcome, the computation leaves the
    files on disk as they are and adds to the log a list of events in [P]. *)
Definition browses {A} (P : list event -> Prop) (m : M A) : Prop :=
  forall s,
    files (m s).2 = files s /\
    exists evs, trace (m s).2 = trace s ++ evs /\ P evs.

End Model.

(** ** A scripted browser session

    A concrete environment to run the model on: the world counts the clicks
    made so far, and the page answers from a fixed description. *)

Record page : Type := Page {
  pg_table_class : option string;        (* class of the challenge table *)
  pg_label : string;                     (* text of the instruction *)
  pg_classes : list (string * list string);  (* assets/classes.json *)
  pg_image : image;                      (* what every image URL decodes to *)
  pg_enhanced : option image;            (* the upsampler's output, if any *)
  pg_rows : list detection;              (* the model's result table *)
  pg_clicks_to_solve : nat;              (* the bubble hides after that many *)
  pg_weights : response                  (* the weight download *)
}.

Definition page_attribute (p : page) (x : xpath) (a : string) (w : nat) : exn + string :=
  match x with
  | XTable =>
      match pg_table_class p with
      | Some c => inr c
      | None => inl (LibraryError 1)
      end
  | XBubbleParent =>
      inr (if w <? pg_clicks_to_solve p then "visibility: visible;"
           else "visibility: hidden;")
  | XTileInner _ =>
      inr (if bool_decide (a = "class") then "rc-image-tile-33" else "https://tile")
  | XErrorChild _ => inr "display: none;"
  | _ => inr "https://payload"
  end.

#[global] Instance page_env (p : page) : Env nat := {|
  o_visible := fun _ w => (inr tt, w);
  o_get_attribute := fun x a w => (page_attribute p x a w, w);
  o_text := fun _ w => (inr (pg_label p), w);
  o_location := fun _ w => (inr 0%Z, w);
  o_click := fun _ w => (inr tt, S w);
  o_find_elements := fun _ w => (inr 2, w);
  o_token := fun w => (inr "token", w);
  o_until_token_differs := fun _ w => (inr tt, w);
  o_switch_default := fun w => (inr tt, w);
  o_switch_frame := fun _ w => (inr tt, w);
  o_wait := fun w => (inr tt, w);
  o_human_curve := fun a b _ w => (inr [a; b], w);
  o_move_perform := fun _ w => (inr tt, w);
  o_randint := fun a _ w => (a, w);
  o_shuffle := fun l w => (rev l, w);
  o_fetch_image := fun _ w => (inr (pg_image p), w);
  o_enhance := fun _ w =>
    (match pg_enhanced p with Some im => inr im | None => inl (LibraryError 2) end, w);
  o_yolo := fun _ w => (inr (pg_rows p), w);
  o_classes_json := fun w => (inr (pg_classes p), w);
  o_http_get := fun _ w => (inr (pg_weights p), w);
  o_open_wb := fun _ w => (inr tt, w);
  abspath := fun path => path;
  GREEN := "<green>";
  RESET := "<reset>"
|}.

Definition blank (rows columns : nat) : image :=
  {| nrows := rows; ncols := columns; px := fun _ _ => (0, 0, 0)%Z |}.

Definition coco_classes : list (string * list string) :=
  [("car", ["cars"; "a car"]); ("bus", ["buses"; "a bus"]);
   ("traffic light", ["traffic lights"])].

Definition no_weights : response :=
  {| content_length := Some 4%Z; raw := [Byte.x00; Byte.x01; Byte.x02; Byte.x03];
     raw_error := None |}.

(** The state of a fresh process: no field of the objects assigned yet. *)
Definition fresh (disk : gmap string (list Byte.byte)) : @pystate nat :=
  {| world := 0; files := disk; trace := []; ocr_class := "";
     actions_start := None; solver_blocks := 0 |}.

(** A 4x4 challenge with one car in the upper left quarter of a 400x400
    image; the challenge closes after five clicks. *)
Definition page_cars_4x4 : page :=
  {| pg_table_class := Some "rc-imageselect-table-44";
     pg_label := "cars";
     pg_classes := coco_classes;
     pg_image := blank 400 400;
     pg_enhanced := None;
     pg_rows := [Detection 10 20 190 180 "car"; Detection 0 0 400 400 "bus"];
     pg_clicks_to_solve := 5;
     pg_weights := no_weights |}.

(** A 3x3 challenge whose instruction names a class that classes.json does
    not list. *)
Definition page_unknown_3x3 : page :=
  {| pg_table_class := Some "rc-imageselect-table-33";
     pg_label := "chimneys";
     pg_classes := coco_classes;
     pg_image := blank 300 300;
     pg_enhanced := None;
     pg_rows := [Detection 10 20 190 180 "car"];
     pg_clicks_to_solve := 5;
     pg_weights := no_weights |}.

(** The same instruction on a 4x4 challenge. *)
Definition page_unknown_4x4 : page :=
  {| pg_table_class := Some "rc-imageselect-table-44";
     pg_label := "chimneys";
     pg_classes := coco_classes;
     pg_image := blank 400 400;
     pg_enhanced := None;
     pg_rows := [Detection 10 20 190 180 "car"];
     pg_clicks_to_solve := 5;
     pg_weights := no_weights |}.

(** A 3x3 challenge where every tile shows a car. *)
Definition page_cars_3x3 : page :=
  {| pg_table_class := Some "rc-imageselect-table-33";
     pg_label := "cars";
     pg_classes := coco_classes;
     pg_image := blank 300 300;
     pg_enhanced := Some (blank 1200 1200);
     pg_rows := [Detection 10 20 90 80 "car"];
     pg_clicks_to_solve := 9;
     pg_weights := no_weights |}.

(** A page whose challenge table cannot be read. *)
Definition page_broken : page :=
  {| pg_table_class := None;
     pg_label := "cars";
     pg_classes := coco_classes;
     pg_image := blank 300 300;
     pg_enhanced := None;
     pg_rows := [];
     pg_clicks_to_solve := 5;
     pg_weights := no_weights |}.

(** A 3x3 challenge on an image twice as high as wide. *)
Definition page_tall_3x3 : page :=
  {| pg_table_class := Some "rc-imageselect-table-33";
     pg_label := "cars";
     pg_classes := coco_classes;
     pg_image := blank 600 300;
     pg_enhanced := None;
     pg_rows := [Detection 10 20 90 80 "car"];
     pg_clicks_to_solve := 9;
     pg_weights := no_weights |}.

(** A 4x4 challenge on an image twice as wide as high, with a car over its
    whole width. *)
Definition page_wide_4x4 : page :=
  {| pg_table_class := Some "rc-imageselect-table-44";
     pg_label := "cars";
     pg_classes := coco_classes;
     pg_image := blank 100 200;
     pg_enhanced := None;
     pg_rows := [Detection 0 0 200 100 "car"];
     pg_clicks_to_solve := 5;
     pg_weights := no_weights |}.

(** A weight download whose stream breaks after two of four bytes. *)
Definition cut_weights : response :=
  {| content_length := Some 4%Z; raw := [Byte.x00; Byte.x01];
     raw_error := Some (LibraryError 3) |}.

Definition page_cut_download : page :=
  {| pg_table_class := Some "rc-imageselect-table-44";
     pg_label := "cars";
     pg_classes := coco_classes;
     pg_image := blank 400 400;
     pg_enhanced := None;
     pg_rows := [];
     pg_clicks_to_solve := 5;
     pg_weights := cut_weights |}.

(** * Properties *)

Ltac unfold_monad :=
  unfold mbind, M_bind, bind, mret, M_ret, ret, raise, lift, try_except in *.

(** Case analysis on membership in a list given by its elements. *)
Ltac elem_cases H :=
  repeat match type of H with
         | _ ∈ _ :: _ => apply elem_of_cons in H as [H|H]
         | _ ∈ [] => by apply elem_of_nil in H
         end.

(** A list given by its elements is included in another such list. *)
Ltac sub_list :=
  let x := fresh "x" in
  let Hx := fresh "Hx" in
  intros x Hx; simpl in Hx; elem_cases Hx; subst x; repeat constructor.

Section Properties.
Context {W : Type} `{!Env W}.

Implicit Types s : @pystate W.

(** ** Basic facts about the monad and the log *)

Lemma bind_ok {A B} (m : M A) (f : A -> M B) s a s1 :
  m s = (Ok a, s1) -> (m ≫= f) s = f a s1.
Proof. intros Hm. unfold_monad. by rewrite Hm. Qed.

Lemma bind_raise {A B} (m : M A) (f : A -> M B) s e s1 :
  m s = (Raise e, s1) -> (m ≫= f) s = (Raise e, s1).
Proof. intros Hm. unfold_monad. by rewrite Hm. Qed.

Lemma bind_out_of_fuel {A B} (m : M A) (f : A -> M B) s s1 :
  m s = (OutOfFuel, s1) -> (m ≫= f) s = (OutOfFuel, s1).
Proof. intros Hm. unfold_monad. by rewrite Hm. Qed.

Lemma bind_inv_ok {A B} (m : M A) (f : A -> M B) s b s' :
  (m ≫= f) s = (Ok b, s') -> exists a s1, m s = (Ok a, s1) /\ f a s1 = (Ok b, s').
Proof.
  unfold_monad. destruct (m s) as [[a|e|] s1]; [|done|done].
  intros Hf. by exists a, s1.
Qed.

Lemma call_trace {A} evs (o : W -> (exn + A) * W) s :
  trace (call evs o s).2 = trace s ++ evs.
Proof. unfold call. by destruct (o (world s)) as [[e|a] w]. Qed.

Lemma call_never_out_of_fuel {A} evs (o : W -> (exn + A) * W) s :
  (call evs o s).1 <> OutOfFuel.
Proof. unfold call. by destruct (o (world s)) as [[e|a] w]. Qed.

(** ** [check_blocks] *)

(** C7. For every list of per-tile result lists and every class name,
    [check_blocks] returns one boolean per result list, the i-th being
    [True] exactly when the class name is a member of the i-th list.  The
    function is pure: it takes no state and builds a new list. *)
Theorem check_blocks_membership (result_list : list (list string)) (_class : string) :
  length (check_blocks (map Names result_list) _class) = length result_list /\
  forall i result,
    result_list !! i = Some result ->
    exists b, check_blocks (map Names result_list) _class !! i = Some b /\
              (b = true <-> _class ∈ result).
Proof.
  unfold check_blocks. split.
  - by rewrite !length_map.
  - intros i result Hi.
    exists (bool_decide (_class ∈ result)). split.
    + rewrite !list_lookup_fmap, Hi. reflexivity.
    + apply bool_decide_eq_true.
Qed.

(** ** [divide_blocks] on a square image whose side the grid divides *)

Lemma py_ceil_div_exact a b : 0 < b -> py_ceil_div (a * b) b = a.
Proof.
  intros Hb. unfold py_ceil_div. symmetry.
  apply (Nat.div_unique _ _ _ (b - 1)); lia.
Qed.

Lemma range_from_seq n start step :
  range_from n start step = map (fun i => start + i * step) (seq 0 n).
Proof.
  revert start. induction n as [|n IH]; intros start; simpl; [done|].
  f_equal; [lia|]. rewrite IH, <- seq_shift, map_map.
  apply map_ext. intros i. lia.
Qed.

Lemma tile_boxes_square blocks k :
  0 < blocks -> 0 < k ->
  tile_boxes (blocks * k) (blocks * k) blocks
  = Ok (flat_map (fun i =>
                    map (fun j => (i * k, i * k + k, j * k, j * k + k))
                        (seq 0 blocks))
                 (seq 0 blocks)).
Proof.
  intros Hb Hk. unfold tile_boxes, py_range_step.
  destruct (Nat.eqb_spec blocks 0) as [->|_]; [lia|].
  rewrite (Nat.mul_comm blocks k), (py_ceil_div_exact k blocks Hb).
  destruct (Nat.eqb_spec k 0) as [->|_]; [lia|].
  rewrite (Nat.mul_comm k blocks), (py_ceil_div_exact blocks k Hk).
  rewrite range_from_seq.
  destruct (map (fun i => 0 + i * k) (seq 0 blocks)) as [|row rows] eqn:Hrows.
  { apply map_eq_nil in Hrows. apply (f_equal length) in Hrows.
    rewrite length_seq in Hrows. simpl in Hrows. lia. }
  rewrite <- Hrows. f_equal.
  rewrite flat_map_concat_map, map_map, <- flat_map_concat_map.
  apply flat_map_ext. intros i.
  rewrite map_map. apply map_ext. intros j. simpl. reflexivity.
Qed.

(** On a square image of side [blocks * k], [divide_blocks] cuts exactly
    [blocks] squared tiles, each of shape [(k, k)], and every pixel lies in
    one of them. *)
Lemma split_image_square (im : image) blocks k :
  0 < blocks -> 0 < k ->
  nrows im = blocks * k -> ncols im = blocks * k ->
  exists boxes tiles,
    tile_boxes (nrows im) (ncols im) blocks = Ok boxes /\
    split_image im blocks = Ok tiles /\
    length tiles = blocks ^ 2 /\
    (forall tile, tile ∈ tiles -> shape tile = (k, k)) /\
    (forall r c, r < nrows im -> c < ncols im -> covered boxes r c = true).
Proof.
  intros Hb Hk Hrows Hcols.
  pose proof (tile_boxes_square blocks k Hb Hk) as Hboxes.
  eexists _, _. unfold split_image. rewrite Hrows, Hcols, Hboxes.
  split; [reflexivity|]. split; [reflexivity|]. split; [|split].
  - rewrite length_map, flat_map_concat_map, length_concat, map_map.
    erewrite map_ext; [|intros i; by rewrite length_map, length_seq].
    assert (Hsum : forall n c start,
               list_sum (map (fun _ : nat => c) (seq start n)) = n * c).
    { clear. induction n as [|n IH]; intros c start; simpl; [done|].
      by rewrite IH. }
    rewrite Hsum. simpl. lia.
  - intros tile Htile. apply list_elem_of_In, in_map_iff in Htile
      as ([[[r0 r1] c0] c1] & <- & Hbox).
    apply in_flat_map in Hbox as (i & Hi%in_seq & Hbox).
    apply in_map_iff in Hbox as (j & [= <- <- <- <-] & Hj%in_seq).
    unfold shape, slice_box, slice. simpl. rewrite Hrows, Hcols.
    f_equal; nia.
  - intros r c Hr Hc. unfold covered. apply existsb_exists.
    exists (r / k * k, r / k * k + k, c / k * k, c / k * k + k).
    assert (r / k < blocks) by (apply Nat.Div0.div_lt_upper_bound; lia).
    assert (c / k < blocks) by (apply Nat.Div0.div_lt_upper_bound; lia).
    pose proof (Nat.div_mod_eq r k). pose proof (Nat.div_mod_eq c k).
    pose proof (Nat.mod_upper_bound r k). pose proof (Nat.mod_upper_bound c k).
    split.
    + apply in_flat_map. exists (r / k). split; [apply in_seq; lia|].
      apply in_map_iff. exists (c / k). split; [done|apply in_seq; lia].
    + repeat (apply andb_true_intro; split);
        first [apply Nat.leb_le | apply Nat.ltb_lt]; lia.
Qed.

(** ** [image_from_url] *)

(** C5. [image_from_url] returns the enhanced image when the upsampler
    succeeds and the decoded, unenhanced image when the upsampler raises,
    whatever the exception; an exception of the download-and-decode step is
    not caught and is the outcome of the function. *)
Theorem image_from_url_fallback (url : string) s :
  match fetch_image url s with
  | (Ok image, s1) =>
      match enhance image s1 with
      | (Ok enhanced, s2) => image_from_url url s = (Ok enhanced, s2)
      | (Raise _, s2) => image_from_url url s = (Ok image, s2)
      | (OutOfFuel, _) => False
      end
  | (Raise e, s1) => image_from_url url s = (Raise e, s1)
  | (OutOfFuel, _) => False
  end.
Proof.
  unfold image_from_url.
  destruct (fetch_image url s) as [[image|e|] s1] eqn:Hfetch.
  - destruct (enhance image s1) as [[enhanced|e|] s2] eqn:Henh.
    + rewrite (bind_ok _ _ _ _ _ Hfetch). unfold try_except. by rewrite Henh.
    + rewrite (bind_ok _ _ _ _ _ Hfetch). unfold try_except. by rewrite Henh.
    + pose proof (call_never_out_of_fuel [EvEnhance] (o_enhance image) s1) as Hno.
      unfold enhance in Henh. by rewrite Henh in Hno.
  - by apply bind_raise.
  - pose proof (call_never_out_of_fuel [EvGet url] (o_fetch_image url) s) as Hno.
    unfold fetch_image in Hfetch. by rewrite Hfetch in Hno.
Qed.

(** ** [human_click] *)

Lemma draw_spec {A} (o : W -> A * W) s :
  exists a s1, draw o s = (Ok a, s1) /\ trace s1 = trace s.
Proof. unfold draw. destruct (o (world s)) as [a w]. by eexists _, _. Qed.

Lemma call_silent {A} (o : W -> (exn + A) * W) s :
  (exists a s1, call [] o s = (Ok a, s1) /\ trace s1 = trace s) \/
  (exists e s1, call [] o s = (Raise e, s1) /\ trace s1 = trace s).
Proof.
  pose proof (call_trace [] o s) as Ht. rewrite app_nil_r in Ht.
  unfold call in *. destruct (o (world s)) as [[e|a] w]; [right|left]; by eexists _, _.
Qed.

(** The movement part never completes: it raises, and logs nothing. *)
Lemma human_click_move_raises (end_ : xpath) (target : nat) s :
  exists e s1, human_click_move end_ target s = (Raise e, s1) /\ trace s1 = trace s.
Proof.
  unfold human_click_move, get_start.
  destruct (actions_start s) as [[e0|]|] eqn:Hst.
  - unfold location.
    destruct (call_silent (o_location e0) s) as [(x & s1 & Hx & Ht1)|(e & s1 & Hx & Ht1)].
    + destruct (call_silent (o_location e0) s1) as [(y & s2 & Hy & Ht2)|(e & s2 & Hy & Ht2)].
      * exists ValueError, s2. unfold_monad. rewrite Hst, Hx, Hy. split; [done|congruence].
      * exists e, s2. unfold_monad. rewrite Hst, Hx, Hy. split; [done|congruence].
    + exists e, s1. unfold_monad. rewrite Hst, Hx. done.
  - unfold randint.
    destruct (draw_spec (o_randint 30 60) s) as (x & s1 & Hx & Ht1).
    destruct (draw_spec (o_randint 30 60) s1) as (y & s2 & Hy & Ht2).
    exists ValueError, s2. unfold_monad. rewrite Hst, Hx, Hy. split; [done|congruence].
  - exists AttributeError, s. unfold_monad. by rewrite Hst.
Qed.

(** [try: move  except Exception: pass], then the rest. *)
Lemma try_pass_then {A} (move : M unit) (k : M A) s :
  (move s).1 <> OutOfFuel ->
  (try_except move (fun _ => ret tt);; k) s = k (move s).2.
Proof.
  intros Hfuel. unfold_monad.
  destruct (move s) as [[[]|e|] s1]; simpl in *; done.
Qed.

(** [human_click] is the wait and the click, from the state the movement
    left; the movement logs nothing. *)
Lemma human_click_after_move (end_ : xpath) s :
  human_click end_ s = (sleep;; click end_) (human_click_move end_ 25 s).2 /\
  trace (human_click_move end_ 25 s).2 = trace s.
Proof.
  destruct (human_click_move_raises end_ 25 s) as (e & s1 & Hmove & Ht).
  unfold human_click, human_click_target.
  rewrite try_pass_then; by rewrite Hmove.
Qed.

(** When [human_click] returns, it has logged one wait and one click. *)
Lemma human_click_ok_trace (end_ : xpath) s s' :
  human_click end_ s = (Ok tt, s') ->
  trace s' = trace s ++ [EvSleep; EvClick end_].
Proof.
  destruct (human_click_after_move end_ s) as [-> Ht].
  intros (? & s2 & Hsleep & Hclick)%bind_inv_ok.
  pose proof (call_trace [EvSleep] o_wait (human_click_move end_ 25 s).2) as Hs.
  pose proof (call_trace [EvClick end_] (o_click end_) s2) as Hc.
  fold sleep in Hs. fold (click end_) in Hc.
  rewrite Hsleep in Hs. rewrite Hclick in Hc. simpl in Hs, Hc.
  by rewrite Hc, Hs, Ht, <- app_assoc.
Qed.

(** C8. Whatever the simulated movement does, return or raise, the
    exception does not leave [human_click], which goes on from the state the
    movement left with the wait and then the click on the target.  In the
    source the movement always raises (its first assignment unpacks two
    values into three targets) and logs nothing; when the wait returns, the
    calls of [human_click] are one wait and then one click on the target. *)
Theorem human_click_always_clicks (end_ : xpath) s :
  (forall move : M unit,
      (move s).1 <> OutOfFuel ->
      (try_except move (fun _ => ret tt);; sleep;; click end_) s
      = (sleep;; click end_) (move s).2) /\
  let s1 := (human_click_move end_ 25 s).2 in
  human_click end_ s = (sleep;; click end_) s1 /\
  trace s1 = trace s /\
  match sleep s1 with
  | (Ok _, s2) =>
      human_click end_ s = click end_ s2 /\
      trace (human_click end_ s).2 = trace s ++ [EvSleep; EvClick end_]
  | (Raise e, s2) => human_click end_ s = (Raise e, s2)
  | (OutOfFuel, _) => False
  end.
Proof.
  split; [intros move Hmove; by apply try_pass_then|].
  destruct (human_click_after_move end_ s) as [Hclick Ht].
  set (s1 := (human_click_move end_ 25 s).2) in *. simpl.
  split; [done|]. split; [done|].
  pose proof (call_trace [EvSleep] o_wait s1) as Hsleep.
  pose proof (call_never_out_of_fuel [EvSleep] o_wait s1) as Hfuel.
  fold sleep in Hsleep, Hfuel.
  destruct (sleep s1) as [[[]|e'|] s2] eqn:Hs; simpl in *.
  - rewrite Hclick, (bind_ok _ _ _ _ _ Hs). split; [done|].
    unfold click. rewrite call_trace, Hsleep, Ht, <- app_assoc. done.
  - rewrite Hclick. by apply bind_raise.
  - done.
Qed.

(** ** Computations without loops never run out of budget *)

Lemma total_ret {A} (a : A) : total (@ret W A a).
Proof. by intros s. Qed.

Lemma total_raise {A} (e : exn) : total (@raise W A e).
Proof. by intros s. Qed.

Lemma total_bind {A B} (m : @M W A) (f : A -> @M W B) :
  total m -> (forall a, total (f a)) -> total (m ≫= f).
Proof.
  intros Hm Hf s. specialize (Hm s). unfold_monad.
  destruct (m s) as [[a|e|] s1]; simpl in *; [apply Hf|done|done].
Qed.

Lemma total_call {A} evs (o : W -> (exn + A) * W) : total (call evs o).
Proof. intros s. apply call_never_out_of_fuel. Qed.

Lemma total_draw {A} (o : W -> A * W) : total (draw o).
Proof. intros s. unfold draw. by destruct (o (world s)). Qed.

Lemma total_try {A} (m : @M W A) (h : exn -> @M W A) :
  total m -> (forall e, total (h e)) -> total (try_except m h).
Proof.
  intros Hm Hh s. specialize (Hm s). unfold try_except.
  destruct (m s) as [[a|e|] s1]; simpl in *; [done|apply Hh|done].
Qed.

Lemma total_visible x : total (visible x).
Proof. apply total_bind; [apply total_call|intros; apply total_ret]. Qed.

Lemma total_challenge_opened : total challenge_opened.
Proof.
  unfold challenge_opened.
  apply total_bind; [apply total_call|intros _].
  apply total_bind; [apply total_visible|intros bubble].
  apply total_bind; [apply total_call|intros style].
  destruct (py_contains "visible" style); [|apply total_ret].
  apply total_bind; [apply total_visible|intros challenge].
  apply total_bind; [apply total_call|intros _; apply total_ret].
Qed.

(** ** The loop of [solve] *)

(** The body breaks exactly when its probe finds the challenge closed. *)
Lemma solve_body_break fuel s s' :
  solve_body fuel s = (Ok true, s') <-> challenge_opened s = (Ok false, s').
Proof.
  unfold solve_body. split.
  - intros Hbody.
    apply bind_inv_ok in Hbody as ([] & s1 & Hprobe & Hrest); simpl in Hrest.
    + repeat (apply bind_inv_ok in Hrest as (? & ? & _ & Hrest)). done.
    + injection Hrest as <-. done.
  - intros Hprobe. by rewrite (bind_ok _ _ _ _ _ Hprobe).
Qed.

(** What one pass does, by the outcome of its body. *)
Lemma solve_step_cases fuel failed s :
  match solve_body fuel s with
  | (Ok stop, s1) =>
      solve_step fuel failed s
      = (Ok (if stop then Return true else Continue failed), s1)
  | (Raise _, s1) =>
      if failed <? 2 then
        match challenge_opened s1 with
        | (Ok true, s2) => solve_step fuel failed s = (Ok (Continue (failed + 1)), s2)
        | (Ok false, s2) => solve_step fuel failed s = (Ok (Return true), s2)
        | (Raise _, s2) => solve_step fuel failed s = (Ok (Return true), s2)
        | (OutOfFuel, _) => False
        end
      else solve_step fuel failed s = (Ok (Return false), s1)
  | (OutOfFuel, s1) => solve_step fuel failed s = (OutOfFuel, s1)
  end.
Proof.
  unfold solve_step.
  destruct (solve_body fuel s) as [[stop|e|] s1] eqn:Hbody.
  - unfold_monad. by rewrite Hbody.
  - destruct (failed <? 2) eqn:Hlt.
    + pose proof (total_challenge_opened s1) as Hfuel.
      destruct (challenge_opened s1) as [[[]|e'|] s2] eqn:Hprobe; simpl in Hfuel;
        [| | |done]; unfold_monad; by rewrite Hbody, Hprobe.
    + unfold_monad. by rewrite Hbody.
  - unfold_monad. by rewrite Hbody.
Qed.

(** A pass never lets an exception out, and keeps the counter within 2. *)
Lemma solve_step_no_raise fuel failed s e s' :
  solve_step fuel failed s <> (Raise e, s').
Proof.
  pose proof (solve_step_cases fuel failed s) as Hcases.
  destruct (solve_body fuel s) as [[stop|e0|] s1].
  - by rewrite Hcases.
  - destruct (failed <? 2).
    + destruct (challenge_opened s1) as [[[]|e'|] s2]; [..|done]; by rewrite Hcases.
    + by rewrite Hcases.
  - by rewrite Hcases.
Qed.

Lemma solve_step_continue fuel failed s failed' s' :
  solve_step fuel failed s = (Ok (Continue failed'), s') ->
  failed' = failed + (if body_raises fuel s then 1 else 0) /\
  (failed <= 2 -> failed' <= 2).
Proof.
  pose proof (solve_step_cases fuel failed s) as Hcases.
  unfold body_raises.
  destruct (solve_body fuel s) as [[stop|e0|] s1].
  - rewrite Hcases. destruct stop; intros [= <-]. lia.
  - destruct (failed <? 2) eqn:Hlt.
    + apply Nat.ltb_lt in Hlt.
      destruct (challenge_opened s1) as [[[]|e'|] s2]; [..|done];
        rewrite Hcases; intros [= <-]; lia.
    + by rewrite Hcases.
  - by rewrite Hcases.
Qed.

Lemma final_counter_retries fuel failed s :
  final_counter fuel failed s = failed + retries fuel failed s /\
  (failed <= 2 -> final_counter fuel failed s <= 2).
Proof.
  revert failed s. induction fuel as [|fuel IH]; intros failed s; simpl.
  - lia.
  - destruct (solve_step fuel failed s) as [[[failed'|b]|e|] s'] eqn:Hstep; try lia.
    apply solve_step_continue in Hstep as [-> Hle].
    destruct (IH (failed + (if body_raises fuel s then 1 else 0)) s') as [-> Hbound].
    split; [lia|]. intros Hf. apply Hle in Hf. lia.
Qed.

(** C1. The counter of [solve] starts at 0.  In a pass whose body raises:
    with the counter below 2 the handler probes the challenge and, when it
    is still open, the loop goes on with the counter incremented; with the
    counter at 2 (or more) [solve] returns [False].  A pass without an
    exception leaves the counter as it is.  So in every run the counter is
    the number of retried exceptions, and there are at most two. *)
Theorem solve_retries_at_most_twice :
  (forall fuel, solve fuel = (open_challenge;; solve_loop fuel 0)) /\
  (forall fuel failed s,
      match solve_body fuel s with
      | (Raise _, s1) =>
          if failed <? 2 then
            match challenge_opened s1 with
            | (Ok true, s2) =>
                solve_step fuel failed s = (Ok (Continue (failed + 1)), s2) /\
                solve_loop (S fuel) failed s = solve_loop fuel (failed + 1) s2
            | (Ok false, s2) | (Raise _, s2) =>
                solve_step fuel failed s = (Ok (Return true), s2)
            | (OutOfFuel, _) => False
            end
          else solve_step fuel failed s = (Ok (Return false), s1) /\
               solve_loop (S fuel) failed s = (Ok false, s1)
      | (Ok stop, s1) =>
          solve_step fuel failed s
          = (Ok (if stop then Return true else Continue failed), s1)
      | (OutOfFuel, s1) => solve_step fuel failed s = (OutOfFuel, s1)
      end) /\
  (forall fuel s,
      final_counter fuel 0 s = retries fuel 0 s /\ retries fuel 0 s <= 2).
Proof.
  split; [done|]. split.
  - intros fuel failed s.
    pose proof (solve_step_cases fuel failed s) as Hcases.
    destruct (solve_body fuel s) as [[stop|e0|] s1]; [done| |done].
    destruct (failed <? 2).
    + destruct (challenge_opened s1) as [[[]|e'|] s2]; try done.
      split; [done|]. simpl. by rewrite (bind_ok _ _ _ _ _ Hcases).
    + split; [done|]. simpl. by rewrite (bind_ok _ _ _ _ _ Hcases).
  - intros fuel s.
    destruct (final_counter_retries fuel 0 s) as [Heq Hle].
    rewrite Heq in *. split; [done|]. specialize (Hle ltac:(lia)). lia.
Qed.

(** How a pass that makes [solve] return got there. *)
Lemma solve_step_return fuel failed s b s' :
  solve_step fuel failed s = (Ok (Return b), s') ->
  (b = true ->
     challenge_opened s = (Ok false, s') \/
     exists e s1, solve_body fuel s = (Raise e, s1) /\ failed < 2 /\
       (challenge_opened s1 = (Ok false, s') \/
        exists e', challenge_opened s1 = (Raise e', s'))) /\
  (b = false -> 2 <= failed /\ exists e, solve_body fuel s = (Raise e, s')).
Proof.
  pose proof (solve_step_cases fuel failed s) as Hcases.
  destruct (solve_body fuel s) as [[stop|e0|] s1] eqn:Hbody.
  - rewrite Hcases. destruct stop; intros [= <- <-]. split; [|done].
    intros _. left. by apply solve_body_break in Hbody.
  - destruct (failed <? 2) eqn:Hlt.
    + apply Nat.ltb_lt in Hlt.
      destruct (challenge_opened s1) as [[[]|e'|] s2] eqn:Hprobe; [..|done];
        rewrite Hcases; intros [= <- <-]; (split; [|done]); intros _; right;
        exists e0, s1; eauto 6.
    + apply Nat.ltb_ge in Hlt. rewrite Hcases. intros [= <- <-].
      split; [done|]. eauto.
  - by rewrite Hcases.
Qed.

Lemma solve_loop_last_pass fuel failed s b s' :
  solve_loop fuel failed s = (Ok b, s') ->
  exists fuel' failed' s0, solve_step fuel' failed' s0 = (Ok (Return b), s').
Proof.
  revert failed s. induction fuel as [|fuel IH]; intros failed s; simpl; [done|].
  intros Hloop. apply bind_inv_ok in Hloop as ([failed'|b'] & s1 & Hstep & Hrest).
  - by apply IH in Hrest.
  - injection Hrest as <- <-. eauto.
Qed.

Lemma solve_loop_no_raise fuel failed s e s' :
  solve_loop fuel failed s <> (Raise e, s').
Proof.
  revert failed s. induction fuel as [|fuel IH]; intros failed s; simpl; [done|].
  unfold_monad.
  destruct (solve_step fuel failed s) as [[[failed'|b]|e0|] s1] eqn:Hstep.
  - apply IH.
  - done.
  - by apply solve_step_no_raise in Hstep.
  - done.
Qed.

Lemma solve_loop_false_exhausted fuel failed s s' :
  failed <= 2 ->
  solve_loop fuel failed s = (Ok false, s') ->
  final_counter fuel failed s = 2.
Proof.
  revert failed s. induction fuel as [|fuel IH]; intros failed s Hle; simpl; [done|].
  intros Hloop. apply bind_inv_ok in Hloop as ([failed'|b'] & s1 & Hstep & Hrest).
  - rewrite Hstep. apply IH; [|done].
    by apply solve_step_continue in Hstep as [_ Hbound]; apply Hbound.
  - injection Hrest as -> <-. rewrite Hstep.
    apply solve_step_return in Hstep as [_ Hfalse].
    destruct Hfalse as [Hge _]; [done|lia].
Qed.

(** ** [download_models] *)

Lemma cache_safe_refl entries s : cache_safe entries s s.
Proof.
  exists []. rewrite app_nil_r. repeat split; try done.
  - intros u Hu. by apply elem_of_nil in Hu.
  - intros path Hp. by apply elem_of_nil in Hp.
Qed.

Lemma cache_safe_trans e1 e2 s s1 s2 :
  cache_safe e1 s s1 -> cache_safe e2 s1 s2 -> cache_safe (e1 ++ e2) s s2.
Proof.
  intros (evs1 & Ht1 & Hf1 & Hg1 & Ho1) (evs2 & Ht2 & Hf2 & Hg2 & Ho2).
  assert (Hnone : forall path, files s1 !! path = None -> files s !! path = None).
  { intros path Hnone. destruct (files s !! path) as [d|] eqn:Hd; [|done].
    rewrite <- Hnone, Hf1; [done|]. by rewrite Hd. }
  exists (evs1 ++ evs2). split; [by rewrite Ht2, Ht1, app_assoc|].
  split; [|split].
  - intros path Hsome. rewrite Hf2, Hf1; [done|done|]. by rewrite Hf1.
  - intros u [Hu|Hu]%elem_of_app.
    + destruct (Hg1 u Hu) as (url & path & model & Hin & -> & Habs).
      exists url, path, model. split; [|done]. apply elem_of_app. by left.
    + destruct (Hg2 u Hu) as (url & path & model & Hin & -> & Habs).
      exists url, path, model. split; [|by auto]. apply elem_of_app. by right.
  - intros path [Hp|Hp]%elem_of_app; [by apply Ho1|by apply Hnone, Ho2].
Qed.

(** One entry: nothing at all when its file exists. *)
Lemma download_model_cached url path model s :
  is_Some (files s !! abspath path) ->
  download_model (url, path, model) s = (Ok tt, s).
Proof.
  intros Hsome. unfold download_model, exists_. unfold_monad.
  by rewrite bool_decide_eq_true_2.
Qed.

Lemma download_model_safe url path model s :
  cache_safe [(url, path, model)] s (download_model (url, path, model) s).2.
Proof.
  destruct (files s !! abspath path) as [d|] eqn:Hd.
  { rewrite download_model_cached; [apply cache_safe_refl|by rewrite Hd]. }
  assert (Hother : forall p, is_Some (files s !! p) -> abspath path <> p).
  { intros p Hsome <-. rewrite Hd in Hsome. by destruct Hsome. }
  assert (Hget : forall evs u,
             evs ⊆ [EvPrint ("Downloading " +:+ model +:+ " pre-trained file.");
                    EvGet (repository_url +:+ url); EvOpen (abspath path);
                    EvPrint (GREEN +:+ "Done." +:+ RESET +:+ " Saved in " +:+ path)] ->
             EvGet u ∈ evs ->
             exists url' path' model',
               (url', path', model') ∈ [(url, path, model)] /\
               u = repository_url +:+ url' /\ files s !! abspath path' = None).
  { intros evs u Hsub Hu. exists url, path, model.
    split; [by apply list_elem_of_singleton|]. split; [|done].
    apply Hsub in Hu. elem_cases Hu; try discriminate Hu. by injection Hu as ->. }
  assert (Hopen : forall evs p,
             evs ⊆ [EvPrint ("Downloading " +:+ model +:+ " pre-trained file.");
                    EvGet (repository_url +:+ url); EvOpen (abspath path);
                    EvPrint (GREEN +:+ "Done." +:+ RESET +:+ " Saved in " +:+ path)] ->
             EvOpen p ∈ evs -> files s !! p = None).
  { intros evs p Hsub Hp. apply Hsub in Hp.
    elem_cases Hp; try discriminate Hp. by injection Hp as ->. }
  unfold download_model, exists_, print, http_get, open_wb, copyfileobj,
    put_file, call.
  unfold_monad. rewrite bool_decide_eq_false_2; [|by rewrite Hd; intros [? ?]].
  unfold cache_safe. simpl.
  destruct (o_http_get (repository_url +:+ url) (world s)) as [[e|request] w1]; simpl;
    [|destruct (content_length request) as [n|]; simpl;
      [destruct (o_open_wb (abspath path) w1) as [[e|[]] w2]; simpl;
       [|destruct (raw_error request) as [e|]; simpl]|]];
    (eexists; split; [rewrite <- ?app_assoc; reflexivity|]);
    (split; [intros p Hsome; rewrite ?lookup_insert_ne by auto; done|]);
    (split; [intros u; apply Hget|intros p; apply Hopen]); sub_list.
Qed.

Lemma for_each_cons {A B} (body : B -> A -> M B) acc x l s :
  for_each body acc (x :: l) s = (body acc x ≫= fun acc' => for_each body acc' l) s.
Proof. reflexivity. Qed.

Lemma download_loop_safe entries s :
  cache_safe entries s
    (for_each (fun _ entry => download_model entry) tt entries s).2.
Proof.
  revert s. induction entries as [|[[url path] model] entries IH]; intros s.
  - apply cache_safe_refl.
  - pose proof (download_model_safe url path model s) as Hone.
    rewrite for_each_cons.
    destruct (download_model (url, path, model) s) as [[[]|e|] s1] eqn:Hdl;
      simpl in Hone.
    + rewrite (bind_ok _ _ _ _ _ Hdl).
      apply (cache_safe_trans [_] entries _ _ _ Hone (IH s1)).
    + rewrite (bind_raise _ _ _ _ _ Hdl).
      apply (cache_safe_trans [_] entries _ _ _ Hone (cache_safe_refl _ _)).
    + rewrite (bind_out_of_fuel _ _ _ _ Hdl).
      apply (cache_safe_trans [_] entries _ _ _ Hone (cache_safe_refl _ _)).
Qed.

(** C9. [download_models] changes no file that exists when it starts.  For
    each configured model whose weight file exists, its pass through the
    loop does nothing, and the whole run neither requests its URL nor opens
    its path.  Every request the run makes is for a configured model whose
    file was missing, and every file it opens for writing was missing. *)
Theorem download_models_skips_cached s :
  exists evs,
    trace (download_models s).2 = trace s ++ evs /\
    (forall path, is_Some (files s !! path) ->
       files (download_models s).2 !! path = files s !! path) /\
    (forall url path model,
       (url, path, model) ∈ zip3 model_urls model_path models ->
       is_Some (files s !! abspath path) ->
       download_model (url, path, model) s = (Ok tt, s) /\
       (EvGet (repository_url +:+ url) ∉ evs) /\ (EvOpen (abspath path) ∉ evs)) /\
    (forall u, EvGet u ∈ evs ->
       exists url path model,
         (url, path, model) ∈ zip3 model_urls model_path models /\
         u = repository_url +:+ url /\ files s !! abspath path = None) /\
    (forall path, EvOpen path ∈ evs -> files s !! path = None).
Proof.
  destruct (download_loop_safe (zip3 model_urls model_path models) s)
    as (evs & Htrace & Hframe & Hget & Hopen).
  exists evs. split; [done|]. split; [done|]. split; [|by split].
  intros url path model Hin Hsome.
  split; [by apply download_model_cached|]. split.
  - intros Hreq. destruct (Hget _ Hreq) as (url' & path' & model' & Hin' & Heq & Hnone).
    assert (path' = path) as ->.
    { simpl in Hin, Hin'. elem_cases Hin; elem_cases Hin';
        injection Hin as -> -> ->; injection Hin' as -> -> ->;
        first [reflexivity | by vm_compute in Heq]. }
    rewrite Hnone in Hsome. by destruct Hsome.
  - intros Hreq. apply Hopen in Hreq. rewrite Hreq in Hsome. by destruct Hsome.
Qed.

(** ** [object_coordinates] *)

Lemma elem_of_py_range x start stop :
  x ∈ py_range start stop <-> (start <= x < stop)%Z.
Proof.
  unfold py_range. rewrite list_elem_of_In, in_map_iff. split.
  - intros (i & <- & Hi%in_seq). lia.
  - intros Hx. exists (Z.to_nat (x - start)). split; [lia|]. apply in_seq. lia.
Qed.

Lemma elem_of_py_product {A B} (xs : list A) (ys : list B) a b :
  (a, b) ∈ py_product xs ys <-> a ∈ xs /\ b ∈ ys.
Proof.
  unfold py_product. rewrite list_elem_of_In, in_flat_map. split.
  - intros (x & Hx & Hin%in_map_iff). destruct Hin as (y & [= <- <-] & Hy).
    by rewrite !list_elem_of_In.
  - intros [Ha Hb]. exists a. rewrite <- list_elem_of_In. split; [done|].
    apply in_map_iff. exists b. by rewrite <- list_elem_of_In.
Qed.

Lemma res_map_m_ok {A B} (f : A -> res B) (l : list A) :
  (forall x, x ∈ l -> exists y, f x = Ok y) ->
  exists ys, res_map_m f l = Ok ys /\ length ys = length l.
Proof.
  induction l as [|x l IH]; intros Hall; simpl.
  - by exists [].
  - destruct (Hall x) as [y Hy]; [by left|].
    destruct IH as (ys & Hys & Hlen); [intros x' Hx'; apply Hall; by right|].
    exists (y :: ys). rewrite Hy, Hys. simpl. by rewrite Hlen.
Qed.

(** The table has an entry for every pair of coordinates in 0..4. *)
Lemma table_index_in_grid (x y : Z) :
  (0 <= x <= 4)%Z -> (0 <= y <= 4)%Z ->
  table_index (x, y) = Ok ((or_one y - 1) * 4 + or_one x)%Z.
Proof.
  intros Hx Hy.
  assert (x = 0 \/ x = 1 \/ x = 2 \/ x = 3 \/ x = 4)%Z as Hxs by lia.
  assert (y = 0 \/ y = 1 \/ y = 2 \/ y = 3 \/ y = 4)%Z as Hys by lia.
  destruct Hxs as [->|[->|[->|[->| ->]]]];
    destruct Hys as [->|[->|[->|[->| ->]]]]; reflexivity.
Qed.

Lemma scale_ok height chunk_number coordinate :
  0 < height ->
  scale height chunk_number coordinate
  = Ok (Qceiling (coordinate / inject_Z (Z.of_nat height) * inject_Z chunk_number)).
Proof.
  intros Hh. unfold scale. destruct (Nat.eqb_spec height 0); [lia|done].
Qed.

Lemma scaled_nonneg height chunk_number coordinate :
  0 < height -> (0 <= chunk_number)%Z -> (0 <= coordinate)%Q ->
  (0 <= Qceiling (coordinate / inject_Z (Z.of_nat height) * inject_Z chunk_number))%Z.
Proof.
  intros Hh Hc Hq.
  change 0%Z with (Qceiling 0). apply Qceiling_resp_le.
  apply Qmult_le_0_compat.
  - apply Qmult_le_0_compat; [done|]. apply Qinv_le_0_compat.
    rewrite <- (Zle_Qle 0). lia.
  - rewrite <- (Zle_Qle 0). done.
Qed.

Lemma scaled_at_most_4 height chunk_number coordinate :
  0 < height -> (0 <= chunk_number <= 4)%Z ->
  (coordinate <= inject_Z (Z.of_nat height))%Q ->
  (Qceiling (coordinate / inject_Z (Z.of_nat height) * inject_Z chunk_number) <= 4)%Z.
Proof.
  intros Hh Hc Hq.
  change 4%Z with (Qceiling (inject_Z 4)). apply Qceiling_resp_le.
  apply Qle_trans with (1 * inject_Z chunk_number)%Q.
  - apply Qmult_le_compat_r; [|rewrite <- (Zle_Qle 0); lia].
    apply Qle_shift_div_r; [rewrite <- (Zlt_Qlt 0); lia|].
    by rewrite Qmult_1_l.
  - rewrite Qmult_1_l. rewrite <- Zle_Qle. lia.
Qed.

(** The pairs of a box whose inner box lies in the square are within 0..4. *)
Lemma box_cells_in_grid height chunk_number d :
  0 < height -> (0 <= chunk_number <= 4)%Z -> inner_box_within height d ->
  exists cells,
    box_cells height chunk_number (inner_box d) = Ok cells /\
    forall x y, (x, y) ∈ cells -> (0 <= x <= 4)%Z /\ (0 <= y <= 4)%Z.
Proof.
  intros Hh Hc (Hx0 & Hy0 & Hx1 & Hy1).
  unfold box_cells, inner_box. rewrite !scale_ok by done. simpl.
  eexists. split; [reflexivity|].
  intros x y [Hx Hy]%elem_of_py_product.
  apply elem_of_py_range in Hx, Hy.
  pose proof (scaled_nonneg height chunk_number _ Hh (proj1 Hc) Hx0).
  pose proof (scaled_nonneg height chunk_number _ Hh (proj1 Hc) Hy0).
  pose proof (scaled_at_most_4 height chunk_number _ Hh Hc Hx1).
  pose proof (scaled_at_most_4 height chunk_number _ Hh Hc Hy1).
  lia.
Qed.

Lemma target_boxes_rows c rows :
  exists ds,
    target_boxes c (map Row rows) = Ok (map inner_box ds) /\
    forall d, d ∈ ds -> d ∈ rows /\ name d = c.
Proof.
  induction rows as [|d rows (ds & Hds & Hin)]; simpl.
  - exists []. split; [done|]. intros d Hd. by apply elem_of_nil in Hd.
  - rewrite Hds. simpl. destruct (bool_decide_reflect (name d = c)) as [Heq|Hne].
    + exists (d :: ds). split; [done|].
      intros d' [->|Hd']%elem_of_cons; [split; [by left|done]|].
      destruct (Hin d' Hd'). split; [by right|done].
    + exists ds. split; [done|]. intros d' Hd'.
      destruct (Hin d' Hd'). split; [by right|done].
Qed.

Lemma collect_cells_in_grid height chunk_number ds acc :
  0 < height -> (0 <= chunk_number <= 4)%Z ->
  (forall d, d ∈ ds -> inner_box_within height d) ->
  (forall x y, (x, y) ∈ acc -> (0 <= x <= 4)%Z /\ (0 <= y <= 4)%Z) ->
  exists cells,
    collect_cells height chunk_number (map inner_box ds) acc = Ok cells /\
    forall x y, (x, y) ∈ cells -> (0 <= x <= 4)%Z /\ (0 <= y <= 4)%Z.
Proof.
  intros Hh Hc. revert acc.
  induction ds as [|d ds IH]; intros acc Hds Hacc; cbn [map collect_cells].
  - by exists acc.
  - destruct (box_cells_in_grid height chunk_number d Hh Hc) as (cells & Hcells & Hgrid);
      [apply Hds; by left|].
    rewrite Hcells. cbn [mbind res_bind]. apply IH.
    + intros d' Hd'. apply Hds. by right.
    + intros x y [Hxy|Hxy]%elem_of_app; [by apply Hacc|by apply Hgrid].
Qed.

Lemma grid_answer_ok chunk_number cells :
  (forall x y, (x, y) ∈ cells -> (0 <= x <= 4)%Z /\ (0 <= y <= 4)%Z) ->
  exists answer,
    grid_answer chunk_number cells = Ok answer /\
    length answer = Z.to_nat (chunk_number ^ 2).
Proof.
  intros Hgrid. unfold grid_answer.
  destruct (res_map_m_ok table_index (remove_dups cells)) as (indices & Hind & _).
  { intros [x y] Hxy. rewrite elem_of_remove_dups in Hxy. destruct (Hgrid x y Hxy).
    eexists. by apply table_index_in_grid. }
  destruct (res_map_m_ok
              (fun number : nat =>
                 indices ← res_map_m table_index (remove_dups cells);
                 Ok (bool_decide ((Z.of_nat number + 1)%Z ∈ indices)))
              (seq 0 (Z.to_nat (chunk_number ^ 2)))) as (answer & Hanswer & Hlen).
  { intros number _. rewrite Hind. simpl. by eexists. }
  exists answer. split; [done|]. by rewrite Hlen, length_seq.
Qed.

(** The pure part of [object_coordinates] on a result table. *)
Lemma cells_to_click_total height chunk_number c rows :
  0 < height -> (0 <= chunk_number <= 4)%Z ->
  (forall d, d ∈ rows -> name d = c -> inner_box_within height d) ->
  exists answer,
    cells_to_click height chunk_number c (map Row rows) = Ok answer /\
    length answer = Z.to_nat (chunk_number ^ 2).
Proof.
  intros Hh Hc Hrows. unfold cells_to_click.
  destruct (target_boxes_rows c rows) as (ds & -> & Hds). simpl.
  destruct (collect_cells_in_grid height chunk_number ds [] Hh Hc)
    as (cells & -> & Hgrid).
  - intros d Hd. destruct (Hds d Hd). by apply Hrows.
  - intros x y Hxy. by apply elem_of_nil in Hxy.
  - simpl. by apply grid_answer_ok.
Qed.

(** With [blocks = 4], [find_object] returns rows of the result table. *)
Lemma find_object_4_rows x s results s' :
  find_object x 4 s = (Ok results, s') -> exists rows, results = map Row rows.
Proof.
  unfold find_object, get_class. unfold_monad. simpl.
  destruct (0 <? String.length (ocr_class s)); simpl.
  - destruct (yolo x s) as [[rows|e|] s1]; [|done|done].
    intros [= <- <-]. by exists rows.
  - intros [= <- <-]. by exists [].
Qed.

(** C6, as amended.  For a challenge image of positive height, a
    [chunk_number] from 0 to 4 and a result table in which the inner box of
    every detection of the target class lies in the square whose side is the
    image height (as it does for boxes inside a square image): every pair
    such a detection contributes has an entry in the index table, numbered
    1 to 16, no lookup fails, and [object_coordinates] returns a list of
    exactly [chunk_number] squared booleans. *)
Theorem object_coordinates_total_in_square
    (chunk_number : Z) s (image : image) s1 (results : list found) s2 :
  image_of XTileImage s = (Ok image, s1) ->
  find_object (OneImage image) 4 s1 = (Ok results, s2) ->
  0 < nrows image ->
  (0 <= chunk_number <= 4)%Z ->
  (forall d, Row d ∈ results -> name d = ocr_class s2 ->
             inner_box_within (nrows image) d) ->
  (forall d, Row d ∈ results -> name d = ocr_class s2 ->
     exists cells,
       box_cells (nrows image) chunk_number (inner_box d) = Ok cells /\
       forall cell, cell ∈ cells ->
         exists i, table_index cell = Ok i /\ (1 <= i <= 16)%Z) /\
  exists answer,
    object_coordinates chunk_number s = (Ok answer, s2) /\
    length answer = Z.to_nat (chunk_number ^ 2).
Proof.
  intros Himage Hfind Hh Hc Hin. split.
  - intros d Hd Hname.
    destruct (box_cells_in_grid (nrows image) chunk_number d Hh Hc (Hin d Hd Hname))
      as (cells & Hcells & Hgrid).
    exists cells. split; [done|]. intros [x y] Hxy.
    destruct (Hgrid x y Hxy) as [Hx Hy]. eexists.
    split; [by apply table_index_in_grid|]. unfold or_one.
    destruct (Z.eqb_spec x 0), (Z.eqb_spec y 0); lia.
  - destruct (find_object_4_rows _ _ _ _ Hfind) as [rows ->].
    destruct (cells_to_click_total (nrows image) chunk_number (ocr_class s2) rows Hh Hc)
      as (answer & Hanswer & Hlen).
    { intros d Hd. apply Hin. by apply list_elem_of_fmap_2. }
    exists answer. split; [|done].
    unfold object_coordinates.
    rewrite (bind_ok _ _ _ _ _ Himage), (bind_ok _ _ _ _ _ Hfind).
    unfold get_class. unfold_monad. by rewrite Hanswer.
Qed.

(** ** The clicks of [select_blocks] *)


Lemma visible_ok x s el s' :
  visible x s = (Ok el, s') -> el = x /\ trace s' = trace s.
Proof.
  intros Hvis. pose proof (call_trace [] (o_visible x) s) as Ht.
  unfold visible in Hvis.
  apply bind_inv_ok in Hvis as (? & s1 & Hcall & [= <- <-]).
  rewrite Hcall, app_nil_r in Ht. by split.
Qed.

(** When the first loop of [select_blocks] completes, the tiles it clicked
    are those of the cells whose boolean is [True], in the order of
    [_range], and it clicked nothing else. *)
Lemma click_selected_clicks_true result _range s clicked s' :
  click_selected result _range s = (Ok clicked, s') ->
  clicked = map (fun block => block + 1)
                (filter (fun block => result !! block = Some true) _range) /\
  exists evs, trace s' = trace s ++ evs /\ tile_clicks evs = clicked.
Proof.
  unfold click_selected.
  enough (Hgen : forall acc s,
             for_each (fun clicked block =>
                         hit ← lift (py_index result block);
                         if hit : bool then
                           element_ ← visible (XTile (block + 1));
                           human_click element_;;
                           ret (clicked ++ [block + 1])
                         else ret clicked) acc _range s = (Ok clicked, s') ->
             clicked = acc ++ map (fun block => block + 1)
                                  (filter (fun block => result !! block = Some true)
                                          _range) /\
             exists evs, trace s' = trace s ++ evs /\
                         tile_clicks evs
                         = map (fun block => block + 1)
                               (filter (fun block => result !! block = Some true)
                                       _range)).
  { intros Hrun. destruct (Hgen [] s Hrun) as [-> (evs & Ht & Hclicks)].
    split; [done|]. by exists evs. }
  induction _range as [|block _range IH]; intros acc s0.
  - intros [= <- <-]. simpl. rewrite app_nil_r. split; [done|].
    exists []. by rewrite app_nil_r.
  - rewrite for_each_cons.
    intros (acc' & s1 & Hbody & Hrest)%bind_inv_ok.
    apply bind_inv_ok in Hbody as (hit & s2 & Hhit & Hbody).
    unfold lift in Hhit. injection Hhit as Hhit <-.
    unfold py_index in Hhit.
    destruct (result !! block) as [b|] eqn:Hb; [|done]. injection Hhit as ->.
    destruct (IH acc' s1 Hrest) as [-> (evs & Ht & Hclicks)].
    destruct hit.
    + apply bind_inv_ok in Hbody as (el & s3 & Hvis & Hbody).
      apply visible_ok in Hvis as [-> Ht3].
      apply bind_inv_ok in Hbody as ([] & s4 & Hclick & [= <- <-]).
      apply human_click_ok_trace in Hclick.
      rewrite filter_cons_True by done. simpl. split; [by rewrite <- app_assoc|].
      exists ([EvSleep; EvClick (XTile (block + 1))] ++ evs).
      split; [by rewrite Ht, Hclick, Ht3, <- app_assoc|].
      change (tile_clicks ([EvSleep; EvClick (XTile (block + 1))] ++ evs))
        with (block + 1 :: tile_clicks evs).
      by rewrite Hclicks.
    + injection Hbody as <- <-.
      rewrite filter_cons_False by (rewrite Hb; congruence).
      split; [done|]. by exists evs.
Qed.

(** With [_range] a permutation of the [n] cells, the tile of a cell is
    clicked exactly when its boolean is [True]. *)
Lemma click_selected_exactly_true result _range n s clicked s' :
  click_selected result _range s = (Ok clicked, s') ->
  _range ≡ₚ seq 0 n ->
  forall block, block + 1 ∈ clicked <-> block < n /\ result !! block = Some true.
Proof.
  intros [-> _]%click_selected_clicks_true Hperm block.
  rewrite list_elem_of_fmap. split.
  - intros (b & Heq & [Hb Hin]%list_elem_of_filter).
    assert (b = block) as -> by lia.
    rewrite Hperm in Hin. apply elem_of_seq in Hin. split; [lia|done].
  - intros [Hlt Hb]. exists block. split; [done|].
    apply list_elem_of_filter. split; [done|].
    rewrite Hperm. apply elem_of_seq. lia.
Qed.

(** *** The selection of a 3x3 challenge *)

Lemma map_m_length {A B} (f : A -> M B) l s ys s' :
  map_m f l s = (Ok ys, s') -> length ys = length l.
Proof.
  revert s ys. induction l as [|x l IH]; intros s ys; simpl.
  - by intros [= <- <-].
  - intros (y & s1 & _ & Hrest)%bind_inv_ok.
    apply bind_inv_ok in Hrest as (ys' & s2 & Hys & [= <- <-]).
    simpl. by rewrite (IH _ _ Hys).
Qed.

(** With a class, [find_object] classifies every tile: one list of names
    per tile, and [check_blocks] one boolean per tile. *)
Lemma find_object_3x3_per_tile tiles s results s' :
  find_object (ImageList tiles) 3 s = (Ok results, s') ->
  ocr_class s <> "" ->
  length results = length tiles /\
  forall _class, length (check_blocks results _class) = length tiles.
Proof.
  intros Hfind Hclass.
  assert (Hlen : length results = length tiles).
  { unfold find_object in Hfind.
    apply bind_inv_ok in Hfind as (c & s1 & [= <- <-] & Hfind).
    destruct (ocr_class s) as [|ch c] eqn:Hc; [done|].
    simpl in Hfind. apply map_m_length in Hfind. by rewrite length_map in Hfind. }
  split; [done|]. intros _class. unfold check_blocks. by rewrite length_map.
Qed.

(** Without a class, [find_object] returns the empty list whatever the
    tiles are, and so does [check_blocks]. *)
Lemma find_object_3x3_no_class tiles s :
  ocr_class s = "" ->
  find_object (ImageList tiles) 3 s = (Ok [], s) /\
  forall _class, check_blocks [] _class = [].
Proof.
  intros Hclass. split; [|done].
  unfold find_object, get_class. unfold_monad. by rewrite Hclass.
Qed.

(** ** The order of the steps of an iteration *)

Lemma order_run_app p evs1 evs2 :
  order_run p (evs1 ++ evs2) = order_run p evs1 ≫= fun q => order_run q evs2.
Proof.
  revert p. induction evs1 as [|ev evs1 IH]; intros p; simpl; [done|].
  destruct (order_step p ev); [apply IH|done].
Qed.

Lemma at_phase_emit t0 p q evs s s' :
  at_phase t0 p s -> trace s' = trace s ++ evs -> order_run p evs = Some q ->
  at_phase t0 q s'.
Proof.
  intros (evs0 & Ht & Hrun) Ht' Hq. exists (evs0 ++ evs).
  split; [by rewrite Ht', Ht, app_assoc|].
  rewrite order_run_app, Hrun. done.
Qed.

(** *** Rules *)

Lemma ordered_conseq {A} t0 (P P' : phase -> Prop) (m : @M W A)
    (Q Q' : A -> phase -> Prop) :
  ordered t0 P' m Q' ->
  (forall p, P p -> P' p) -> (forall a q, Q' a q -> Q a q) ->
  ordered t0 P m Q.
Proof.
  intros Hm HP HQ s p Hat Hp.
  destruct (Hm s p Hat (HP p Hp)) as (q & Hq & Hpost).
  exists q. split; [done|]. intros a Ha. by apply HQ, Hpost.
Qed.

Lemma ordered_bind {A B} t0 (P : phase -> Prop) (m : @M W A) (f : A -> @M W B)
    (R : A -> phase -> Prop) (Q : B -> phase -> Prop) :
  ordered t0 P m R -> (forall a, ordered t0 (R a) (f a) Q) ->
  ordered t0 P (m ≫= f) Q.
Proof.
  intros Hm Hf s p Hat Hp.
  destruct (Hm s p Hat Hp) as (q & Hq & Hpost).
  unfold_monad. destruct (m s) as [[a|e|] s1]; simpl in *.
  - apply (Hf a s1 q Hq). by apply Hpost.
  - exists q. by split.
  - exists q. by split.
Qed.

Lemma ordered_emits {A} t0 evs (P : phase -> Prop) (m : @M W A)
    (Q : A -> phase -> Prop) :
  emits evs m ->
  (forall p, P p -> exists q, order_run p evs = Some q /\ forall a, Q a q) ->
  ordered t0 P m Q.
Proof.
  intros Hm Hrun s p Hat Hp.
  destruct (Hrun p Hp) as (q & Hq & Hpost).
  exists q. split; [|by intros a _].
  by apply (at_phase_emit t0 p q evs s).
Qed.

(** A computation that logs nothing keeps the phase. *)
Lemma ordered_silent {A} t0 (P : phase -> Prop) (m : @M W A) :
  emits [] m -> ordered t0 P m (fun _ q => P q).
Proof.
  intros Hm. apply (ordered_emits t0 []); [done|].
  intros p Hp. by exists p.
Qed.

Lemma ordered_ret {A} t0 (P : phase -> Prop) (a : A) :
  ordered t0 P (@ret W A a) (fun a' q => P q /\ a' = a).
Proof.
  intros s p Hat Hp. exists p. split; [done|]. by intros a' [= <-].
Qed.

Lemma ordered_ret_keep {A} t0 (P : phase -> Prop) (a : A) :
  ordered t0 P (@ret W A a) (fun _ q => P q).
Proof. intros s p Hat Hp. exists p. by split. Qed.

Lemma ordered_lift {A} t0 (P : phase -> Prop) (r : res A) :
  ordered t0 P (@lift W A r) (fun a q => P q /\ r = Ok a).
Proof.
  intros s p Hat Hp. exists p. split; [done|]. intros a' Ha. by split.
Qed.

Lemma ordered_for_each {A B} t0 (I : phase -> Prop) (body : B -> A -> @M W B) acc l :
  (forall acc x, ordered t0 I (body acc x) (fun _ q => I q)) ->
  ordered t0 I (for_each body acc l) (fun _ q => I q).
Proof.
  intros Hbody. revert acc. induction l as [|x l IH]; intros acc; simpl.
  - eapply ordered_conseq; [apply ordered_ret|done|by intros ? ? []].
  - eapply ordered_bind; [apply Hbody|]. intros acc'. apply IH.
Qed.

(** *** What the calls log *)

Lemma silent_bind {A B} (m : @M W A) (f : A -> @M W B) :
  emits [] m -> (forall a, emits [] (f a)) -> emits [] (m ≫= f).
Proof.
  intros Hm Hf s. specialize (Hm s).
  unfold_monad. destruct (m s) as [[a'|e|] s1]; simpl in *; [|done|done].
  by rewrite Hf, Hm, !app_nil_r.
Qed.

Lemma emits_call {A} evs (o : W -> (exn + A) * W) : emits evs (call evs o).
Proof. intros s. apply call_trace. Qed.

Lemma silent_draw {A} (o : W -> A * W) : emits [] (draw o).
Proof. intros s. unfold draw. destruct (o (world s)). simpl. by rewrite app_nil_r. Qed.

Lemma silent_ret {A} (a : A) : emits [] (@ret W A a).
Proof. intros s. simpl. by rewrite app_nil_r. Qed.

Lemma silent_raise {A} (e : exn) : emits [] (@raise W A e).
Proof. intros s. simpl. by rewrite app_nil_r. Qed.

Lemma silent_lift {A} (r : res A) : emits [] (@lift W A r).
Proof. intros s. simpl. by rewrite app_nil_r. Qed.

Lemma silent_visible x : emits [] (visible x).
Proof. apply silent_bind; [apply emits_call|intros; apply silent_ret]. Qed.

Lemma visible_returns x s el s' : visible x s = (Ok el, s') -> el = x.
Proof.
  unfold visible. intros (? & ? & _ & Hret)%bind_inv_ok. by injection Hret.
Qed.

Lemma silent_for_each {A B} (body : B -> A -> @M W B) acc l :
  (forall acc x, emits [] (body acc x)) -> emits [] (for_each body acc l).
Proof.
  intros Hbody. revert acc. induction l as [|x l IH]; intros acc; simpl.
  - apply silent_ret.
  - apply silent_bind; [apply Hbody|intros; apply IH].
Qed.

Lemma silent_set_class : emits [] set_class.
Proof.
  unfold set_class.
  apply silent_bind; [apply emits_call|intros items].
  apply silent_bind.
  - apply silent_for_each. intros acc item.
    apply silent_bind; [apply silent_visible|intros el].
    apply silent_bind; [apply emits_call|intros txt]. apply silent_ret.
  - intros keys. apply silent_bind; [|intros; apply silent_ret].
    intros s. simpl. by rewrite app_nil_r.
Qed.

Lemma silent_challenge_opened : emits [] challenge_opened.
Proof.
  unfold challenge_opened.
  apply silent_bind; [apply emits_call|intros _].
  apply silent_bind; [apply silent_visible|intros bubble].
  apply silent_bind; [apply emits_call|intros style].
  destruct (py_contains "visible" style); [|apply silent_ret].
  apply silent_bind; [apply silent_visible|intros challenge].
  apply silent_bind; [apply emits_call|intros _; apply silent_ret].
Qed.

Lemma silent_human_click_move end_ target :
  emits [] (try_except (human_click_move end_ target) (fun _ => ret tt)).
Proof.
  intros s. destruct (human_click_move_raises end_ target s) as (e & s1 & Hmove & Ht).
  unfold try_except. rewrite Hmove. simpl. by rewrite app_nil_r.
Qed.

Lemma emits_try_enhance image :
  emits [EvEnhance] (try_except (enhance image) (fun _ => ret image)).
Proof.
  intros s. pose proof (call_trace [EvEnhance] (o_enhance image) s) as Ht.
  fold (enhance image) in Ht. unfold try_except.
  by destruct (enhance image s) as [[im|e|] s1].
Qed.

(** *** The pieces of an iteration *)

Ltac silent :=
  first [ apply emits_call | apply silent_draw | apply silent_ret
        | apply silent_raise | apply silent_lift | apply silent_visible
        | apply silent_set_class | apply silent_challenge_opened
        | apply silent_human_click_move
        | (intros ?; simpl; by rewrite app_nil_r) ].

Tactic Notation "step_silent" "as" ident(x) :=
  eapply ordered_bind; [apply ordered_silent; silent|intros x; cbv beta].

Lemma ordered_pre {A} t0 (P P' : phase -> Prop) (m : @M W A) (Q : A -> phase -> Prop) :
  ordered t0 P' m Q -> (forall p, P p -> P' p) -> ordered t0 P m Q.
Proof. intros Hm HP. eapply ordered_conseq; [apply Hm|done|done]. Qed.

Lemma ordered_post {A} t0 (P : phase -> Prop) (m : @M W A) (Q Q' : A -> phase -> Prop) :
  ordered t0 P m Q' -> (forall a q, Q' a q -> Q a q) -> ordered t0 P m Q.
Proof. intros Hm HQ. eapply ordered_conseq; [apply Hm|done|done]. Qed.

(** A fact that comes with the phase. *)
Lemma ordered_pre_fact {A} t0 (P : phase -> Prop) (F : Prop) (m : @M W A)
    (Q : A -> phase -> Prop) :
  (F -> ordered t0 P m Q) -> ordered t0 (fun q => P q /\ F) m Q.
Proof. intros Hm s p Hat [Hp HF]. by apply (Hm HF s p Hat Hp). Qed.

Lemma sleep_ordered t0 (P : phase -> Prop) :
  ordered t0 P sleep (fun _ q => P q).
Proof.
  apply (ordered_emits t0 [EvSleep]); [apply emits_call|].
  intros p Hp. by exists p.
Qed.

(** A click on [x] is in order when the phase allows it. *)
Lemma human_click_ordered t0 (P Q : phase -> Prop) x :
  (forall p, P p -> exists q, order_step p (EvClick x) = Some q /\ Q q) ->
  ordered t0 P (human_click x) (fun _ q => Q q).
Proof.
  intros Hstep. unfold human_click, human_click_target.
  step_silent as u.
  eapply ordered_bind; [apply sleep_ordered|intros ?; cbv beta].
  apply (ordered_emits t0 [EvClick x]); [apply emits_call|].
  intros p Hp. destruct (Hstep p Hp) as (q & Hq & HQ).
  exists q. split; [|done]. cbn [order_run]. by rewrite Hq.
Qed.

Lemma image_from_url_ordered t0 url :
  ordered t0 (fun p => p <> Polled) (image_from_url url) (fun _ q => q = Fetched).
Proof.
  unfold image_from_url.
  eapply ordered_bind.
  - apply (ordered_emits t0 [EvGet url] _ _ (fun _ q => q = Fetched)); [apply emits_call|].
    intros p Hp. exists Fetched. by destruct p.
  - intros image. apply (ordered_emits t0 [EvEnhance]); [apply emits_try_enhance|].
    intros p ->. by exists Fetched.
Qed.

Lemma image_of_ordered t0 x :
  ordered t0 (fun p => p <> Polled) (image_of x) (fun _ q => q = Fetched).
Proof.
  unfold image_of. step_silent as el. step_silent as src.
  apply image_from_url_ordered.
Qed.

Lemma visible_ordered t0 (P : phase -> Prop) x :
  ordered t0 P (visible x) (fun el q => P q /\ el = x).
Proof.
  intros s p Hat Hp. exists p. split.
  - apply (at_phase_emit t0 p p [] s); [done|apply silent_visible|done].
  - intros el Hel. split; [done|].
    destruct (visible x s) as [r s1] eqn:Hvis. simpl in Hel. subst r.
    by apply visible_returns in Hvis.
Qed.

Lemma yolo_ordered t0 x :
  ordered t0 working (yolo x) (fun _ q => q = Detected).
Proof.
  apply (ordered_emits t0 [EvYolo]); [apply emits_call|].
  intros p [-> | ->]; by exists Detected.
Qed.

Lemma yolo_names_detected t0 l :
  ordered t0 (fun p => p = Detected)
    (map_m (fun image => rows ← yolo image; ret (Names (map name rows))) l)
    (fun _ q => q = Detected).
Proof.
  induction l as [|x l IH]; simpl.
  - apply ordered_ret_keep.
  - eapply ordered_bind.
    + eapply ordered_bind.
      * eapply ordered_pre; [apply yolo_ordered|intros p ->; by right].
      * intros rows. cbv beta. apply ordered_ret_keep.
    + intros y. cbv beta. eapply ordered_bind; [apply IH|intros ys].
      cbv beta. apply ordered_ret_keep.
Qed.

Lemma yolo_names_ordered t0 l :
  ordered t0 working
    (map_m (fun image => rows ← yolo image; ret (Names (map name rows))) l)
    (fun results q => q = Detected \/ (q = Fetched /\ results = [])).
Proof.
  destruct l as [|x l]; simpl.
  - eapply ordered_post; [apply ordered_ret|].
    intros results q [[-> | ->] ->]; auto.
  - eapply ordered_bind.
    + eapply ordered_bind; [apply yolo_ordered|].
      intros rows. cbv beta. apply ordered_ret_keep.
    + intros y. cbv beta.
      eapply ordered_bind; [apply yolo_names_detected|intros ys].
      eapply ordered_post; [apply ordered_ret|]. intros ? ? [-> _]. by left.
Qed.

Lemma find_object_ordered t0 x blocks :
  ordered t0 working (find_object x blocks)
    (fun results q => q = Detected \/ (q = Fetched /\ results = [])).
Proof.
  assert (Hnone : ordered t0 working (@ret W (list found) [])
                    (fun results q => q = Detected \/ (q = Fetched /\ results = []))).
  { eapply ordered_post; [apply ordered_ret|].
    intros results q [[-> | ->] ->]; auto. }
  unfold find_object. step_silent as c.
  destruct ((blocks =? 3) && (0 <? String.length c)); simpl.
  - apply yolo_names_ordered.
  - destruct ((blocks =? 4) && (0 <? String.length c)); simpl; [|done].
    eapply ordered_bind; [apply yolo_ordered|intros rows].
    eapply ordered_post; [apply ordered_ret|]. intros ? ? [-> _]. by left.
Qed.

(** Without detections, [object_coordinates] selects nothing. *)
Lemma cells_to_click_nothing height chunk_number c answer :
  cells_to_click height chunk_number c [] = Ok answer ->
  forall i, answer !! i <> Some true.
Proof.
  unfold cells_to_click, grid_answer. simpl.
  generalize (seq 0 (Z.to_nat (chunk_number ^ 2))). intros l. revert answer.
  induction l as [|number l IH]; intros answer; simpl.
  - intros [= <-] i. by rewrite lookup_nil.
  - destruct (res_map_m _ l) as [ys| |] eqn:Hys; simpl; [|done|done].
    intros [= <-] [|i]; simpl; [done|by apply IH].
Qed.

Lemma selection_ordered t0 blocks _class :
  ordered t0 (fun p => p = Start) (selection blocks _class) may_click.
Proof.
  unfold selection. destruct (blocks =? 3).
  - unfold divide_blocks.
    eapply ordered_bind.
    { eapply ordered_bind;
        [eapply ordered_pre; [apply image_of_ordered|by intros p ->]|].
      intros image. apply ordered_silent. silent. }
    intros tiles. simpl.
    eapply ordered_bind;
      [eapply ordered_pre; [apply find_object_ordered|intros p ->; by left]|].
    intros results. eapply ordered_post; [apply ordered_ret|].
    intros result q [[-> | [-> ->]] ->]; [by left|right].
    split; [done|]. intros i. unfold check_blocks. simpl. by rewrite lookup_nil.
  - unfold object_coordinates.
    eapply ordered_bind;
      [eapply ordered_pre; [apply image_of_ordered|by intros p ->]|].
    intros image. simpl.
    eapply ordered_bind;
      [eapply ordered_pre; [apply find_object_ordered|intros p ->; by left]|].
    intros results. simpl. step_silent as c.
    eapply ordered_post; [apply ordered_lift|].
    intros result q [[-> | [-> ->]] Hcells]; [by left|right].
    split; [done|]. by eapply cells_to_click_nothing.
Qed.

Lemma click_selected_ordered t0 result _range :
  ordered t0 (may_click result) (click_selected result _range) (fun _ q => working q).
Proof.
  unfold click_selected.
  eapply ordered_post; [|intros clicked q Hq; exact Hq].
  eapply ordered_conseq with (P' := may_click result)
                             (Q' := fun _ q => may_click result q);
    [|done|intros _ q [-> | [-> _]]; [by right|by left]].
  apply ordered_for_each. intros clicked block.
  eapply ordered_bind; [apply ordered_lift|]. intros hit. simpl.
  destruct hit.
  - eapply ordered_pre with (P' := fun p => p = Detected).
    + eapply ordered_bind; [apply visible_ordered|]. intros element_. cbv beta.
      apply ordered_pre_fact. intros ->.
      eapply ordered_bind.
      * apply (human_click_ordered t0 _ (fun q => q = Detected)).
        intros p ->. by exists Detected.
      * intros ?; cbv beta.
        eapply ordered_post; [apply ordered_ret|]. intros ? ? [-> _]. by left.
    + intros p [[-> | [_ Hnone]] Hhit]; [done|].
      unfold py_index in Hhit. destruct (result !! block) eqn:Hb; [|done].
      injection Hhit as ->. by apply Hnone in Hb.
  - eapply ordered_post; [apply ordered_ret|]. by intros ? ? [[? _] _].
Qed.

Lemma recheck_ordered t0 clicked p :
  ordered t0 working (recheck clicked p) (fun _ q => working q).
Proof.
  unfold recheck. step_silent as _class. step_silent as settled.
  step_silent as img. step_silent as cls.
  destruct (negb (py_contains "11" cls)); [apply ordered_ret_keep|].
  eapply ordered_bind;
    [eapply ordered_pre; [apply image_of_ordered|by intros ? [-> | ->]]|].
  intros image. cbv beta.
  eapply ordered_bind;
    [eapply ordered_pre; [apply find_object_ordered|intros ? ->; by left]|].
  intros results. cbv beta.
  eapply ordered_bind; [apply ordered_lift|]. intros hit. cbv beta.
  destruct hit.
  - eapply ordered_pre with (P' := fun q => q = Detected).
    + eapply ordered_bind; [apply visible_ordered|]. intros el. cbv beta.
      apply ordered_pre_fact. intros ->.
      eapply ordered_bind.
      * apply (human_click_ordered t0 _ (fun q => q = Detected)).
        intros q ->. by exists Detected.
      * intros ?. cbv beta.
        eapply ordered_post; [apply ordered_ret|]. intros ? ? [-> _]. by right.
    + by intros q [[-> | [_ ->]] Hhit].
  - eapply ordered_post; [apply ordered_ret|].
    intros ? q [[[-> | [-> _]] _] _]; [by right|by left].
Qed.

Lemma recheck_loop_ordered t0 fuel clicked :
  ordered t0 working (recheck_loop fuel clicked) (fun _ q => working q).
Proof.
  revert clicked. induction fuel as [|fuel IH]; intros clicked; simpl.
  - step_silent as blocks. destruct ((0 <? length clicked) && (blocks =? 3)).
    + apply ordered_silent. silent.
    + apply ordered_ret_keep.
  - step_silent as blocks. destruct ((0 <? length clicked) && (blocks =? 3)).
    + eapply ordered_bind.
      * apply ordered_for_each. intros acc x. apply recheck_ordered.
      * intros clicked'. apply IH.
    + apply ordered_ret_keep.
Qed.

Lemma select_blocks_ordered t0 fuel :
  ordered t0 (fun p => p = Start) (select_blocks fuel) (fun _ q => working q).
Proof.
  unfold select_blocks. step_silent as table. step_silent as cls.
  step_silent as blocks. step_silent as u. step_silent as _class.
  eapply ordered_bind; [apply selection_ordered|]. intros result. cbv beta.
  step_silent as _range.
  eapply ordered_bind; [apply click_selected_ordered|]. intros clicked. cbv beta.
  destruct (length clicked =? 0); [apply ordered_ret_keep|].
  eapply ordered_bind; [apply recheck_loop_ordered|]. intros ?. cbv beta.
  apply ordered_ret_keep.
Qed.

Lemma confirm_ordered t0 :
  ordered t0 working confirm (fun _ q => q = Polled).
Proof.
  unfold confirm.
  eapply ordered_bind; [apply sleep_ordered|]. intros ?. cbv beta.
  eapply ordered_bind; [apply visible_ordered|]. intros button. cbv beta.
  apply ordered_pre_fact. intros ->.
  apply (human_click_ordered t0 _ (fun q => q = Polled)).
  intros p [-> | ->]; by exists Polled.
Qed.

Lemma reload_ordered t0 :
  ordered t0 (fun p => p <> Start) reload (fun _ q => q = Polled).
Proof.
  unfold reload.
  eapply ordered_bind; [apply sleep_ordered|]. intros ?. cbv beta.
  step_silent as t.
  eapply ordered_bind; [apply visible_ordered|]. intros button. cbv beta.
  apply ordered_pre_fact. intros ->.
  eapply ordered_bind.
  - apply (human_click_ordered t0 _ (fun q => q = Polled)).
    intros p Hp. exists Polled. by destruct p.
  - intros ?. cbv beta. apply ordered_silent. silent.
Qed.

Lemma check_children_ordered t0 children :
  ordered t0 (fun p => p = Polled) (check_children children) (fun _ q => q = Polled).
Proof.
  induction children as [|i children IH]; simpl.
  - apply ordered_ret_keep.
  - step_silent as style. destruct (negb (py_contains "none" style)); [|apply IH].
    eapply ordered_pre; [apply reload_ordered|by intros p ->].
Qed.

Lemma check_error_ordered t0 :
  ordered t0 (fun p => p = Polled) check_error (fun _ q => q = Polled).
Proof.
  unfold check_error.
  eapply ordered_bind; [apply visible_ordered|]. intros area. cbv beta.
  apply ordered_pre_fact. intros ->.
  eapply ordered_bind.
  - apply (ordered_emits t0 [EvFindElements XErrorArea] _ _ (fun _ q => q = Polled));
      [apply emits_call|].
    intros p ->. by exists Polled.
  - intros n. apply check_children_ordered.
Qed.

Lemma solve_body_ordered t0 fuel :
  ordered t0 (fun p => p = Start) (solve_body fuel)
    (fun stop q => stop = false -> q = Polled).
Proof.
  unfold solve_body. step_silent as opened.
  destruct (negb opened).
  { eapply ordered_post; [apply ordered_ret|]. by intros stop q [_ ->]. }
  step_silent as u.
  eapply ordered_bind; [apply sleep_ordered|]. intros ?. cbv beta.
  eapply ordered_bind; [apply select_blocks_ordered|]. intros ?. cbv beta.
  step_silent as c.
  eapply ordered_bind with (R := fun _ q => q = Polled).
  - destruct (negb (bool_decide (c = ""))).
    + eapply ordered_bind; [apply confirm_ordered|]. intros ?. cbv beta.
      apply check_error_ordered.
    + eapply ordered_pre; [apply reload_ordered|by intros p [-> | ->]].
  - intros ?. eapply ordered_post; [apply ordered_ret_keep|done].
Qed.

(** *** What the order says about a log *)

Lemma order_step_to_detected p ev :
  order_step p ev = Some Detected -> p <> Detected -> ev = EvYolo.
Proof.
  destruct ev as [|x|url| | |x|msg|path]; try destruct x; destruct p; simpl; congruence.
Qed.

Lemma order_step_tile_click p ev q :
  order_step p ev = Some q -> is_tile_click ev = true -> p = Detected.
Proof.
  destruct ev as [|x|url| | |x|msg|path]; try destruct x; destruct p; simpl; congruence.
Qed.

Lemma order_step_from_start ev q :
  order_step Start ev = Some q ->
  (q = Start /\ is_fetch ev = false /\ ev <> EvYolo /\
   is_poll ev = false /\ is_tile_click ev = false) \/
  (q = Fetched /\ exists url, ev = EvGet url).
Proof.
  destruct ev as [|x|url| | |x|msg|path]; try destruct x; simpl; intros [= <-];
    first [by left | right; split; [done|by eexists]].
Qed.

Lemma order_step_from_polled ev q :
  order_step Polled ev = Some q ->
  q = Polled /\ is_fetch ev = false /\ ev <> EvYolo /\ is_tile_click ev = false.
Proof.
  destruct ev as [|x|url| | |x|msg|path]; try destruct x; simpl; by intros [= <-].
Qed.

Lemma order_step_poll p ev q :
  order_step p ev = Some q -> is_poll ev = true -> q = Polled.
Proof.
  destruct ev as [|x|url| | |x|msg|path]; try destruct x; destruct p; simpl; congruence.
Qed.

Lemma order_step_to_polled p ev :
  order_step p ev = Some Polled -> p <> Polled -> is_poll ev = true.
Proof.
  destruct ev as [|x|url| | |x|msg|path]; try destruct x; destruct p; simpl; congruence.
Qed.

(** An order that ends polled has a poll in it. *)
Lemma order_reaches_polled p evs :
  order_run p evs = Some Polled -> p <> Polled ->
  exists j ev, evs !! j = Some ev /\ is_poll ev = true.
Proof.
  revert p. induction evs as [|ev evs IH]; intros p Hrun Hp; simpl in Hrun.
  - congruence.
  - destruct (order_step p ev) as [p'|] eqn:Hstep; [|done].
    destruct (decide (p' = Polled)) as [-> | Hp'].
    + exists 0, ev. split; [done|]. by eapply order_step_to_polled.
    + destruct (IH p' Hrun Hp') as (j & ev' & Hj & Hpoll).
      by exists (S j), ev'.
Qed.

(** A tile is clicked only after the model was called. *)
Lemma order_click_after_yolo p evs q i k :
  order_run p evs = Some q -> p <> Detected ->
  evs !! i = Some (EvClick (XTile k)) ->
  exists j, j < i /\ evs !! j = Some EvYolo.
Proof.
  revert p i. induction evs as [|ev evs IH]; intros p i Hrun Hp Hi; [done|].
  simpl in Hrun. destruct (order_step p ev) as [p'|] eqn:Hstep; [|done].
  destruct i as [|i]; simpl in Hi.
  - injection Hi as ->. by apply order_step_tile_click in Hstep.
  - destruct (decide (p' = Detected)) as [-> | Hp'].
    + apply order_step_to_detected in Hstep as ->; [|done].
      exists 0. split; [lia|done].
    + destruct (IH p' i Hrun Hp' Hi) as (j & Hj & Hyolo).
      exists (S j). split; [lia|done].
Qed.

(** The model is called, a tile clicked and the challenge polled only
    after an image was fetched. *)
Lemma order_after_fetch evs q j ev :
  order_run Start evs = Some q ->
  evs !! j = Some ev ->
  ev = EvYolo \/ is_poll ev = true \/ is_tile_click ev = true ->
  exists j' url, j' < j /\ evs !! j' = Some (EvGet url).
Proof.
  revert j. induction evs as [|ev0 evs IH]; intros j Hrun Hj Hev; [done|].
  simpl in Hrun. destruct (order_step Start ev0) as [p'|] eqn:Hstep; [|done].
  apply order_step_from_start in Hstep
    as [(-> & Hf & Hy & Hp & Ht)|(-> & url & ->)].
  - destruct j as [|j]; simpl in Hj.
    + injection Hj as ->. destruct Hev as [->|[Hev|Hev]]; congruence.
    + destruct (IH j Hrun Hj Hev) as (j' & url & Hlt & Hget).
      exists (S j'), url. split; [lia|done].
  - destruct j as [|j]; simpl in Hj.
    + injection Hj as <-. by destruct Hev as [?|[?|?]].
    + exists 0, url. split; [lia|done].
Qed.

Lemma order_polled_stays evs q j ev :
  order_run Polled evs = Some q -> evs !! j = Some ev ->
  is_fetch ev = false /\ ev <> EvYolo /\ is_tile_click ev = false.
Proof.
  revert j. induction evs as [|ev0 evs IH]; intros j Hrun Hj; [done|].
  simpl in Hrun. destruct (order_step Polled ev0) as [p'|] eqn:Hstep; [|done].
  apply order_step_from_polled in Hstep as (-> & Hf & Hy & Ht).
  destruct j as [|j]; simpl in Hj; [by injection Hj as <-|by eapply IH].
Qed.

(** After the challenge was polled, nothing is fetched, detected or
    clicked. *)
Lemma order_poll_last p evs q i j ev ev' :
  order_run p evs = Some q -> i < j ->
  evs !! i = Some ev -> is_poll ev = true -> evs !! j = Some ev' ->
  is_fetch ev' = false /\ ev' <> EvYolo /\ is_tile_click ev' = false.
Proof.
  revert p i j. induction evs as [|ev0 evs IH]; intros p i j Hrun Hlt Hi Hpoll Hj;
    [done|].
  simpl in Hrun. destruct (order_step p ev0) as [p'|] eqn:Hstep; [|done].
  destruct j as [|j]; [lia|]. simpl in Hj.
  destruct i as [|i]; simpl in Hi.
  - injection Hi as ->. apply (order_step_poll _ _ _ Hstep) in Hpoll as ->.
    by eapply order_polled_stays.
  - apply (IH p' i j); [done|lia|done..].
Qed.

End Properties.

(** * Runs of the scripted sessions *)

(** C6, witness: the 4x4 challenge with a car in the upper left quarter of
    a 400x400 image. *)
Lemma object_coordinates_total_in_square_witness :
  exists answer,
    (object_coordinates (Env0 := page_env page_cars_4x4) 4
       (with_class "car" (fresh ∅))).1 = Ok answer /\
    length answer = 16.
Proof.
  pose (s := @with_class nat "car" (fresh ∅)).
  destruct (object_coordinates_total_in_square (Env0 := page_env page_cars_4x4)
              4 s (blank 400 400)
              (image_of (Env0 := page_env page_cars_4x4) XTileImage s).2
              (map Row (pg_rows page_cars_4x4))
              (find_object (Env0 := page_env page_cars_4x4)
                 (OneImage (blank 400 400)) 4
                 (image_of (Env0 := page_env page_cars_4x4) XTileImage s).2).2)
    as [_ (answer & Hrun & Hlen)].
  - reflexivity.
  - reflexivity.
  - simpl. lia.
  - lia.
  - intros d Hd Hname. simpl in Hd. elem_cases Hd; injection Hd as ->.
    + unfold inner_box_within, Qle. simpl. lia.
    + discriminate Hname.
  - exists answer. fold s. rewrite Hrun. by split.
Defined.

(** C6, counterexample: on an image 100 high and 200 wide, a car over the
    whole width has its right edge scaled to column 7, for which the index
    table has no entry: the lookup raises [KeyError] and no list is
    returned. *)
Lemma object_coordinates_lookup_fails :
  scale 100 4 (xmax (Detection 0 0 200 100 "car") - 25) = Ok 7%Z /\
  table_index (7, 1)%Z = Raise KeyError /\
  (object_coordinates (Env0 := page_env page_wide_4x4) 4
     (with_class "car" (fresh ∅))).1 = Raise KeyError.
Proof. repeat split; reflexivity. Qed.

(** C4, at inputs where the code leaves the claim.  On an image of 600 rows
    and 300 columns, [divide_blocks] returns 12 tiles, not 9, which overlap
    and leave the columns 100 to 199 out: the row range steps by the column
    step and the column range by the row step.  On a square image of side
    100 the 9 tiles have four different shapes, and on a square image of
    side 4 there are 4 tiles. *)
Theorem divide_blocks_off_grid :
  (exists tiles,
      (divide_blocks (Env0 := page_env page_tall_3x3) 3 (fresh ∅)).1 = Ok tiles /\
      length tiles = 12) /\
  tile_boxes 600 300 3
  = Ok [(0, 200, 0, 100); (0, 200, 200, 300); (100, 300, 0, 100);
        (100, 300, 200, 300); (200, 400, 0, 100); (200, 400, 200, 300);
        (300, 500, 0, 100); (300, 500, 200, 300); (400, 600, 0, 100);
        (400, 600, 200, 300); (500, 700, 0, 100); (500, 700, 200, 300)] /\
  (forall boxes, tile_boxes 600 300 3 = Ok boxes -> covered boxes 0 150 = false) /\
  tile_shapes (blank 100 100) 3
  = Ok [(34, 34); (34, 34); (34, 32); (34, 34); (34, 34); (34, 32);
        (32, 34); (32, 34); (32, 32)] /\
  tile_shapes (blank 4 4) 3 = Ok [(2, 2); (2, 2); (2, 2); (2, 2)].
Proof.
  split; [|split; [|split; [|split]]].
  - eexists. split; [vm_compute; reflexivity|reflexivity].
  - vm_compute. reflexivity.
  - intros boxes Hboxes. vm_compute in Hboxes. injection Hboxes as <-. reflexivity.
  - vm_compute. reflexivity.
  - vm_compute. reflexivity.
Qed.

(** C3, at an input where the code leaves the claim.  On a 3x3 challenge
    whose instruction names no class of classes.json, [set_class] returns
    the empty string, [find_object] returns the empty list and the
    selection has no entry for any of the 9 cells: [select_blocks] raises
    [IndexError] at the first cell, and [solve] counts failures until it
    returns [False] without ever reloading the challenge.  On a 4x4
    challenge with the same instruction the selection has 16 entries, all
    [False], [select_blocks] returns [False] and the iteration reloads. *)
Theorem select_blocks_unknown_class_3x3 :
  ((_class ← set_class (Env0 := page_env page_unknown_3x3);
    selection (Env0 := page_env page_unknown_3x3) 3 _class) (fresh ∅)).1 = Ok [] /\
  (select_blocks (Env0 := page_env page_unknown_3x3) 1 (fresh ∅)).1
  = Raise IndexError /\
  (solve (Env0 := page_env page_unknown_3x3) 4 (fresh ∅)).1 = Ok false /\
  (EvClick XReloadButton
     ∉ trace (solve (Env0 := page_env page_unknown_3x3) 4 (fresh ∅)).2) /\
  ((_class ← set_class (Env0 := page_env page_unknown_4x4);
    selection (Env0 := page_env page_unknown_4x4) 4 _class) (fresh ∅)).1
  = Ok (replicate 16 false) /\
  (select_blocks (Env0 := page_env page_unknown_4x4) 1 (fresh ∅)).1 = Ok false /\
  (EvClick XReloadButton
     ∈ trace (solve_body (Env0 := page_env page_unknown_4x4) 1 (fresh ∅)).2).
Proof.
  split; [|split; [|split; [|split; [|split; [|split]]]]];
    try (vm_compute; reflexivity).
  - refine (proj1 (bool_decide_eq_false _) _). vm_compute. reflexivity.
  - refine (proj1 (bool_decide_eq_true _) _). vm_compute. reflexivity.
Qed.

(** ** Whole runs *)

(** The 4x4 challenge with a car: the four tiles of the upper left quarter
    are clicked, the challenge is confirmed and [solve] returns [True]. *)
Example solve_cars_4x4 :
  (solve (Env0 := page_env page_cars_4x4) 2 (fresh ∅)).1 = Ok true /\
  tile_clicks (trace (solve (Env0 := page_env page_cars_4x4) 2 (fresh ∅)).2)
  = [6; 5; 2; 1].
Proof. split; vm_compute; reflexivity. Qed.

(** The 3x3 challenge where every tile shows a car: nine model calls, nine
    clicks. *)
Example solve_cars_3x3 :
  (solve (Env0 := page_env page_cars_3x3) 2 (fresh ∅)).1 = Ok true /\
  tile_clicks (trace (solve (Env0 := page_env page_cars_3x3) 2 (fresh ∅)).2)
  = [9; 8; 7; 6; 5; 4; 3; 2; 1].
Proof. split; vm_compute; reflexivity. Qed.

(** A challenge table that cannot be read: two retries, then [False]. *)
Example solve_broken_page :
  (solve (Env0 := page_env page_broken) 3 (fresh ∅)).1 = Ok false /\
  retries (Env0 := page_env page_broken) 3 0
    (open_challenge (Env0 := page_env page_broken) (fresh ∅)).2 = 2 /\
  (solve (Env0 := page_env page_broken) 2 (fresh ∅)).1 = OutOfFuel.
Proof. repeat split; vm_compute; reflexivity. Qed.

(** A first start downloads both weight files; with the first one cached
    only the second is requested, and the cached file stays as it is. *)
Example download_models_runs :
  trace (download_models (Env0 := page_env page_broken) (fresh ∅)).2
  = [EvPrint "Downloading RealESRGAN pre-trained file.";
     EvGet (repository_url +:+ "RealESRGAN/RealESRGAN_x4plus.pth");
     EvOpen "realesrgan/RealESRGAN_x4plus.pth";
     EvPrint "<green>Done.<reset> Saved in realesrgan/RealESRGAN_x4plus.pth";
     EvPrint "Downloading Yolov5x6 pre-trained file.";
     EvGet (repository_url +:+ "Yolov5x6/yolov5x6.pt");
     EvOpen "yolov5/yolov5x6.pt";
     EvPrint "<green>Done.<reset> Saved in yolov5/yolov5x6.pt"] /\
  let cached := fresh {[ "realesrgan/RealESRGAN_x4plus.pth" := [Byte.x2a] ]} in
  trace (download_models (Env0 := page_env page_broken) cached).2
  = [EvPrint "Downloading Yolov5x6 pre-trained file.";
     EvGet (repository_url +:+ "Yolov5x6/yolov5x6.pt");
     EvOpen "yolov5/yolov5x6.pt";
     EvPrint "<green>Done.<reset> Saved in yolov5/yolov5x6.pt"] /\
  files (download_models (Env0 := page_env page_broken) cached).2
    !! "realesrgan/RealESRGAN_x4plus.pth" = Some [Byte.x2a].
Proof. repeat split; vm_compute; reflexivity. Qed.

(** * Footprints, the log of a complete run, and the rest of the module *)

Section Coverage.
Context {W : Type} `{!Env W}.

Implicit Types s : @pystate W.

(** ** Footprint: files and log of the browsing part *)

Lemma only_app ok a b : only ok a -> only ok b -> only ok (a ++ b).
Proof. unfold only. rewrite forallb_app. by intros -> ->. Qed.

Lemma only_weaken (ok ok' : event -> bool) evs :
  (forall ev, ok ev = true -> ok' ev = true) -> only ok evs -> only ok' evs.
Proof.
  unfold only. intros Hsub. rewrite !forallb_forall. intros Hall ev Hin.
  apply Hsub, Hall, Hin.
Qed.

Lemma browses_conseq {A} (P Q : list event -> Prop) (m : @M W A) :
  (forall evs, P evs -> Q evs) -> browses P m -> browses Q m.
Proof.
  intros HPQ Hm s. destruct (Hm s) as (Hf & evs & Ht & HP).
  split; [done|]. exists evs. auto.
Qed.

Lemma browses_bind {A B} (P1 P2 P3 : list event -> Prop)
    (m : @M W A) (f : A -> @M W B) :
  (forall a b, P1 a -> P2 b -> P3 (a ++ b)) ->
  (forall a, P1 a -> P3 a) ->
  browses P1 m -> (forall a, browses P2 (f a)) -> browses P3 (m ≫= f).
Proof.
  intros Happ Hstop Hm Hf s. destruct (Hm s) as (Hfiles & evs & Ht & HP).
  unfold_monad. destruct (m s) as [[a|e|] s1]; simpl in *.
  - destruct (Hf a s1) as (Hfiles2 & evs2 & Ht2 & HP2).
    split; [congruence|]. exists (evs ++ evs2).
    split; [by rewrite Ht2, Ht, app_assoc|auto].
  - split; [done|]. exists evs. auto.
  - split; [done|]. exists evs. auto.
Qed.

Lemma browses_try {A} (P1 P2 P3 : list event -> Prop)
    (m : @M W A) (h : exn -> @M W A) :
  (forall a b, P1 a -> P2 b -> P3 (a ++ b)) ->
  (forall a, P1 a -> P3 a) ->
  browses P1 m -> (forall e, browses P2 (h e)) -> browses P3 (try_except m h).
Proof.
  intros Happ Hstop Hm Hh s. destruct (Hm s) as (Hfiles & evs & Ht & HP).
  unfold_monad. destruct (m s) as [[a|e|] s1]; simpl in *.
  - split; [done|]. exists evs. auto.
  - destruct (Hh e s1) as (Hfiles2 & evs2 & Ht2 & HP2).
    split; [congruence|]. exists (evs ++ evs2).
    split; [by rewrite Ht2, Ht, app_assoc|auto].
  - split; [done|]. exists evs. auto.
Qed.

Lemma browses_call {A} (P : list event -> Prop) evs (o : W -> (exn + A) * W) :
  P evs -> browses P (call evs o).
Proof.
  intros HP s. pose proof (call_trace evs o s) as Ht.
  unfold call in *. destruct (o (world s)) as [[e|a] w]; simpl in *;
    (split; [done|by exists evs]).
Qed.

(** A step that logs nothing and writes no file. *)
Lemma browses_quiet {A} (P : list event -> Prop) (m : @M W A) :
  P [] ->
  (forall s, files (m s).2 = files s /\ trace (m s).2 = trace s) ->
  browses P m.
Proof.
  intros HP Hm s. destruct (Hm s) as [Hf Ht]. split; [done|].
  exists []. by rewrite app_nil_r.
Qed.

Lemma browses_draw {A} (P : list event -> Prop) (o : W -> A * W) :
  P [] -> browses P (draw o).
Proof.
  intros HP. apply browses_quiet; [done|]. intros s.
  unfold draw. by destruct (o (world s)).
Qed.

Lemma browses_ret {A} (P : list event -> Prop) (a : A) :
  P [] -> browses P (@ret W A a).
Proof. intros HP. by apply browses_quiet. Qed.

Lemma browses_raise {A} (P : list event -> Prop) (e : exn) :
  P [] -> browses P (@raise W A e).
Proof. intros HP. by apply browses_quiet. Qed.

Lemma browses_lift {A} (P : list event -> Prop) (r : res A) :
  P [] -> browses P (@lift W A r).
Proof. intros HP. by apply browses_quiet. Qed.

(** *** The rules for logs whose every event passes a test *)

Lemma only_bind {A B} ok (m : @M W A) (f : A -> @M W B) :
  browses (only ok) m -> (forall a, browses (only ok) (f a)) ->
  browses (only ok) (m ≫= f).
Proof. apply browses_bind; [apply only_app|done]. Qed.

Lemma only_try {A} ok (m : @M W A) (h : exn -> @M W A) :
  browses (only ok) m -> (forall e, browses (only ok) (h e)) ->
  browses (only ok) (try_except m h).
Proof. apply browses_try; [apply only_app|done]. Qed.

Lemma only_visible ok x : browses (only ok) (visible x).
Proof.
  unfold visible. apply only_bind; [by apply browses_call|].
  intros _. by apply browses_ret.
Qed.

Lemma only_visible_bind {B} ok x (f : xpath -> @M W B) :
  browses (only ok) (f x) -> browses (only ok) (visible x ≫= f).
Proof.
  intros Hf s. destruct (only_visible ok x s) as (Hfiles & evs & Ht & HP).
  unfold_monad. destruct (visible x s) as [[el|e|] s1] eqn:Hvis; simpl in *.
  - apply visible_returns in Hvis as ->.
    destruct (Hf s1) as (Hfiles2 & evs2 & Ht2 & HP2).
    split; [congruence|]. exists (evs ++ evs2).
    split; [by rewrite Ht2, Ht, app_assoc|by apply only_app].
  - split; [done|]. by exists evs.
  - split; [done|]. by exists evs.
Qed.

Lemma only_for_each {A B} ok (body : B -> A -> @M W B) acc l :
  (forall acc x, browses (only ok) (body acc x)) ->
  browses (only ok) (for_each body acc l).
Proof.
  intros Hbody. revert acc. induction l as [|x l IH]; intros acc; simpl.
  - by apply browses_ret.
  - apply only_bind; [apply Hbody|apply IH].
Qed.

Lemma only_map_m {A B} ok (f : A -> @M W B) l :
  (forall x, browses (only ok) (f x)) -> browses (only ok) (map_m f l).
Proof.
  intros Hf. induction l as [|x l IH]; simpl.
  - by apply browses_ret.
  - apply only_bind; [apply Hf|]. intros y.
    apply only_bind; [apply IH|]. intros ys. by apply browses_ret.
Qed.

(** One step through a computation whose log is tested event by event. *)
Ltac only_side :=
  unfold only; simpl; repeat match goal with H : _ = true |- _ => rewrite H end;
  reflexivity.

Ltac only_step :=
  cbv beta;
  lazymatch goal with
  | |- forall _, _ => intros ?
  | |- browses _ (visible _ ≫= _) => apply only_visible_bind
  | |- browses _ (_ ≫= _) => apply only_bind
  | |- browses _ (try_except _ _) => apply only_try
  | |- browses _ (for_each _ _ _) => apply only_for_each
  | |- browses _ (map_m _ _) => apply only_map_m
  | |- browses _ (visible _) => apply only_visible
  | |- browses _ (call _ _) => apply browses_call; only_side
  | |- browses _ (draw _) => apply browses_draw; only_side
  | |- browses _ (ret _) => apply browses_ret; only_side
  | |- browses _ (mret _) => apply browses_ret; only_side
  | |- browses _ (raise _) => apply browses_raise; only_side
  | |- browses _ (lift _) => apply browses_lift; only_side
  | |- browses _ (if ?b then _ else _) => destruct b
  | |- browses _ (match ?x with _ => _ end) => destruct x
  | |- browses _ _ => apply browses_quiet; [only_side|by intros ?]
  end.

(** *** The pieces of [select_blocks] *)

Lemma human_click_move_only ok end_ target :
  browses (only ok) (human_click_move end_ target).
Proof.
  unfold human_click_move, unpack3, location, randint.
  only_step.
  { apply browses_quiet; [done|]. intros s. unfold get_start.
    by destruct (actions_start s). }
  repeat only_step.
Qed.

Lemma human_click_only ok x :
  ok EvSleep = true -> ok (EvClick x) = true ->
  browses (only ok) (human_click x).
Proof.
  intros Hsleep Hclick. unfold human_click, human_click_target, sleep, click.
  repeat first [only_step | apply human_click_move_only].
Qed.

Lemma set_class_only ok : browses (only ok) set_class.
Proof. unfold set_class, classes_json, text. repeat only_step. Qed.

Lemma only_sub {A} (ok ok' : event -> bool) (m : @M W A) :
  (forall ev, ok ev = true -> ok' ev = true) ->
  browses (only ok) m -> browses (only ok') m.
Proof. intros Hsub. apply browses_conseq. intros evs. by apply only_weaken. Qed.

Lemma detect_event_select ev : detect_event ev = true -> select_event ev = true.
Proof. by destruct ev. Qed.

Lemma image_of_only x : browses (only detect_event) (image_of x).
Proof.
  unfold image_of, image_from_url, get_attribute, fetch_image, enhance.
  repeat only_step.
Qed.

Lemma find_object_only x blocks : browses (only detect_event) (find_object x blocks).
Proof. unfold find_object, specific_model, yolo. repeat only_step. Qed.

Lemma selection_only blocks _class :
  browses (only detect_event) (selection blocks _class).
Proof.
  unfold selection, divide_blocks, object_coordinates.
  repeat first [only_step | apply image_of_only | apply find_object_only].
Qed.

Lemma click_selected_only result _range :
  browses (only select_event) (click_selected result _range).
Proof.
  unfold click_selected.
  repeat first [only_step | by apply human_click_only].
Qed.

Lemma recheck_only clicked p : browses (only select_event) (recheck clicked p).
Proof.
  unfold recheck, get_attribute.
  repeat first
    [ only_step | apply set_class_only | by apply human_click_only
    | apply (only_sub detect_event); [apply detect_event_select|];
      first [apply image_of_only | apply find_object_only] ].
Qed.

Lemma recheck_loop_only fuel clicked :
  browses (only select_event) (recheck_loop fuel clicked).
Proof.
  revert clicked. induction fuel as [|fuel IH]; intros clicked; simpl;
    unfold get_blocks, out_of_fuel;
    repeat first [only_step | apply recheck_only | apply IH].
Qed.

Lemma select_blocks_only fuel : browses (only select_event) (select_blocks fuel).
Proof.
  unfold select_blocks, get_attribute, shuffle.
  repeat first
    [ only_step | apply set_class_only
    | apply click_selected_only | apply recheck_loop_only
    | apply (only_sub detect_event); [apply detect_event_select|];
      apply selection_only ].
Qed.

(** *** Fields an iteration leaves alone *)

Lemma keeps_bind {A B C} (field : pystate -> C) (m : @M W A) (f : A -> @M W B) :
  keeps field m -> (forall a, keeps field (f a)) -> keeps field (m ≫= f).
Proof.
  intros Hm Hf s. specialize (Hm s). unfold_monad.
  destruct (m s) as [[a|e|] s1]; simpl in *; [|done|done].
  by rewrite (Hf a s1).
Qed.

Lemma keeps_try {A C} (field : pystate -> C) (m : @M W A) (h : exn -> @M W A) :
  keeps field m -> (forall e, keeps field (h e)) -> keeps field (try_except m h).
Proof.
  intros Hm Hh s. specialize (Hm s). unfold_monad.
  destruct (m s) as [[a|e|] s1]; simpl in *; [done| |done].
  by rewrite (Hh e s1).
Qed.

Lemma keeps_call {A C} (field : pystate -> C) evs (o : W -> (exn + A) * W) :
  framed field -> keeps field (call evs o).
Proof.
  intros Hframe s. unfold call. destruct (o (world s)) as [[e|a] w]; apply Hframe.
Qed.

Lemma keeps_draw {A C} (field : pystate -> C) (o : W -> A * W) :
  framed field -> keeps field (draw o).
Proof.
  intros Hframe s. unfold draw. destruct (o (world s)) as [a w]. simpl.
  rewrite <- (Hframe w [] s). unfold log. by rewrite app_nil_r.
Qed.

Lemma keeps_for_each {A B C} (field : pystate -> C) (body : B -> A -> @M W B) acc l :
  (forall acc x, keeps field (body acc x)) -> keeps field (for_each body acc l).
Proof.
  intros Hbody. revert acc. induction l as [|x l IH]; intros acc; simpl; [done|].
  apply keeps_bind; [apply Hbody|apply IH].
Qed.

Lemma keeps_map_m {A B C} (field : pystate -> C) (f : A -> @M W B) l :
  (forall x, keeps field (f x)) -> keeps field (map_m f l).
Proof.
  intros Hf. induction l as [|x l IH]; simpl; [done|].
  apply keeps_bind; [apply Hf|]. intros y.
  apply keeps_bind; [apply IH|]. by intros ys s.
Qed.

Ltac keep_step :=
  cbv beta;
  lazymatch goal with
  | |- forall _, _ => intros ?
  | |- keeps _ (_ ≫= _) => apply keeps_bind
  | |- keeps _ (try_except _ _) => apply keeps_try
  | |- keeps _ (for_each _ _ _) => apply keeps_for_each
  | |- keeps _ (map_m _ _) => apply keeps_map_m
  | |- keeps _ (call _ _) => apply keeps_call; done
  | |- keeps _ (draw _) => apply keeps_draw; done
  | |- keeps _ (if ?b then _ else _) => destruct b
  | |- keeps _ (match ?x with _ => _ end) => destruct x
  | |- keeps _ _ => by intros ?
  end.

Lemma human_click_keeps {C} (field : pystate -> C) x :
  framed field -> (forall st s, field (with_start st s) = field s) ->
  keeps field (human_click x).
Proof.
  intros Hframe Hstart.
  unfold human_click, human_click_target, human_click_move, unpack3, sleep, click,
    location, randint, visible.
  keep_step; [|repeat keep_step].
  keep_step; [|repeat keep_step].
  keep_step.
  { intros s. unfold get_start. by destruct (actions_start s). }
  repeat first [keep_step | by intros s; apply Hstart].
Qed.

Lemma image_of_keeps {C} (field : pystate -> C) x :
  framed field -> keeps field (image_of x).
Proof.
  intros Hframe.
  unfold image_of, image_from_url, visible, get_attribute, fetch_image, enhance.
  repeat keep_step.
Qed.

Lemma find_object_keeps {C} (field : pystate -> C) x blocks :
  framed field -> keeps field (find_object x blocks).
Proof.
  intros Hframe. unfold find_object, specific_model, yolo, get_class.
  repeat keep_step.
Qed.

Lemma selection_keeps {C} (field : pystate -> C) blocks _class :
  framed field -> keeps field (selection blocks _class).
Proof.
  intros Hframe. unfold selection, divide_blocks, object_coordinates, get_class.
  repeat first [keep_step | by apply image_of_keeps | by apply find_object_keeps].
Qed.

Lemma click_selected_keeps {C} (field : pystate -> C) result _range :
  framed field -> (forall st s, field (with_start st s) = field s) ->
  keeps field (click_selected result _range).
Proof.
  intros Hframe Hstart. unfold click_selected, visible.
  repeat first [keep_step | by apply human_click_keeps].
Qed.

Lemma set_class_keeps_blocks : keeps solver_blocks set_class.
Proof.
  unfold set_class, classes_json, visible, text, set_class_field.
  repeat keep_step.
Qed.

Lemma call_ok_trace {A} evs (o : W -> (exn + A) * W) s a s' :
  call evs o s = (Ok a, s') -> trace s' = trace s ++ evs.
Proof. intros Hrun. pose proof (call_trace evs o s) as Ht. by rewrite Hrun in Ht. Qed.

Lemma call_ok_quiet {A} (o : W -> (exn + A) * W) s a s' :
  call [] o s = (Ok a, s') -> trace s' = trace s.
Proof. intros Hrun%call_ok_trace. by rewrite app_nil_r in Hrun. Qed.

(** *** What the steps of [select_blocks] log when they return *)

Lemma image_of_run x s im s' :
  image_of x s = (Ok im, s') ->
  exists url, trace s' = trace s ++ [EvGet url; EvEnhance].
Proof.
  unfold image_of, image_from_url. intros Hrun.
  apply bind_inv_ok in Hrun as (el & s1 & [_ H1]%visible_ok & Hrun).
  apply bind_inv_ok in Hrun as (url & s2 & H2%call_ok_quiet & Hrun).
  apply bind_inv_ok in Hrun as (image & s3 & H3%call_ok_trace & Hrun).
  pose proof (emits_try_enhance image s3) as H4. rewrite Hrun in H4. simpl in H4.
  exists url. rewrite H4, H3, H2, H1, <- app_assoc. done.
Qed.

Lemma yolo_names_run l s results s' :
  map_m (fun image => rows ← yolo image; ret (Names (map name rows))) l s
  = (Ok results, s') ->
  length results = length l /\
  trace s' = trace s ++ replicate (length l) EvYolo.
Proof.
  revert s results. induction l as [|x l IH]; intros s results; simpl.
  - intros [= <- <-]. by rewrite app_nil_r.
  - intros (y & s1 & Hy & Hrest)%bind_inv_ok.
    apply bind_inv_ok in Hy as (rows & s2 & Hyolo%call_ok_trace & [= <- <-]).
    apply bind_inv_ok in Hrest as (ys & s3 & Hys & [= <- <-]).
    apply IH in Hys as [Hlen Ht]. simpl. split; [by rewrite Hlen|].
    rewrite Ht, Hyolo, <- app_assoc. done.
Qed.

Lemma find_object_run_tiles tiles s results s' :
  find_object (ImageList tiles) 3 s = (Ok results, s') ->
  trace s' = trace s ++ replicate (length results) EvYolo /\
  (ocr_class s = "" -> results = []).
Proof.
  unfold find_object. intros Hrun.
  apply bind_inv_ok in Hrun as (c & s1 & [= <- <-] & Hrun).
  destruct (ocr_class s) as [|ch c] eqn:Hc; simpl in Hrun.
  - injection Hrun as <- <-. by rewrite app_nil_r.
  - apply yolo_names_run in Hrun as [Hlen Ht]. rewrite Hlen. done.
Qed.

Lemma find_object_run_image im s results s' :
  find_object (OneImage im) 4 s = (Ok results, s') ->
  trace s' = trace s
             ++ replicate (if bool_decide (ocr_class s = "") then 0 else 1) EvYolo /\
  (ocr_class s = "" -> results = []) /\
  exists rows, results = map Row rows.
Proof.
  intros Hrun. pose proof (find_object_4_rows _ _ _ _ Hrun) as Hrows.
  revert Hrun. unfold find_object. intros Hrun.
  apply bind_inv_ok in Hrun as (c & s1 & [= <- <-] & Hrun).
  destruct (ocr_class s) as [|ch c] eqn:Hc; simpl in Hrun.
  - injection Hrun as <- <-. by rewrite app_nil_r.
  - apply bind_inv_ok in Hrun as (rows & s2 & Hyolo%call_ok_trace & [= <- <-]).
    done.
Qed.

Lemma selected_tiles_nil result _range :
  (forall i, result !! i <> Some true) -> selected_tiles result _range = [].
Proof.
  intros Hnone. unfold selected_tiles.
  induction _range as [|block _range IH]; [done|].
  rewrite filter_cons_False; [done|apply Hnone].
Qed.

Lemma selection_run blocks _class s result s' :
  selection blocks _class s = (Ok result, s') ->
  exists url,
    trace s' = trace s ++ [EvGet url; EvEnhance]
               ++ replicate (model_calls blocks (ocr_class s) result) EvYolo /\
    (ocr_class s = "" -> forall _range, selected_tiles result _range = []).
Proof.
  unfold selection, model_calls. destruct (blocks =? 3); intros Hrun.
  - apply bind_inv_ok in Hrun as (tiles & s1 & Htiles & Hrun).
    unfold divide_blocks in Htiles.
    apply bind_inv_ok in Htiles as (im & s0 & Him & Htiles).
    pose proof (image_of_keeps ocr_class XTile33Image (fun _ _ _ => eq_refl) s)
      as Hclass.
    rewrite Him in Hclass. simpl in Hclass.
    apply image_of_run in Him as (url & Ht0).
    unfold lift in Htiles. injection Htiles as _ <-.
    apply bind_inv_ok in Hrun as (results & s2 & Hfind & [= <- <-]).
    apply find_object_run_tiles in Hfind as [Ht Hnone].
    exists url. unfold check_blocks. rewrite length_map.
    split; [by rewrite Ht, Ht0, <- app_assoc|].
    intros Hc _range. rewrite Hnone by congruence. by apply selected_tiles_nil.
  - unfold object_coordinates in Hrun.
    apply bind_inv_ok in Hrun as (im & s0 & Him & Hrun).
    pose proof (image_of_keeps ocr_class XTileImage (fun _ _ _ => eq_refl) s)
      as Hclass.
    rewrite Him in Hclass. simpl in Hclass.
    apply image_of_run in Him as (url & Ht0).
    apply bind_inv_ok in Hrun as (results & s2 & Hfind & Hrun).
    apply find_object_run_image in Hfind as (Ht & Hnone & _).
    apply bind_inv_ok in Hrun as (c & s3 & [= <- <-] & Hrun).
    unfold lift in Hrun. injection Hrun as Hcells <-.
    exists url. rewrite Hclass in Ht.
    split; [by rewrite Ht, Ht0, <- app_assoc|].
    intros Hc _range. apply selected_tiles_nil.
    rewrite Hnone in Hcells by congruence.
    by apply (cells_to_click_nothing _ _ _ _ Hcells).
Qed.

Lemma click_events_app a b : click_events (a ++ b) = click_events a ++ click_events b.
Proof. unfold click_events. by rewrite flat_map_app. Qed.

Lemma click_selected_run result _range s clicked s' :
  click_selected result _range s = (Ok clicked, s') ->
  clicked = selected_tiles result _range /\
  trace s' = trace s ++ click_events clicked.
Proof.
  intros Hrun.
  destruct (click_selected_clicks_true _ _ _ _ _ Hrun) as [Hclicked _].
  split; [done|]. rewrite Hclicked. clear Hclicked. revert Hrun.
  unfold click_selected.
  enough (Hgen : forall s acc,
             for_each (fun clicked block =>
                         hit ← lift (py_index result block);
                         if hit : bool then
                           element_ ← visible (XTile (block + 1));
                           human_click element_;;
                           ret (clicked ++ [block + 1])
                         else ret clicked) acc _range s = (Ok clicked, s') ->
             trace s' = trace s ++ click_events (selected_tiles result _range))
    by (intros Hrun; apply (Hgen s [] Hrun)).
  unfold selected_tiles. clear s.
  induction _range as [|block _range IH]; intros s acc.
  - intros [= _ <-]. by rewrite app_nil_r.
  - rewrite for_each_cons.
    intros (acc' & s1 & Hbody & Hrest)%bind_inv_ok.
    apply IH in Hrest. rewrite Hrest.
    apply bind_inv_ok in Hbody as (hit & s2 & Hhit & Hbody).
    unfold lift in Hhit. injection Hhit as Hhit <-.
    unfold py_index in Hhit.
    destruct (result !! block) as [b|] eqn:Hb; [|done]. injection Hhit as ->.
    destruct hit.
    + apply bind_inv_ok in Hbody as (el & s3 & [-> Ht3]%visible_ok & Hbody).
      apply bind_inv_ok in Hbody as ([] & s4 & Hclick & [= _ <-]).
      apply human_click_ok_trace in Hclick.
      rewrite filter_cons_True by done. simpl.
      by rewrite Hclick, Ht3, <- app_assoc.
    + injection Hbody as _ <-.
      by rewrite filter_cons_False by (rewrite Hb; congruence).
Qed.

Lemma set_class_ok c s s' :
  set_class s = (Ok c, s') ->
  ocr_class s' = c /\ trace s' = trace s /\ solver_blocks s' = solver_blocks s.
Proof.
  intros Hrun.
  pose proof (silent_set_class s) as Ht. rewrite app_nil_r in Ht.
  pose proof (set_class_keeps_blocks s) as Hb.
  rewrite Hrun in Ht, Hb. simpl in Ht, Hb.
  split; [|done]. revert Hrun. unfold set_class. intros Hrun.
  apply bind_inv_ok in Hrun as (items & s1 & _ & Hrun).
  apply bind_inv_ok in Hrun as (keys & s2 & _ & Hrun).
  apply bind_inv_ok in Hrun as ([] & s3 & [= <-] & [= <- <-]). done.
Qed.

Lemma recheck_loop_skip fuel clicked s :
  solver_blocks s <> 3 \/ clicked = [] -> recheck_loop fuel clicked s = (Ok tt, s).
Proof.
  intros Hskip.
  assert (Hcond : (0 <? length clicked) && (solver_blocks s =? 3) = false).
  { destruct Hskip as [Hne| ->]; [|done].
    apply Nat.eqb_neq in Hne. rewrite Hne. apply andb_false_r. }
  destruct fuel; simpl; unfold get_blocks; unfold_monad; by rewrite Hcond.
Qed.

(** The whole of a call of [select_blocks] that returns: the grid size is
    read and stored, the class is set, the selection is computed (one fetch
    with its enhancement, then the model calls), the range is shuffled, the
    first loop clicks the selected tiles, and on a 3x3 grid the second loop
    re-examines them. *)
Lemma select_blocks_run fuel s b s' :
  select_blocks fuel s = (Ok b, s') ->
  exists cls blocks s4 s5 result s6 _range s7 url rest,
    grid_size cls = Ok blocks /\
    set_class s4 = (Ok (ocr_class s5), s5) /\
    trace s5 = trace s /\ solver_blocks s5 = blocks /\
    selection blocks (ocr_class s5) s5 = (Ok result, s6) /\
    shuffle (seq 0 (blocks ^ 2)) s6 = (Ok _range, s7) /\
    trace s7 = trace s ++ [EvGet url; EvEnhance]
               ++ replicate (model_calls blocks (ocr_class s5) result) EvYolo /\
    trace s' = trace s ++ [EvGet url; EvEnhance]
               ++ replicate (model_calls blocks (ocr_class s5) result) EvYolo
               ++ click_events (selected_tiles result _range) ++ rest /\
    (b = false <-> selected_tiles result _range = []) /\
    only select_event rest /\
    (blocks <> 3 \/ selected_tiles result _range = [] -> rest = []) /\
    (ocr_class s5 = "" -> selected_tiles result _range = []) /\
    (selected_tiles result _range = [] -> ocr_class s' = ocr_class s5).
Proof.
  unfold select_blocks. intros Hrun.
  apply bind_inv_ok in Hrun as (table & s1 & [_ H1]%visible_ok & Hrun).
  apply bind_inv_ok in Hrun as (cls & s2 & H2%call_ok_quiet & Hrun).
  apply bind_inv_ok in Hrun as (blocks & s3 & Hgrid & Hrun).
  unfold lift in Hgrid. injection Hgrid as Hgrid <-.
  apply bind_inv_ok in Hrun as ([] & s4 & [= <-] & Hrun).
  apply bind_inv_ok in Hrun as (_class & s5 & Hclass & Hrun).
  destruct (set_class_ok _ _ _ Hclass) as (Hc & H5 & Hb5). subst _class.
  simpl in H5, Hb5.
  apply bind_inv_ok in Hrun as (result & s6 & Hsel & Hrun).
  pose proof (selection_keeps solver_blocks blocks (ocr_class s5)
                (fun _ _ _ => eq_refl) s5) as Hb6.
  rewrite Hsel in Hb6. simpl in Hb6.
  destruct (selection_run _ _ _ _ _ Hsel) as (url & H6 & Hnone).
  apply bind_inv_ok in Hrun as (_range & s7 & Hshuffle & Hrun).
  assert (H7 : trace s7 = trace s6 /\ solver_blocks s7 = solver_blocks s6).
  { revert Hshuffle. unfold shuffle, draw.
    destruct (o_shuffle _ _) as [l w]. by intros [= _ <-]. }
  destruct H7 as [H7 Hb7].
  apply bind_inv_ok in Hrun as (clicked & s8 & Hclicks & Hrun).
  pose proof (click_selected_keeps solver_blocks result _range
                (fun _ _ _ => eq_refl) (fun _ _ => eq_refl) s7) as Hb8.
  rewrite Hclicks in Hb8. simpl in Hb8.
  assert (Hc8 : ocr_class s8 = ocr_class s5).
  { pose proof (click_selected_keeps ocr_class result _range
                  (fun _ _ _ => eq_refl) (fun _ _ => eq_refl) s7) as Hc8.
    pose proof (selection_keeps ocr_class blocks (ocr_class s5)
                  (fun _ _ _ => eq_refl) s5) as Hc6.
    rewrite Hclicks in Hc8. rewrite Hsel in Hc6. simpl in Hc8, Hc6.
    rewrite Hc8, <- Hc6. revert Hshuffle. unfold shuffle, draw.
    destruct (o_shuffle _ _) as [l w]. by intros [= _ <-]. }
  apply click_selected_run in Hclicks as [-> H8].
  assert (Hpre : trace s8 = trace s ++ [EvGet url; EvEnhance]
                 ++ replicate (model_calls blocks (ocr_class s5) result) EvYolo
                 ++ click_events (selected_tiles result _range)).
  { rewrite H8, H7, H6, H5, H2, H1, <- !app_assoc. done. }
  assert (Htrace5 : trace s5 = trace s) by congruence.
  assert (Hrest : exists rest,
             trace s' = trace s8 ++ rest /\
             (b = false <-> selected_tiles result _range = []) /\
             only select_event rest /\
             (blocks <> 3 \/ selected_tiles result _range = [] -> rest = []) /\
             (selected_tiles result _range = [] -> s' = s8)).
  { destruct (length (selected_tiles result _range) =? 0) eqn:Hlen.
    - injection Hrun as <- <-. exists [].
      apply Nat.eqb_eq in Hlen. apply nil_length_inv in Hlen.
      by rewrite app_nil_r.
    - apply bind_inv_ok in Hrun as ([] & s9 & Hloop & [= <- <-]).
      destruct (recheck_loop_only fuel (selected_tiles result _range) s8)
        as (_ & rest & Hrest & Honly).
      rewrite Hloop in Hrest. simpl in Hrest.
      apply Nat.eqb_neq in Hlen.
      assert (Hsome : selected_tiles result _range <> []).
      { intros Hnil. by rewrite Hnil in Hlen. }
      exists rest. split; [done|]. split; [done|]. split; [done|].
      split; [|done].
      intros [Hne|Hnil]; [|done].
      rewrite recheck_loop_skip in Hloop by (left; congruence).
      injection Hloop as <-.
      rewrite <- (app_nil_r (trace s8)) in Hrest at 1.
      by apply app_inv_head in Hrest. }
  destruct Hrest as (rest & Hrest & Hb & Honly & Hskip & Hsame).
  exists cls, blocks, (with_blocks blocks s2), s5, result, s6, _range, s7, url, rest.
  split; [done|]. split; [done|]. split; [done|]. split; [done|].
  split; [done|]. split; [done|].
  split; [by rewrite H7, H6, Htrace5|].
  split; [by rewrite Hrest, Hpre, <- !app_assoc|].
  split; [done|]. split; [done|]. split; [done|].
  split; [intros Hempty; by apply Hnone|].
  intros Hnil. by rewrite (Hsame Hnil).
Qed.

(** *** What the buttons and a completed iteration log *)

Lemma open_challenge_ok_trace s s' :
  open_challenge s = (Ok tt, s') ->
  trace s' = trace s ++ [EvSleep; EvClick XAnchor].
Proof.
  unfold open_challenge. intros Hrun.
  apply bind_inv_ok in Hrun as (frame & s1 & [_ H1]%visible_ok & Hrun).
  apply bind_inv_ok in Hrun as ([] & s2 & H2%call_ok_quiet & Hrun).
  apply bind_inv_ok in Hrun as (anchor & s3 & [-> H3]%visible_ok & Hrun).
  apply bind_inv_ok in Hrun as ([] & s4 & H4%human_click_ok_trace & Hrun).
  apply bind_inv_ok in Hrun as ([] & s5 & H5%call_ok_quiet & Hrun).
  apply bind_inv_ok in Hrun as (challenge & s6 & [_ H6]%visible_ok & Hrun).
  apply call_ok_quiet in Hrun. congruence.
Qed.

Lemma confirm_ok_trace s s' :
  confirm s = (Ok tt, s') ->
  trace s' = trace s ++ [EvSleep; EvSleep; EvClick XVerifyButton].
Proof.
  unfold confirm. intros Hrun.
  apply bind_inv_ok in Hrun as ([] & s1 & H1%call_ok_trace & Hrun).
  apply bind_inv_ok in Hrun as (button & s2 & [-> H2]%visible_ok & Hrun).
  apply human_click_ok_trace in Hrun.
  rewrite Hrun, H2, H1, <- app_assoc. done.
Qed.

Lemma reload_ok_trace s s' :
  reload s = (Ok tt, s') -> trace s' = trace s ++ reload_events.
Proof.
  unfold reload. intros Hrun.
  apply bind_inv_ok in Hrun as ([] & s1 & H1%call_ok_trace & Hrun).
  apply bind_inv_ok in Hrun as (t & s2 & H2%call_ok_quiet & Hrun).
  apply bind_inv_ok in Hrun as (button & s3 & [-> H3]%visible_ok & Hrun).
  apply bind_inv_ok in Hrun as ([] & s4 & H4%human_click_ok_trace & Hrun).
  apply call_ok_quiet in Hrun.
  rewrite Hrun, H4, H3, H2, H1, <- app_assoc. done.
Qed.

Lemma check_children_ok_trace children s s' :
  check_children children s = (Ok tt, s') ->
  trace s' = trace s \/ trace s' = trace s ++ reload_events.
Proof.
  revert s. induction children as [|i rest IH]; intros s; simpl.
  - intros [= <-]. by left.
  - intros (style & s1 & H1%call_ok_quiet & Hrun)%bind_inv_ok.
    destruct (negb (py_contains "none" style)).
    + apply reload_ok_trace in Hrun. right. by rewrite Hrun, H1.
    + apply IH in Hrun. by rewrite H1 in Hrun.
Qed.

Lemma check_error_ok_trace s s' :
  check_error s = (Ok tt, s') ->
  trace s' = trace s ++ [EvFindElements XErrorArea] \/
  trace s' = trace s ++ [EvFindElements XErrorArea] ++ reload_events.
Proof.
  unfold check_error. intros Hrun.
  apply bind_inv_ok in Hrun as (area & s1 & [-> H1]%visible_ok & Hrun).
  apply bind_inv_ok in Hrun as (n & s2 & H2%call_ok_trace & Hrun).
  apply check_children_ok_trace in Hrun as [Hrun|Hrun]; [left|right];
    rewrite Hrun, H2, H1, <- ?app_assoc; done.
Qed.

(** The whole of an iteration that completes without leaving the loop. *)
Lemma solve_body_run fuel s s' :
  solve_body fuel s = (Ok false, s') ->
  exists s1 s2 b s3 poll,
    challenge_opened s = (Ok true, s1) /\
    sleep (with_start (Some None) s1) = (Ok tt, s2) /\
    trace s2 = trace s ++ [EvSleep] /\
    select_blocks fuel s2 = (Ok b, s3) /\
    trace s' = trace s3 ++ poll /\
    poll_events (ocr_class s3) poll.
Proof.
  unfold solve_body. intros Hrun.
  apply bind_inv_ok in Hrun as (opened & s1 & Hprobe & Hrun).
  pose proof (silent_challenge_opened s) as H1.
  rewrite Hprobe, app_nil_r in H1. simpl in H1.
  destruct opened; simpl in Hrun; [|by injection Hrun].
  apply bind_inv_ok in Hrun as ([] & s1' & [= <-] & Hrun).
  apply bind_inv_ok in Hrun as ([] & s2 & Hsleep & Hrun).
  pose proof (call_ok_trace _ _ _ _ _ Hsleep) as H2. simpl in H2.
  apply bind_inv_ok in Hrun as (b & s3 & Hselect & Hrun).
  apply bind_inv_ok in Hrun as (c & s3' & [= <- <-] & Hrun).
  apply bind_inv_ok in Hrun as ([] & s4 & Hpoll & [= <-]).
  exists s1, s2, b, s3.
  assert (Hshape : exists poll,
             trace s4 = trace s3 ++ poll /\ poll_events (ocr_class s3) poll).
  { unfold poll_events. destruct (decide (ocr_class s3 = "")) as [Hc|Hc].
    - rewrite bool_decide_eq_true_2 in Hpoll by done. simpl in Hpoll.
      apply reload_ok_trace in Hpoll. exists reload_events. auto.
    - rewrite bool_decide_eq_false_2 in Hpoll by done. simpl in Hpoll.
      apply bind_inv_ok in Hpoll as ([] & s5 & H5%confirm_ok_trace & Hpoll).
      apply check_error_ok_trace in Hpoll as [Hpoll|Hpoll].
      + exists verify_events. split; [|auto].
        rewrite Hpoll, H5, <- app_assoc. done.
      + exists (verify_events ++ reload_events). split; [|auto].
        rewrite Hpoll, H5, <- !app_assoc. done. }
  destruct Hshape as (poll & Hpoll' & Hshape). exists poll.
  split; [done|]. split; [done|]. split; [by rewrite H2, H1|]. done.
Qed.

Lemma iteration_run fuel s s' :
  solve_body fuel s = (Ok false, s') ->
  exists s1 s2 b s3 blocks s5 result s6 _range s7 url rest poll,
    challenge_opened s = (Ok true, s1) /\
    select_blocks fuel s2 = (Ok b, s3) /\
    solver_blocks s5 = blocks /\
    selection blocks (ocr_class s5) s5 = (Ok result, s6) /\
    shuffle (seq 0 (blocks ^ 2)) s6 = (Ok _range, s7) /\
    trace s' = trace s
               ++ iteration_events blocks (ocr_class s5) result _range url rest poll /\
    (b = false <-> selected_tiles result _range = []) /\
    only select_event rest /\
    (blocks <> 3 \/ selected_tiles result _range = [] -> rest = []) /\
    (ocr_class s5 = "" -> selected_tiles result _range = []) /\
    poll_events (ocr_class s3) poll /\
    (selected_tiles result _range = [] -> ocr_class s3 = ocr_class s5).
Proof.
  intros (s1 & s2 & b & s3 & poll & Hprobe & _ & H2 & Hselect & Hpoll & Hshape)
    %solve_body_run.
  destruct (select_blocks_run _ _ _ _ Hselect)
    as (cls & blocks & s4 & s5 & result & s6 & _range & s7 & url & rest
        & _ & _ & _ & Hb5 & Hsel & Hshuffle & _ & H3 & Hb & Honly & Hskip & Hnone
        & Hsame).
  exists s1, s2, b, s3, blocks, s5, result, s6, _range, s7, url, rest, poll.
  repeat (split; [done|]).
  split; [|done].
  unfold iteration_events. rewrite Hpoll, H3, H2, <- !app_assoc. done.
Qed.

Lemma tile_clicks_app a b : tile_clicks (a ++ b) = tile_clicks a ++ tile_clicks b.
Proof. apply omap_app. Qed.

Lemma detect_no_tile_click evs : only detect_event evs -> tile_clicks evs = [].
Proof.
  unfold only. induction evs as [|ev evs IH]; [done|]. simpl.
  intros [Hev Hall]%andb_true_iff. destruct ev; try done; by apply IH.
Qed.

Lemma tile_clicks_click_events clicked : tile_clicks (click_events clicked) = clicked.
Proof. induction clicked as [|p clicked IH]; [done|]. simpl. by rewrite IH. Qed.

Lemma only_detect_selection url n :
  only detect_event ([EvGet url; EvEnhance] ++ replicate n EvYolo).
Proof.
  unfold only. rewrite forallb_app. simpl.
  induction n as [|n IH]; [done|]. apply IH.
Qed.


(** *** The pieces of [solve] *)

Lemma select_event_solver ev : select_event ev = true -> solver_event ev = true.
Proof. destruct ev as [|x| | | |x| |]; try done. by destruct x. Qed.

Lemma reload_only : browses (only solver_event) reload.
Proof.
  unfold reload, sleep, token, until_token_differs.
  repeat first [only_step | by apply human_click_only].
Qed.

Lemma confirm_only : browses (only solver_event) confirm.
Proof.
  unfold confirm, sleep.
  repeat first [only_step | by apply human_click_only].
Qed.

Lemma open_challenge_only : browses (only solver_event) open_challenge.
Proof.
  unfold open_challenge, switch_frame, switch_default.
  repeat first [only_step | by apply human_click_only].
Qed.

Lemma challenge_opened_only ok : browses (only ok) challenge_opened.
Proof.
  unfold challenge_opened, switch_frame, switch_default, get_attribute.
  repeat only_step.
Qed.

Lemma check_children_only children :
  browses (only solver_event) (check_children children).
Proof.
  induction children as [|i rest IH]; simpl; unfold get_attribute;
    repeat first [only_step | apply reload_only | apply IH].
Qed.

Lemma check_error_only : browses (only solver_event) check_error.
Proof.
  unfold check_error, find_elements.
  repeat first [only_step | apply check_children_only].
Qed.

Lemma solve_body_only fuel : browses (only solver_event) (solve_body fuel).
Proof.
  unfold solve_body, sleep.
  repeat first
    [ only_step | apply challenge_opened_only | apply confirm_only
    | apply check_error_only | apply reload_only
    | apply (browses_conseq (only select_event));
        [intros evs; apply only_weaken, select_event_solver
        |apply select_blocks_only] ].
Qed.

Lemma solve_step_only fuel failed :
  browses (only solver_event) (solve_step fuel failed).
Proof.
  unfold solve_step.
  repeat first [only_step | apply solve_body_only | apply challenge_opened_only].
Qed.

Lemma solve_loop_only fuel failed :
  browses (only solver_event) (solve_loop fuel failed).
Proof.
  revert failed. induction fuel as [|fuel IH]; intros failed; simpl;
    unfold out_of_fuel;
    repeat first [only_step | apply solve_step_only | apply IH].
Qed.

(** X2. Whatever the page does and however it ends (a result, an exception
    of [open_challenge], or the loop still running), [solve] changes no
    file on disk, prints nothing, and the only calls it logs are waits,
    image downloads, calls of the two networks, the listing of the error
    area, and clicks on the checkbox, on tiles, on the verify button and on
    the reload button. *)
Theorem solve_footprint (fuel : nat) s :
  files (solve fuel s).2 = files s /\
  exists evs,
    trace (solve fuel s).2 = trace s ++ evs /\
    forall ev, ev ∈ evs ->
      match ev with
      | EvSleep | EvGet _ | EvEnhance | EvYolo => True
      | EvClick x =>
          x = XAnchor \/ x = XVerifyButton \/ x = XReloadButton \/
          exists p, x = XTile p
      | EvFindElements x => x = XErrorArea
      | EvPrint _ | EvOpen _ => False
      end.
Proof.
  assert (Hsolve : browses (only solver_event) (solve fuel)).
  { unfold solve.
    repeat first [only_step | apply open_challenge_only | apply solve_loop_only]. }
  destruct (Hsolve s) as (Hfiles & evs & Ht & Honly).
  split; [done|]. exists evs. split; [done|].
  intros ev Hin. unfold only in Honly. rewrite forallb_forall in Honly.
  apply list_elem_of_In, Honly in Hin.
  destruct ev as [|x| | | |x| |]; try done; destruct x; try done; eauto.
Qed.

(** *** Counting the clicks on the verify and on the reload button *)

Lemma clicks_on_app x a b : clicks_on x (a ++ b) = clicks_on x a + clicks_on x b.
Proof. unfold clicks_on. by rewrite filter_app, length_app. Qed.

Lemma only_no_click ok x evs :
  ok (EvClick x) = false -> only ok evs -> clicks_on x evs = 0.
Proof.
  unfold only, clicks_on. intros Hx. induction evs as [|ev evs IH]; [done|].
  simpl. intros [Hev Hall]%andb_true_iff.
  rewrite filter_cons_False; [by apply IH|]. intros ->. congruence.
Qed.

Lemma polls_app v1 r1 v2 r2 a b :
  polls v1 r1 a -> polls v2 r2 b -> polls (v1 + v2) (r1 + r2) (a ++ b).
Proof. unfold polls. rewrite !clicks_on_app. lia. Qed.

Lemma polls_nil v r : polls v r [].
Proof. unfold polls, clicks_on. simpl. lia. Qed.

Lemma polls_quiet {A} ok (m : @M W A) :
  ok (EvClick XVerifyButton) = false -> ok (EvClick XReloadButton) = false ->
  browses (only ok) m -> browses (polls 0 0) m.
Proof.
  intros Hv Hr. apply browses_conseq. intros evs Hevs. unfold polls.
  by rewrite (only_no_click ok _ _ Hv Hevs), (only_no_click ok _ _ Hr Hevs).
Qed.

Lemma polls_before {A B} v r (m : @M W A) (f : A -> @M W B) :
  browses (polls 0 0) m -> (forall a, browses (polls v r) (f a)) ->
  browses (polls v r) (m ≫= f).
Proof.
  apply browses_bind.
  - intros a b Ha Hb. apply (polls_app 0 0 v r); done.
  - unfold polls. intros a. lia.
Qed.

Lemma polls_after {A B} v r (m : @M W A) (f : A -> @M W B) :
  browses (polls v r) m -> (forall a, browses (polls 0 0) (f a)) ->
  browses (polls v r) (m ≫= f).
Proof.
  apply browses_bind; [|done].
  intros a b Ha Hb. pose proof (polls_app v r 0 0 a b Ha Hb) as Hab.
  by rewrite !Nat.add_0_r in Hab.
Qed.

Lemma polls_visible_bind {B} v r x (f : xpath -> @M W B) :
  browses (polls v r) (f x) -> browses (polls v r) (visible x ≫= f).
Proof.
  intros Hf s.
  destruct (only_visible (fun _ => false) x s) as (Hfiles & evs & Ht & Hnone).
  assert (evs = []) as -> by (by destruct evs).
  rewrite app_nil_r in Ht.
  unfold_monad. destruct (visible x s) as [[el|e|] s1] eqn:Hvis; simpl in *.
  - apply visible_returns in Hvis as ->.
    destruct (Hf s1) as (Hfiles2 & evs2 & Ht2 & HP2).
    split; [congruence|]. exists evs2. split; [by rewrite Ht2, Ht|done].
  - split; [done|]. exists []. split; [by rewrite app_nil_r|apply polls_nil].
  - split; [done|]. exists []. split; [by rewrite app_nil_r|apply polls_nil].
Qed.

(** A click that is made is made once. *)
Lemma human_click_once x :
  browses (fun evs => evs = [EvSleep] \/ evs = [EvSleep; EvClick x]) (human_click x).
Proof.
  intros s. destruct (human_click_after_move x s) as [-> Ht].
  destruct (human_click_move_only (fun _ => false) x 25 s) as (Hfiles & _).
  revert Ht Hfiles. generalize (human_click_move x 25 s).2. intros s1 Ht Hfiles.
  rewrite <- Ht, <- Hfiles. clear.
  unfold sleep, click, call. unfold_monad.
  destruct (o_wait (world s1)) as [[e|[]] w]; simpl.
  - split; [done|]. exists [EvSleep]. auto.
  - destruct (o_click x w) as [[e|[]] w']; simpl;
      (split; [done|]; exists [EvSleep; EvClick x]; by rewrite <- app_assoc; auto).
Qed.

Lemma polls_one_click x v r :
  clicks_on XVerifyButton [EvClick x] <= v ->
  clicks_on XReloadButton [EvClick x] <= r ->
  browses (polls v r) (human_click x).
Proof.
  intros Hv Hr. eapply browses_conseq; [|apply human_click_once].
  assert (Hsleep : polls 0 0 [EvSleep]).
  { unfold polls, clicks_on. rewrite !filter_cons_False by done. simpl. lia. }
  intros evs [->| ->].
  - unfold polls in *. lia.
  - change [EvSleep; EvClick x] with ([EvSleep] ++ [EvClick x]).
    by apply (polls_app 0 0 v r).
Qed.


Lemma clicks_on_other x y : x <> y -> clicks_on x [EvClick y] = 0.
Proof.
  intros Hne. unfold clicks_on. rewrite filter_cons_False; [done|]. congruence.
Qed.

Lemma clicks_on_single x ev : clicks_on x [ev] <= 1.
Proof.
  unfold clicks_on. destruct (decide (ev = EvClick x)).
  - by rewrite filter_cons_True.
  - rewrite filter_cons_False by done. simpl. lia.
Qed.

Ltac quiet :=
  apply (polls_quiet no_poll_click); [reflexivity|reflexivity|];
  unfold sleep, token, until_token_differs, get_attribute, find_elements;
  repeat only_step.

Lemma reload_polls : browses (polls 0 1) reload.
Proof.
  unfold reload.
  apply polls_before; [quiet|intros _].
  apply polls_before; [quiet|intros t].
  apply polls_visible_bind.
  apply polls_after; [|intros _; quiet].
  apply polls_one_click; [by rewrite clicks_on_other|apply clicks_on_single].
Qed.

Lemma confirm_polls : browses (polls 1 0) confirm.
Proof.
  unfold confirm.
  apply polls_before; [quiet|intros _].
  apply polls_visible_bind.
  apply polls_one_click; [apply clicks_on_single|by rewrite clicks_on_other].
Qed.

Lemma check_children_polls children : browses (polls 0 1) (check_children children).
Proof.
  induction children as [|i rest IH]; simpl.
  - apply browses_ret, polls_nil.
  - apply polls_before; [quiet|intros style].
    destruct (negb (py_contains "none" style)); [apply reload_polls|apply IH].
Qed.

Lemma check_error_polls : browses (polls 0 1) check_error.
Proof.
  unfold check_error. apply polls_visible_bind.
  apply polls_before; [quiet|intros n]. apply check_children_polls.
Qed.

Lemma no_poll_click_select ev : select_event ev = true -> no_poll_click ev = true.
Proof. destruct ev as [|x| | | |x| |]; try done. by destruct x. Qed.

(** X3. In one pass of the loop of [solve], however it ends, the verify
    button is clicked at most once and the reload button at most once;
    [check_error] stops at the first displayed error, so it reloads at most
    once, and [select_blocks] clicks neither button. *)
Theorem solve_body_polls_once (fuel : nat) :
  browses (polls 1 1) (solve_body fuel) /\
  browses (polls 0 1) check_error /\
  browses (polls 0 0) (select_blocks fuel).
Proof.
  assert (Hselect : browses (polls 0 0) (select_blocks fuel)).
  { apply (polls_quiet no_poll_click); [done|done|].
    apply (only_sub select_event); [apply no_poll_click_select|].
    apply select_blocks_only. }
  split; [|split; [apply check_error_polls|done]].
  unfold solve_body.
  apply polls_before.
  { apply (polls_quiet no_poll_click); [done|done|apply challenge_opened_only]. }
  intros opened. destruct (negb opened); [apply browses_ret, polls_nil|].
  apply polls_before; [quiet|intros _].
  apply polls_before; [quiet|intros _].
  apply polls_before; [done|intros _].
  apply polls_before; [quiet|intros c].
  apply polls_after; [|intros _; quiet].
  destruct (negb (bool_decide (c = ""))).
  - apply (browses_bind (polls 1 0) (polls 0 1)).
    + intros a b. apply (polls_app 1 0 0 1).
    + unfold polls. intros a. lia.
    + apply confirm_polls.
    + intros _. apply check_error_polls.
  - eapply browses_conseq; [|apply reload_polls]. unfold polls. intros evs. lia.
Qed.

(** ** [human_click]: the remembered start *)

Lemma call_start {A} evs (o : W -> (exn + A) * W) s :
  actions_start (call evs o s).2 = actions_start s.
Proof. unfold call. by destruct (o (world s)) as [[e|a] w]. Qed.

Lemma draw_start {A} (o : W -> A * W) s :
  actions_start (draw o s).2 = actions_start s /\ exists a, (draw o s).1 = Ok a.
Proof. unfold draw. destruct (o (world s)) as [a w]. eauto. Qed.

(** X4. The movement part of [human_click] never gets past its first
    assignment: it raises [AttributeError] while [actions.start] was never
    assigned, [ValueError] when it is [None], and in no case is
    [actions.start] assigned; so [human_click] leaves [actions.start] as it
    found it and the pointer is never moved along the curve. *)
Theorem human_click_never_sets_start (x : xpath) s :
  actions_start (human_click x s).2 = actions_start s /\
  exists e s1,
    human_click_move x 25 s = (Raise e, s1) /\
    actions_start s1 = actions_start s /\
    (actions_start s = None -> e = AttributeError /\ s1 = s) /\
    (actions_start s = Some None -> e = ValueError).
Proof.
  assert (Hmove : exists e s1,
             human_click_move x 25 s = (Raise e, s1) /\
             actions_start s1 = actions_start s /\
             (actions_start s = None -> e = AttributeError /\ s1 = s) /\
             (actions_start s = Some None -> e = ValueError)).
  { unfold human_click_move, get_start, unpack3, randint, location, call, draw.
    unfold_monad.
    destruct (actions_start s) as [[e0|]|] eqn:Hst; simpl.
    - destruct (o_location e0 (world s)) as [[e|a] w]; simpl.
      + eexists _, _. split; [reflexivity|]. simpl. by rewrite Hst.
      + destruct (o_location e0 w) as [[e|b] w']; simpl;
          eexists _, _; (split; [reflexivity|]); simpl; by rewrite Hst.
    - destruct (o_randint 30 60 (world s)) as [a w]; simpl.
      destruct (o_randint 30 60 w) as [b w']; simpl.
      eexists _, _. split; [reflexivity|]. simpl. by rewrite Hst.
    - eexists _, _. split; [reflexivity|]. by rewrite Hst. }
  split; [|done].
  destruct Hmove as (e & s1 & Hmove & Hstart & _).
  destruct (human_click_after_move x s) as [-> _]. rewrite Hmove. simpl.
  unfold sleep, click. unfold_monad.
  pose proof (call_start [EvSleep] o_wait s1) as H1.
  destruct (call [EvSleep] o_wait s1) as [[[]|e1|] s2]; simpl in *; try congruence.
  rewrite call_start. congruence.
Qed.

(** ** [set_class] *)

Lemma set_class_as_filter :
  set_class = (items ← classes_json;
               keys ← for_each class_filter [] items;
               let c := match keys with k :: _ => k | [] => "" end in
               set_class_field c;; ret c).
Proof. reflexivity. Qed.

Lemma class_filter_step acc (item : string * list string) s :
  ocr_class (class_filter acc item s).2 = ocr_class s /\
  match (class_filter acc item s).1 with
  | Ok acc' => acc' = acc \/ acc' = acc ++ [item.1]
  | Raise _ => True
  | OutOfFuel => False
  end.
Proof.
  unfold class_filter, visible, text, call. unfold_monad.
  destruct (o_visible XDescription (world s)) as [[e|[]] w]; simpl; [done|].
  destruct (o_text XDescription w) as [[e|t] w']; simpl; [done|].
  split; [done|]. destruct (bool_decide (t ∈ item.2)); auto.
Qed.

Lemma class_filter_loop (items : list (string * list string)) acc s :
  (for_each class_filter acc items s).1 <> OutOfFuel /\
  ocr_class (for_each class_filter acc items s).2 = ocr_class s /\
  forall keys, (for_each class_filter acc items s).1 = Ok keys ->
    forall k, k ∈ keys -> k ∈ acc \/ k ∈ map fst items.
Proof.
  revert acc s. induction items as [|item items IH]; intros acc s.
  { simpl. split; [done|]. split; [done|]. intros keys [= <-] k Hk. by left. }
  rewrite for_each_cons.
  destruct (class_filter_step acc item s) as [Hclass Hstep].
  destruct (class_filter acc item s) as [[acc'|e|] s1] eqn:Hrun; simpl in *.
  - rewrite (bind_ok _ _ _ _ _ Hrun).
    destruct (IH acc' s1) as (Hfuel & Hclass' & Hkeys).
    split; [done|]. split; [congruence|].
    intros keys Hok k Hk. destruct (Hkeys keys Hok k Hk) as [Hacc|Hin].
    + destruct Hstep as [->| ->]; [by left|].
      apply elem_of_app in Hacc as [Hacc|Hnew]; [by left|].
      apply list_elem_of_singleton in Hnew as ->. right. left.
    + right. by right.
  - rewrite (bind_raise _ _ _ _ _ Hrun). simpl. done.
  - done.
Qed.

(** X5. When [set_class] returns, the class it returns is the one it stored
    in [ocr._class]; it is the empty string or a key of classes.json; the
    call logs nothing and writes no file.  When it raises, [ocr._class]
    keeps the class of the previous challenge. *)
Theorem set_class_stores_result s :
  match set_class s with
  | (Ok c, s') =>
      ocr_class s' = c /\ trace s' = trace s /\ files s' = files s /\
      (c = "" \/
       exists items s1, classes_json s = (Ok items, s1) /\ c ∈ map fst items)
  | (Raise _, s') =>
      ocr_class s' = ocr_class s /\ trace s' = trace s /\ files s' = files s
  | (OutOfFuel, _) => False
  end.
Proof.
  destruct (set_class_only (fun _ => false) s) as (Hfiles & evs & Ht & Hnone).
  assert (evs = []) as -> by (by destruct evs). rewrite app_nil_r in Ht.
  revert Hfiles Ht. rewrite set_class_as_filter. unfold classes_json.
  pose proof (call_never_out_of_fuel [] o_classes_json s) as Hfuel.
  assert (Hcall : ocr_class (call [] o_classes_json s).2 = ocr_class s).
  { unfold call. by destruct (o_classes_json (world s)) as [[e|a] w]. }
  unfold_monad.
  destruct (call [] o_classes_json s) as [[items|e|] s1] eqn:Hitems;
    simpl in *; [|done|done].
  destruct (class_filter_loop items [] s1) as (Hfuel' & Hclass & Hkeys).
  destruct (for_each class_filter [] items s1) as [[keys|e|] s2] eqn:Hrun;
    simpl in *; [| |done].
  - intros Hfiles Ht. split; [done|]. split; [done|]. split; [done|].
    destruct keys as [|k keys]; [by left|]. right. exists items, s1.
    split; [done|].
    destruct (Hkeys _ eq_refl k) as [Hnil|Hin]; [left|by inversion Hnil|done].
  - intros Hfiles Ht. split; [congruence|done].
Qed.

(** ** [download_models]: one download *)

(** X6. For a model whose file is missing, a download that completes leaves
    the file with the bytes the stream delivered.  A download that raises
    either wrote nothing (the request failed, the response has no
    Content-Length, or the file could not be opened) or the stream broke:
    then the file is left with the bytes received so far, and a later run
    takes it for the downloaded model and does nothing. *)
Theorem download_model_outcomes (url path model : string) s :
  files s !! abspath path = None ->
  match download_model (url, path, model) s with
  | (Ok _, s') =>
      exists request s1,
        http_get (repository_url +:+ url)
                 (print ("Downloading " +:+ model +:+ " pre-trained file.") s).2
        = (Ok request, s1) /\
        raw_error request = None /\
        files s' = <[abspath path := raw request]> (files s)
  | (Raise e, s') =>
      files s' = files s \/
      exists request s1,
        http_get (repository_url +:+ url)
                 (print ("Downloading " +:+ model +:+ " pre-trained file.") s).2
        = (Ok request, s1) /\
        raw_error request = Some e /\
        files s' = <[abspath path := raw request]> (files s) /\
        download_model (url, path, model) s' = (Ok tt, s')
  | (OutOfFuel, _) => False
  end.
Proof.
  intros Hmissing.
  assert (Hlater : forall s', is_Some (files s' !! abspath path) ->
                     download_model (url, path, model) s' = (Ok tt, s')).
  { intros s'. apply download_model_cached. }
  revert Hlater. generalize (download_model (url, path, model)) at 1 3.
  intros later Hlater.
  set (msg := ("Downloading " +:+ model +:+ " pre-trained file.")).
  unfold download_model.
  assert (Hex : exists_ (abspath path) s = (Ok false, s)).
  { unfold exists_. rewrite bool_decide_eq_false_2; [done|].
    rewrite Hmissing. by intros [? ?]. }
  rewrite (bind_ok _ _ _ _ _ Hex). cbn [negb].
  assert (Hpr : print msg s = (Ok tt, (print msg s).2)) by done.
  rewrite (bind_ok _ _ _ _ _ Hpr).
  assert (Hfiles0 : files (print msg s).2 = files s) by done.
  revert Hfiles0. generalize ((print msg s).2). intros s0 Hfiles0.
  pose proof (call_never_out_of_fuel [EvGet (repository_url +:+ url)]
                (o_http_get (repository_url +:+ url)) s0) as Hfuel.
  assert (Hfiles1 : files (http_get (repository_url +:+ url) s0).2 = files s0).
  { unfold http_get, call. by destruct (o_http_get _ _) as [[?|?] ?]. }
  fold (http_get (repository_url +:+ url)) in Hfuel.
  destruct (http_get (repository_url +:+ url) s0) as [[request|e|] s1] eqn:Hget;
    simpl in Hfuel, Hfiles1; [| |done].
  2: { rewrite (bind_raise _ _ _ _ _ Hget). left. congruence. }
  rewrite (bind_ok _ _ _ _ _ Hget).
  destruct (content_length request) as [len|]; [|left; simpl; congruence].
  unfold open_wb, copyfileobj, put_file, print, call. unfold_monad.
  destruct (o_open_wb (abspath path) (world s1)) as [[e|[]] w']; simpl;
    [left; congruence|].
  destruct (raw_error request) as [e|] eqn:Herr; simpl.
  - right. exists request. eexists. split; [reflexivity|]. split; [done|].
    split; [by rewrite insert_insert_eq, Hfiles1, Hfiles0|].
    apply Hlater. simpl. rewrite insert_insert_eq, lookup_insert_eq.
    by eexists.
  - exists request. eexists. split; [reflexivity|]. split; [done|].
    by rewrite insert_insert_eq, Hfiles1, Hfiles0.
Qed.

(** ** [select_blocks]: the rounds of the second loop *)

Lemma recheck_appends clicked p s clicked' s' :
  recheck clicked p s = (Ok clicked', s') ->
  clicked' = clicked \/ clicked' = clicked ++ [p].
Proof.
  unfold recheck. intros Hrun.
  apply bind_inv_ok in Hrun as (_class & s1 & _ & Hrun).
  apply bind_inv_ok in Hrun as (settled & s2 & _ & Hrun).
  apply bind_inv_ok in Hrun as (img & s3 & _ & Hrun).
  apply bind_inv_ok in Hrun as (cls & s4 & _ & Hrun).
  destruct (negb (py_contains "11" cls)); [left; by injection Hrun|].
  apply bind_inv_ok in Hrun as (image & s5 & _ & Hrun).
  apply bind_inv_ok in Hrun as (results & s6 & _ & Hrun).
  apply bind_inv_ok in Hrun as (hit & s7 & _ & Hrun).
  destruct hit; [|left; by injection Hrun].
  apply bind_inv_ok in Hrun as (el & s8 & _ & Hrun).
  apply bind_inv_ok in Hrun as ([] & s9 & _ & Hrun).
  right. by injection Hrun.
Qed.

Lemma recheck_round acc clicked s clicked' s' :
  for_each recheck acc clicked s = (Ok clicked', s') ->
  exists again, clicked' = acc ++ again /\ sublist again clicked.
Proof.
  revert acc s. induction clicked as [|p clicked IH]; intros acc s; simpl.
  - intros [= <- <-]. exists []. by rewrite app_nil_r.
  - intros (acc' & s1 & Hone & Hrest)%bind_inv_ok.
    apply IH in Hrest as (again & -> & Hsub).
    apply recheck_appends in Hone as [->| ->].
    + exists again. split; [done|]. by apply sublist_cons.
    + exists (p :: again). split; [by rewrite <- app_assoc|]. by apply sublist_skip.
Qed.


(** ** [object_coordinates]: which cells are selected *)

Lemma index_table_lookup (a b i : Z) :
  index_table !! (a, b) = Some i ->
  (1 <= a <= 4 /\ 1 <= b <= 4 /\ i = (a - 1) * 4 + b)%Z.
Proof.
  unfold index_table. intros Hin%elem_of_list_to_map_2.
  elem_cases Hin; injection Hin as -> -> ->; lia.
Qed.

Lemma table_index_inv (x y i : Z) :
  table_index (x, y) = Ok i ->
  (1 <= or_one x <= 4 /\ 1 <= or_one y <= 4 /\
   i = (or_one y - 1) * 4 + or_one x)%Z.
Proof.
  unfold table_index. simpl.
  destruct (index_table !! (or_one y, or_one x)) as [j|] eqn:Hj; [|done].
  intros [= <-]. apply index_table_lookup in Hj. lia.
Qed.

Lemma res_map_m_inv {A B} (f : A -> res B) (l : list A) ys :
  res_map_m f l = Ok ys -> Forall2 (fun x y => f x = Ok y) l ys.
Proof.
  revert ys. induction l as [|x l IH]; intros ys; simpl.
  - intros [= <-]. constructor.
  - destruct (f x) as [y|e|] eqn:Hx; simpl; [|done|done].
    destruct (res_map_m f l) as [ys'|e|]; simpl; [|done|done].
    intros [= <-]. constructor; [done|by apply IH].
Qed.

Lemma grid_answer_marks chunk_number cells answer :
  grid_answer chunk_number cells = Ok answer ->
  forall number,
    answer !! number = Some true <->
    number < Z.to_nat (chunk_number ^ 2) /\
    exists x y,
      (x, y) ∈ cells /\
      (Z.of_nat number + 1 = (or_one y - 1) * 4 + or_one x)%Z.
Proof.
  unfold grid_answer. intros Hanswer%res_map_m_inv number. split.
  - intros Htrue.
    destruct (Forall2_lookup_r _ _ _ _ _ Hanswer Htrue) as (n & Hn & Hrow).
    apply lookup_seq in Hn as [-> Hlt]. split; [done|].
    destruct (res_map_m table_index (remove_dups cells)) as [indices|e|] eqn:Hind;
      simpl in Hrow; [|done|done].
    injection Hrow as Hmem. apply bool_decide_eq_true in Hmem.
    apply list_elem_of_lookup in Hmem as [i Hi].
    apply res_map_m_inv in Hind.
    destruct (Forall2_lookup_r _ _ _ _ _ Hind Hi) as ([x y] & Hcell & Hidx).
    exists x, y. split.
    + rewrite <- elem_of_remove_dups. by apply list_elem_of_lookup_2 in Hcell.
    + apply table_index_inv in Hidx. lia.
  - intros (Hlt & x & y & Hcell & Hidx).
    assert (Hn : seq 0 (Z.to_nat (chunk_number ^ 2)) !! number = Some number).
    { by apply lookup_seq. }
    destruct (Forall2_lookup_l _ _ _ _ _ Hanswer Hn) as (b & Hb & Hrow).
    rewrite Hb. f_equal.
    destruct (res_map_m table_index (remove_dups cells)) as [indices|e|] eqn:Hind;
      simpl in Hrow; [|done|done].
    injection Hrow as <-. apply bool_decide_eq_true.
    apply res_map_m_inv in Hind.
    rewrite <- elem_of_remove_dups in Hcell.
    apply list_elem_of_lookup in Hcell as [i Hi].
    destruct (Forall2_lookup_l _ _ _ _ _ Hind Hi) as (j & Hj & Htable).
    apply table_index_inv in Htable as (_ & _ & ->).
    rewrite Hidx. by apply list_elem_of_lookup_2 in Hj.
Qed.

Lemma elem_of_coordinate_cells (c0 c1 c2 c3 x y : Z) :
  (x, y) ∈ coordinate_cells (c0, c1, c2, c3) <->
  (c0 <= x <= c2 /\ c1 <= y <= c3)%Z.
Proof.
  unfold coordinate_cells. rewrite elem_of_py_product, !elem_of_py_range. lia.
Qed.

(** In the model, [_result] is the pairs of the scaled boxes, in order. *)
Lemma collect_cells_flat height chunk_number boxes acc cells :
  collect_cells height chunk_number boxes acc = Ok cells ->
  exists coordinates,
    length coordinates = length boxes /\
    cells = acc ++ flat_map coordinate_cells coordinates.
Proof.
  revert acc. induction boxes as [|[[[x0 y0] x1] y1] boxes IH]; intros acc;
    cbn [collect_cells].
  - intros [= <-]. exists []. by rewrite app_nil_r.
  - unfold box_cells.
    destruct (scale height chunk_number x0) as [c0|e|]; simpl; [|done|done].
    destruct (scale height chunk_number y0) as [c1|e|]; simpl; [|done|done].
    destruct (scale height chunk_number x1) as [c2|e|]; simpl; [|done|done].
    destruct (scale height chunk_number y1) as [c3|e|]; simpl; [|done|done].
    intros (coordinates & Hlen & ->)%IH.
    exists ((c0, c1, c2, c3) :: coordinates). simpl.
    split; [by rewrite Hlen|]. by rewrite <- app_assoc.
Qed.

(** X8. The last two steps of [object_coordinates] work on integers: from
    the lists [coordinate] of four scaled integers, one per detection of
    the target class (whatever the rounding made of them), they build
    [_result] and the answer.  When they complete, the cell at position
    [number] of the answer is [True] exactly when [number] is below
    [chunk_number] squared and some [coordinate] has a pair [(x, y)], [x]
    from [coordinate[0]] to [coordinate[2]] and [y] from [coordinate[1]] to
    [coordinate[3]], with [number + 1 = (y - 1) * 4 + x], zero counted as
    one: the cells are numbered by rows of four, whatever [chunk_number]
    is. *)
Theorem cells_to_click_marks (chunk_number : Z)
    (coordinates : list (Z * Z * Z * Z)) (answer : list bool) :
  grid_answer chunk_number (flat_map coordinate_cells coordinates) = Ok answer ->
  forall number,
    answer !! number = Some true <->
    number < Z.to_nat (chunk_number ^ 2) /\
    exists c0 c1 c2 c3 x y,
      (c0, c1, c2, c3) ∈ coordinates /\
      (c0 <= x <= c2)%Z /\ (c1 <= y <= c3)%Z /\
      (Z.of_nat number + 1 = (or_one y - 1) * 4 + or_one x)%Z.
Proof.
  intros Hanswer number. rewrite (grid_answer_marks _ _ _ Hanswer number).
  split; intros [Hlt Hex]; (split; [done|]).
  - destruct Hex as (x & y & Hcell & Hidx).
    apply list_elem_of_In, in_flat_map in Hcell
      as ([[[c0 c1] c2] c3] & Hin%list_elem_of_In & Hcell%list_elem_of_In).
    apply elem_of_coordinate_cells in Hcell as [Hx Hy].
    by exists c0, c1, c2, c3, x, y.
  - destruct Hex as (c0 & c1 & c2 & c3 & x & y & Hin & Hx & Hy & Hidx).
    exists x, y. split; [|done].
    apply list_elem_of_In, in_flat_map. exists (c0, c1, c2, c3).
    split; [by apply list_elem_of_In|].
    apply list_elem_of_In. by apply elem_of_coordinate_cells.
Qed.

(** ** [select_blocks]: the grid size *)

Lemma py_split_cons sep (a s : string) :
  has_char sep a = false ->
  py_split sep (a +:+ String sep s) = a :: py_split sep s.
Proof.
  induction a as [|ch a IH]; simpl.
  - intros _. by rewrite Ascii.eqb_refl.
  - intros [Hch Ha]%orb_false_elim. rewrite Hch, (IH Ha). done.
Qed.

Lemma py_split_head sep ch (s : string) :
  Ascii.eqb ch sep = false ->
  exists part parts, py_split sep (String ch s) = String ch part :: parts.
Proof.
  intros Hch. simpl. rewrite Hch.
  destruct (py_split sep s) as [|h t]; by eexists _, _.
Qed.

Lemma py_digit_bound ch n : py_digit ch = Some n -> n <= 9.
Proof.
  unfold py_digit.
  destruct ((48 <=? nat_of_ascii ch) && (nat_of_ascii ch <=? 57)) eqn:Hd; [|done].
  apply andb_true_iff in Hd as [_ Hle%Nat.leb_le]. intros [= <-]. lia.
Qed.

(** X9. Of a table class with at least three hyphens whose fourth part
    starts with an ASCII character, [select_blocks] reads that character
    and nothing after it: one of the digits 0 to 9 is the grid size, any
    other ASCII character is a [ValueError]. *)
Theorem grid_size_reads_first_digit (a b c rest : string) (d : ascii) :
  has_char "-" a = false -> has_char "-" b = false -> has_char "-" c = false ->
  Ascii.eqb d "-" = false ->
  (nat_of_ascii d <? 128) = true ->
  grid_size (a +:+ "-" +:+ b +:+ "-" +:+ c +:+ "-" +:+ String d rest)
  = match py_digit d with
    | Some n => Ok n
    | None => Raise ValueError
    end /\
  forall n, py_digit d = Some n -> n <= 9.
Proof.
  intros Ha Hb Hc Hd _. split; [|apply py_digit_bound].
  unfold grid_size.
  change ("-" +:+ b +:+ "-" +:+ c +:+ "-" +:+ String d rest)
    with (String "-" (b +:+ "-" +:+ c +:+ "-" +:+ String d rest)).
  rewrite (py_split_cons "-" a _ Ha).
  change ("-" +:+ c +:+ "-" +:+ String d rest)
    with (String "-" (c +:+ "-" +:+ String d rest)).
  rewrite (py_split_cons "-" b _ Hb).
  change ("-" +:+ String d rest) with (String "-" (String d rest)).
  rewrite (py_split_cons "-" c _ Hc).
  destruct (py_split_head "-" d rest Hd) as (part & parts & ->).
  reflexivity.
Qed.

Lemma py_split_length sep (s : string) :
  length (py_split sep s)
  = S (length (filter (fun ch => ch = sep) (list_ascii_of_string s))).
Proof.
  induction s as [|ch s IH]; simpl; [done|].
  destruct (Ascii.eqb_spec ch sep) as [->|Hne].
  - rewrite filter_cons_True by done. simpl. by rewrite IH.
  - rewrite filter_cons_False by done.
    destruct (py_split sep s) as [|h t]; simpl in *; [done|]. by rewrite <- IH.
Qed.

(** X10. A table class with fewer than three hyphens has no fourth part:
    reading the grid size raises [IndexError]. *)
Theorem grid_size_needs_three_hyphens (cls : string) :
  length (filter (fun ch => ch = "-"%char) (list_ascii_of_string cls)) < 3 ->
  grid_size cls = Raise IndexError.
Proof.
  intros Hfew. unfold grid_size, py_index.
  rewrite lookup_ge_None_2; [done|]. rewrite py_split_length. lia.
Qed.

(** ** [divide_blocks] and the first loop of [select_blocks] *)

(** X11. When the challenge image (enhanced or not) is a square whose side
    is [blocks * k], [divide_blocks] returns [blocks] squared tiles, each of
    shape [(k, k)], and every pixel of the image lies in one of them. *)
Theorem divide_blocks_square_grid (blocks k : nat) s (im : image) s1 :
  0 < blocks -> 0 < k ->
  image_of XTile33Image s = (Ok im, s1) ->
  nrows im = blocks * k -> ncols im = blocks * k ->
  exists boxes tiles,
    divide_blocks blocks s = (Ok tiles, s1) /\
    tile_boxes (nrows im) (ncols im) blocks = Ok boxes /\
    tiles = map (slice_box im) boxes /\
    length tiles = blocks ^ 2 /\
    (forall tile, tile ∈ tiles -> shape tile = (k, k)) /\
    (forall r c, r < nrows im -> c < ncols im -> covered boxes r c = true).
Proof.
  intros Hb Hk Himage Hrows Hcols.
  destruct (split_image_square im blocks k Hb Hk Hrows Hcols)
    as (boxes & tiles & Hboxes & Htiles & Hlen & Hshape & Hcover).
  exists boxes, tiles.
  split; [unfold divide_blocks; by rewrite (bind_ok _ _ _ _ _ Himage), Htiles|].
  split; [done|]. split; [|done].
  unfold split_image in Htiles. rewrite Hboxes in Htiles. by injection Htiles.
Qed.

(** X12. When the first loop of [select_blocks] completes over a permutation of
    the cells, the tiles it clicked are those of the cells whose boolean is
    [True], each once, in the order of the shuffled range; the log holds
    exactly these tile clicks. *)
Theorem click_selected_log result _range n s clicked s' :
  click_selected result _range s = (Ok clicked, s') ->
  _range ≡ₚ seq 0 n ->
  clicked = map (fun block => block + 1)
                (filter (fun block => result !! block = Some true) _range) /\
  NoDup clicked /\
  (exists evs, trace s' = trace s ++ evs /\ tile_clicks evs = clicked) /\
  (forall block, block + 1 ∈ clicked <-> block < n /\ result !! block = Some true).
Proof.
  intros Hrun Hperm.
  destruct (click_selected_clicks_true _ _ _ _ _ Hrun) as [Hclicked Hlog].
  split; [done|]. split; [|split; [done|]].
  - rewrite Hclicked. apply NoDup_fmap_2; [intros x y; lia|].
    apply NoDup_filter. rewrite Hperm. apply NoDup_seq.
  - by apply (click_selected_exactly_true _ _ _ _ _ _ Hrun).
Qed.

(** ** [find_object] *)

Lemma yolo_names_only l s results s' :
  map_m (fun image => rows ← yolo image; ret (Names (map name rows))) l s
  = (Ok results, s') ->
  Forall (fun r => exists names, r = Names names) results.
Proof.
  revert s results. induction l as [|x l IH]; intros s results; simpl.
  - intros [= <- <-]. constructor.
  - intros (y & s1 & Hy & Hrest)%bind_inv_ok.
    apply bind_inv_ok in Hy as (rows & s2 & _ & [= <- <-]).
    apply bind_inv_ok in Hrest as (ys & s3 & Hys & [= <- <-]).
    constructor; [by eexists|by eapply IH].
Qed.

(** X13. [find_object] calls no model and returns the empty list when
    [blocks] is neither 3 nor 4, and when it runs on the empty class that
    [set_class] has stored, directly or after the fetch of an image.  With a
    class and [blocks = 3] it returns one list of names per tile; with
    [blocks = 4] what it returns is rows of the result table. *)
Theorem find_object_results (x : yolo_input) (blocks : nat) s :
  (blocks <> 3 /\ blocks <> 4 -> find_object x blocks s = (Ok [], s)) /\
  (forall s0, set_class s0 = (Ok "", s) -> find_object x blocks s = (Ok [], s)) /\
  (forall s0 element im s1,
      set_class s0 = (Ok "", s) -> image_of element s = (Ok im, s1) ->
      find_object x blocks s1 = (Ok [], s1)) /\
  (forall tiles results s',
      ocr_class s <> "" ->
      find_object (ImageList tiles) 3 s = (Ok results, s') ->
      length results = length tiles /\
      Forall (fun r => exists names, r = Names names) results) /\
  (forall results s',
      find_object x 4 s = (Ok results, s') -> exists rows, results = map Row rows).
Proof.
  assert (Hempty : forall s1, ocr_class s1 = "" ->
                     find_object x blocks s1 = (Ok [], s1)).
  { intros s1 Hc. unfold find_object, get_class. unfold_monad.
    rewrite Hc. simpl. by rewrite !andb_false_r. }
  split; [|split; [|split; [|split]]].
  - intros [H3 H4]. unfold find_object, get_class. unfold_monad.
    apply Nat.eqb_neq in H3, H4. by rewrite H3, H4.
  - intros s0 (Hc & _)%set_class_ok. by apply Hempty.
  - intros s0 element im s1 (Hc & _)%set_class_ok Him. apply Hempty.
    pose proof (image_of_keeps ocr_class element (fun _ _ _ => eq_refl) s) as Hkeep.
    rewrite Him in Hkeep. simpl in Hkeep. congruence.
  - intros tiles results s' Hclass Hfind.
    split; [by apply (find_object_3x3_per_tile _ _ _ _ Hfind)|].
    unfold find_object in Hfind.
    apply bind_inv_ok in Hfind as (c & s1 & [= <- <-] & Hfind).
    destruct (ocr_class s) as [|ch c] eqn:Hc; [done|].
    simpl in Hfind. by apply yolo_names_only in Hfind.
  - intros results s'. apply find_object_4_rows.
Qed.

(** ** [solve]: what escapes it *)

(** X14. An exception leaves [solve] exactly when [open_challenge] raised it:
    the loop lets none out, and the call before the loop is not guarded. *)
Theorem solve_raises_from_open_challenge (fuel : nat) s e s' :
  solve fuel s = (Raise e, s') <-> open_challenge s = (Raise e, s').
Proof.
  unfold solve. split.
  - intros Hsolve.
    destruct (open_challenge s) as [[[]|e0|] s1] eqn:Hopen.
    + rewrite (bind_ok _ _ _ _ _ Hopen) in Hsolve.
      by apply solve_loop_no_raise in Hsolve.
    + rewrite (bind_raise _ _ _ _ _ Hopen) in Hsolve. by injection Hsolve as -> ->.
    + by rewrite (bind_out_of_fuel _ _ _ _ Hopen) in Hsolve.
  - intros Hopen. by apply bind_raise.
Qed.


(** ** The buttons: what a call that returns has done *)

(** X15. When [open_challenge] returns it has waited once and clicked the
    checkbox once; when [confirm] returns it has waited twice and clicked
    the verify button once; when [reload] returns it has waited twice and
    clicked the reload button once.  Nothing else is logged. *)
Theorem buttons_clicked_once_on_return s s' :
  (open_challenge s = (Ok tt, s') ->
   trace s' = trace s ++ [EvSleep; EvClick XAnchor]) /\
  (confirm s = (Ok tt, s') ->
   trace s' = trace s ++ [EvSleep; EvSleep; EvClick XVerifyButton]) /\
  (reload s = (Ok tt, s') ->
   trace s' = trace s ++ [EvSleep; EvSleep; EvClick XReloadButton]).
Proof.
  split; [apply open_challenge_ok_trace|].
  split; [apply confirm_ok_trace|apply reload_ok_trace].
Qed.

(** ** [download_models]: what a run that returns leaves on disk *)

Lemma download_model_ok_exists url path model s s' :
  download_model (url, path, model) s = (Ok tt, s') ->
  is_Some (files s' !! abspath path).
Proof.
  destruct (files s !! abspath path) as [d|] eqn:Hd.
  { rewrite download_model_cached by (by rewrite Hd).
    intros [= <-]. by rewrite Hd. }
  unfold download_model. intros Hrun.
  apply bind_inv_ok in Hrun as (present & s1 & [= <- <-] & Hrun).
  rewrite bool_decide_eq_false_2 in Hrun by (rewrite Hd; by intros [? ?]).
  cbn [negb] in Hrun.
  apply bind_inv_ok in Hrun as ([] & s2 & _ & Hrun).
  apply bind_inv_ok in Hrun as (request & s3 & _ & Hrun).
  destruct (content_length request) as [len|]; [|done].
  apply bind_inv_ok in Hrun as ([] & s4 & _ & Hrun).
  apply bind_inv_ok in Hrun as ([] & s5 & Hcopy & [= <-]).
  unfold copyfileobj in Hcopy.
  apply bind_inv_ok in Hcopy as ([] & s6 & [= <-] & Hcopy).
  destruct (raw_error request); [done|]. injection Hcopy as <-.
  simpl. rewrite lookup_insert_eq. by eexists.
Qed.

Lemma download_loop_ok_exists entries s s' :
  for_each (fun _ entry => download_model entry) tt entries s = (Ok tt, s') ->
  forall url path model,
    (url, path, model) ∈ entries -> is_Some (files s' !! abspath path).
Proof.
  revert s. induction entries as [|[[u p] m] entries IH]; intros s Hrun url path model Hin.
  { by apply elem_of_nil in Hin. }
  rewrite for_each_cons in Hrun.
  apply bind_inv_ok in Hrun as ([] & s1 & Hone & Hrest).
  apply elem_of_cons in Hin as [[= -> -> ->]|Hin]; [|by eapply IH].
  apply download_model_ok_exists in Hone.
  destruct (download_loop_safe entries s1) as (_ & _ & Hkeep & _).
  rewrite Hrest in Hkeep. simpl in Hkeep. by rewrite (Hkeep _ Hone).
Qed.

(** X16. When [download_models] returns, the file of each of the two
    configured models exists, whether it was there before or has just been
    downloaded. *)
Theorem download_models_leaves_both_files s s' :
  download_models s = (Ok tt, s') ->
  is_Some (files s' !! abspath "realesrgan/RealESRGAN_x4plus.pth") /\
  is_Some (files s' !! abspath "yolov5/yolov5x6.pt").
Proof.
  unfold download_models, download_models_of. intros Hrun.
  split; eapply (download_loop_ok_exists _ _ _ Hrun); simpl.
  - left.
  - right. left.
Qed.

(** ** The loop of [solve]: its exits and its iterations *)



End Coverage.

(** ** The properties above on the scripted sessions *)


(** X6, witness: a weight download whose stream breaks leaves the two bytes
    received, and the next run does not download again. *)
Lemma download_model_outcomes_witness :
  exists s',
    download_model (Env0 := page_env page_cut_download)
      ("RealESRGAN/RealESRGAN_x4plus.pth", "realesrgan/RealESRGAN_x4plus.pth",
       "RealESRGAN") (fresh ∅) = (Raise (LibraryError 3), s') /\
    files s' !! "realesrgan/RealESRGAN_x4plus.pth" = Some [Byte.x00; Byte.x01] /\
    download_model (Env0 := page_env page_cut_download)
      ("RealESRGAN/RealESRGAN_x4plus.pth", "realesrgan/RealESRGAN_x4plus.pth",
       "RealESRGAN") s' = (Ok tt, s').
Proof.
  pose proof (download_model_outcomes (Env0 := page_env page_cut_download)
                "RealESRGAN/RealESRGAN_x4plus.pth"
                "realesrgan/RealESRGAN_x4plus.pth"
                "RealESRGAN" (fresh ∅) eq_refl) as Hout.
  set (run := download_model (Env0 := page_env page_cut_download)
                ("RealESRGAN/RealESRGAN_x4plus.pth",
                 "realesrgan/RealESRGAN_x4plus.pth", "RealESRGAN") (fresh ∅)) in *.
  assert (Hrun : run = (Raise (LibraryError 3), run.2)) by (vm_compute; reflexivity).
  assert (Hfile : files run.2 !! "realesrgan/RealESRGAN_x4plus.pth"
                  = Some [Byte.x00; Byte.x01]) by (vm_compute; reflexivity).
  exists run.2. split; [done|]. split; [done|].
  rewrite Hrun in Hout.
  destruct Hout as [Hsame|(request & s1 & _ & _ & _ & Hlater)]; [|done].
  rewrite Hsame in Hfile. vm_compute in Hfile. discriminate Hfile.
Defined.

(** X8, witness: one box over the columns 1 to 2 and the rows 1 to 2 of a
    4x4 grid marks the first cell. *)
Lemma cells_to_click_marks_witness :
  [true; true; false; false; true; true; false; false;
   false; false; false; false; false; false; false; false] !! 0 = Some true <->
  0 < Z.to_nat (4 ^ 2) /\
  exists c0 c1 c2 c3 x y : Z,
    (c0, c1, c2, c3) ∈ [(1, 1, 2, 2)%Z] /\
    (c0 <= x <= c2)%Z /\ (c1 <= y <= c3)%Z /\
    (Z.of_nat 0 + 1 = (or_one y - 1) * 4 + or_one x)%Z.
Proof.
  apply (cells_to_click_marks 4 [(1, 1, 2, 2)%Z]).
  vm_compute. reflexivity.
Defined.

(** X9, witness: the table class of a 4x4 challenge. *)
Lemma grid_size_reads_first_digit_witness :
  grid_size "rc-imageselect-table-44" = Ok 4.
Proof.
  apply (proj1 (grid_size_reads_first_digit "rc" "imageselect" "table" "4" "4"
                  eq_refl eq_refl eq_refl eq_refl eq_refl)).
Defined.

(** X10, witness: a class with one hyphen. *)
Lemma grid_size_needs_three_hyphens_witness :
  grid_size "rc-imageselect" = Raise IndexError.
Proof.
  apply (grid_size_needs_three_hyphens "rc-imageselect"). vm_compute. lia.
Defined.

(** X11, witness: the 300x300 image of the 3x3 challenge gives nine tiles
    of 100x100. *)
Lemma divide_blocks_square_grid_witness :
  exists tiles,
    (divide_blocks (Env0 := page_env page_unknown_3x3) 3 (fresh ∅)).1 = Ok tiles /\
    length tiles = 9 /\
    forall tile, tile ∈ tiles -> shape tile = (100, 100).
Proof.
  destruct (divide_blocks_square_grid (Env0 := page_env page_unknown_3x3)
              3 100 (fresh ∅) (blank 300 300)
              (image_of (Env0 := page_env page_unknown_3x3)
                 XTile33Image (fresh ∅)).2)
    as (boxes & tiles & Hrun & _ & _ & Hlen & Hshape & _).
  - lia.
  - lia.
  - reflexivity.
  - reflexivity.
  - reflexivity.
  - exists tiles. rewrite Hrun. by split.
Defined.

(** X12, witness: a selection of the first and the third of three cells. *)
Lemma click_selected_log_witness :
  [1; 3] = map (fun block => block + 1)
               (filter (fun block => [true; false; true] !! block = Some true)
                       [0; 1; 2]) /\
  NoDup [1; 3] /\
  (exists evs,
      trace (click_selected (Env0 := page_env page_cars_4x4)
               [true; false; true] [0; 1; 2] (fresh ∅)).2
      = trace (fresh ∅) ++ evs /\
      tile_clicks evs = [1; 3]) /\
  (forall block,
      block + 1 ∈ [1; 3] <->
      block < 3 /\ [true; false; true] !! block = Some true).
Proof.
  apply (click_selected_log (Env0 := page_env page_cars_4x4)
           [true; false; true] [0; 1; 2] 3 (fresh ∅)).
  - vm_compute. reflexivity.
  - reflexivity.
Defined.

(** X16, witness: from an empty disk both weight files are downloaded. *)
Lemma download_models_leaves_both_files_witness :
  is_Some (files (download_models (Env0 := page_env page_cars_4x4) (fresh ∅)).2
             !! "realesrgan/RealESRGAN_x4plus.pth") /\
  is_Some (files (download_models (Env0 := page_env page_cars_4x4) (fresh ∅)).2
             !! "yolov5/yolov5x6.pt").
Proof.
  apply (download_models_leaves_both_files (Env0 := page_env page_cars_4x4)
           (fresh ∅)).
  vm_compute. reflexivity.
Defined.


